(** * adc: an Active Directory client over LDAP

    A shallow embedding of the point lookups ([GetUser], [GetGroup]), the
    paged listings ([ListUsers], [ListGroups]) and the membership batches
    ([AddGroupMembers], [DeleteGroupMembers]) of [src/user.go] and
    [src/group.go], together with the earlier [AddGroupMembers] of
    [src/unnamed/part_000] (module [Legacy]).

    Conventions.
    - A Go [error] is identified with its message; [nil] is [None].
    - A Go function returning [(v, err)] returns a pair here, so that
      [return nil, err] reads [(None, Some err)].
    - A slice that is only ever built by [append] is a [list]: such a slice
      is [nil] exactly when it is empty.  A slice whose nil-ness the code
      tests and which comes from outside is an [option (list _)].
    - Every call into the directory is recorded, in order, in a log that is
      threaded with the directory state through a small state monad. *)

From Stdlib Require Import ZArith Strings.Ascii Strings.String Strings.Byte.
From stdpp Require Import base option list strings gmap.

Open Scope Z_scope.

(** ** Errors *)

Abbreviation error := string (only parsing).

(** [errors.New] *)
Definition errors_New (text : string) : error := text.

(** ** The go-ldap data the client handles *)

Record EntryAttribute := {
  Name : string;
  Values : list string;
}.

Record Entry := {
  Entry_DN : string;
  Entry_Attributes : list EntryAttribute;
}.

(** Modelled from the spec: go-ldap's [Entry.GetAttributeValues] and
    [Entry.GetAttributeValue] are not among the sources.  Section 4.3:
    "first value of the named id attribute, or empty string if absent". *)
Fixpoint GetAttributeValues (attrs : list EntryAttribute) (attribute : string)
  : list string :=
  match attrs with
  | [] => []
  | attr :: rest =>
      if decide (Name attr = attribute) then Values attr
      else GetAttributeValues rest attribute
  end.

Definition GetAttributeValue (e : Entry) (attribute : string) : string :=
  match GetAttributeValues (Entry_Attributes e) attribute with
  | [] => ""
  | v :: _ => v
  end.

Inductive Scope := ScopeBaseObject | ScopeSingleLevel | ScopeWholeSubtree.

Inductive DerefAliases :=
  NeverDerefAliases | DerefInSearching | DerefFindingBaseObj | DerefAlways.

(** [ldap.ControlPaging] carries a [uint32] page size and an opaque cookie;
    every other implementation of [ldap.Control] is [ControlOther]. *)
Inductive Control :=
| ControlPaging (PagingSize : Z) (Cookie : list byte)
| ControlOther (ControlType : string).

Record SearchRequest := {
  BaseDN : string;
  Req_Scope : Scope;
  Req_DerefAliases : DerefAliases;
  TimeLimit : Z;
  Filter : string;
  Req_Attributes : list string;
  Req_Controls : list Control;
}.

(** [Res_Controls] is [None] for a nil slice: [ListUsers] tests it. *)
Record SearchResult := {
  Entries : list Entry;
  Res_Controls : option (list Control);
}.

Global Instance byte_eq_dec : EqDecision byte := Byte.byte_eq_dec.

(** [uint32(pageSize)] *)
Definition uint32 (n : Z) : Z := n mod 2 ^ 32.

Definition NewControlPaging (pagingSize : Z) : Z * list byte := (pagingSize, []).

(** ** Configuration (declared in a file that is not among the sources;
    the fields are the ones the sources read) *)

Record UsersConfigs := {
  Users_SearchBase : string;
  Users_FilterById : string;
  Users_FilterByDn : string;
  Users_FilterGroupsByDn : string;
  Users_FilterByPerson : string;
  Users_IdAttribute : string;
  Users_Attributes : list string;
}.

Record GroupsConfigs := {
  Groups_SearchBase : string;
  Groups_FilterById : string;
  Groups_FilterByDn : string;
  Groups_FilterMembersByDn : string;
  Groups_FilterByGroup : string;
  Groups_IdAttribute : string;
  Groups_Attributes : list string;
}.

(** [Timeout_Seconds] is [int(cl.Config.Timeout.Seconds())]. *)
Record Config := {
  Timeout_Seconds : Z;
  Users : UsersConfigs;
  Groups : GroupsConfigs;
}.

(** ** What the client takes from outside *)

(** Go's [fmt.Sprintf] applied to a configured template and one string
    operand, and go-ldap's [EscapeFilter]. *)
Class Runtime := {
  Sprintf : string → string → string;
  EscapeFilter : string → string;
}.

(** The directory session behind [cl.ldap.Search], [cl.searchEntry],
    [cl.searchEntries] and [cl.updateAttribute] (the last three are declared
    in a file that is not among the sources).  Point lookups read the
    directory and leave it as it is; a paged search is a conversation in
    which the server may move on, and a write changes the directory. *)
Class Directory (World : Type) := {
  dir_Search : SearchRequest → World → (error + SearchResult) * World;
  dir_searchEntry : SearchRequest → World → error + option Entry;
  dir_searchEntries : SearchRequest → World → error + list Entry;
  dir_updateAttribute :
    string → string → list string → World → option error * World;
}.

Record Client := {
  Client_Config : Config;
}.

(** ** The monad: directory state and the log of directory calls *)

Inductive Call :=
| CallSearch (req : SearchRequest)
| CallSearchEntry (req : SearchRequest)
| CallSearchEntries (req : SearchRequest)
| CallUpdateAttribute (dn attr : string) (vals : list string).

Record State (World : Type) := mkState {
  world : World;
  calls : list Call;
}.
Arguments mkState {World} _ _.
Arguments world {World} _.
Arguments calls {World} _.

Definition M (World A : Type) : Type := State World → A * State World.

Global Instance M_ret {World} : MRet (M World) := λ A a st, (a, st).
Global Instance M_bind {World} : MBind (M World) :=
  λ A B f m st, let (a, st') := m st in f a st'.

(** The writes among the logged calls. *)
Definition isWrite (c : Call) : bool :=
  match c with CallUpdateAttribute _ _ _ => true | _ => false end.

Definition writes (l : list Call) : list Call := filter (λ c, isWrite c = true) l.

(** ** [src/user.go] and [src/group.go]: records *)

Record UserGroup := {
  UserGroup_DN : string;
  UserGroup_Id : string;
}.

Record User := {
  User_DN : string;
  User_Id : string;
  User_Attributes : gmap string string;
  User_Groups : list UserGroup;
}.

Record GroupMember := {
  GroupMember_DN : string;
  GroupMember_Id : string;
}.

Record Group := {
  Group_DN : string;
  Group_Id : string;
  Group_Attributes : gmap string string;
  Group_Members : list GroupMember;
}.

(** [Attributes] is [None] for a nil slice. *)
Record GetUserArgs := {
  GetUserArgs_Id : string;
  GetUserArgs_Dn : string;
  GetUserArgs_Filter : string;
  GetUserArgs_Attributes : option (list string);
  SkipGroupsSearch : bool;
}.

Record GetGroupArgs := {
  GetGroupArgs_Id : string;
  GetGroupArgs_Dn : string;
  GetGroupArgs_Filter : string;
  GetGroupArgs_Attributes : option (list string);
  SkipMembersSearch : bool;
}.

(** [GetUserArgs{Id: userId}] and [GetGroupArgs{Id: groupId}] *)
Definition GetUserArgs_byId (userId : string) : GetUserArgs :=
  {| GetUserArgs_Id := userId; GetUserArgs_Dn := ""; GetUserArgs_Filter := "";
     GetUserArgs_Attributes := None; SkipGroupsSearch := false |}.

Definition GetGroupArgs_byId (groupId : string) : GetGroupArgs :=
  {| GetGroupArgs_Id := groupId; GetGroupArgs_Dn := ""; GetGroupArgs_Filter := "";
     GetGroupArgs_Attributes := None; SkipMembersSearch := false |}.

Definition GetUserArgs_Validate (args : GetUserArgs) : option error :=
  if decide (GetUserArgs_Id args = "" ∧ GetUserArgs_Dn args = ""
             ∧ GetUserArgs_Filter args = "")
  then Some (errors_New "neither of ID, DN or Filter provided")
  else None.

Definition GetGroupArgs_Validate (args : GetGroupArgs) : option error :=
  if decide (GetGroupArgs_Id args = "" ∧ GetGroupArgs_Dn args = ""
             ∧ GetGroupArgs_Filter args = "")
  then Some (errors_New "neither of ID, DN or Filter provided")
  else None.

(** [for _, a := range entry.Attributes
       { result.Attributes[a.Name] = entry.GetAttributeValue(a.Name) }] *)
Definition entryAttributes (entry : Entry) : gmap string string :=
  foldl (λ m a, <[Name a := GetAttributeValue entry (Name a)]> m)
        ∅ (Entry_Attributes entry).

Definition IsGroupMember (u : User) (groupId : string) : bool :=
  existsb (λ g, bool_decide (UserGroup_Id g = groupId)) (User_Groups u).

(** The [append] loops of [MembersDn], [MembersId], [GroupsDn], [GroupsId]. *)
Definition MembersDn (g : Group) : list string :=
  foldl (λ result m, result ++ [GroupMember_DN m]) [] (Group_Members g).

Definition MembersId (g : Group) : list string :=
  foldl (λ result m, result ++ [GroupMember_Id m]) [] (Group_Members g).

Definition GroupsDn (u : User) : list string :=
  foldl (λ result g, result ++ [UserGroup_DN g]) [] (User_Groups u).

Definition GroupsId (u : User) : list string :=
  foldl (λ result g, result ++ [UserGroup_Id g]) [] (User_Groups u).

Definition popAddGroupMembers (g : Group) (toAdd : list string) : list string :=
  if decide (length toAdd = 0%nat) then MembersDn g
  else
    let result := [] in
    let result := result ++ MembersDn g in
    let result := result ++ toAdd in
    result.

(** [slices.Contains] *)
Definition slices_Contains (s : list string) (v : string) : bool :=
  existsb (λ x, bool_decide (x = v)) s.

Definition popDelGroupMembers (g : Group) (toDel : list string) : list string :=
  foldl (λ result memberDN,
           if negb (slices_Contains toDel memberDN) then result ++ [memberDN]
           else result)
        [] (MembersDn g).

(** ** The client's operations *)

Section Operations.
Context `{Runtime} {World : Type} `{!Directory World}.

(** *** Directory calls, logged *)

Definition ldap_Search (req : SearchRequest) : M World (error + SearchResult) :=
  λ st, let (r, w) := dir_Search req (world st) in
        (r, mkState w (calls st ++ [CallSearch req])).

Definition searchEntry (req : SearchRequest) : M World (error + option Entry) :=
  λ st, (dir_searchEntry req (world st),
         mkState (world st) (calls st ++ [CallSearchEntry req])).

Definition searchEntries (req : SearchRequest) : M World (error + list Entry) :=
  λ st, (dir_searchEntries req (world st),
         mkState (world st) (calls st ++ [CallSearchEntries req])).

Definition updateAttribute (dn attr : string) (vals : list string)
  : M World (option error) :=
  λ st, let (r, w) := dir_updateAttribute dn attr vals (world st) in
        (r, mkState w (calls st ++ [CallUpdateAttribute dn attr vals])).

Variable cl : Client.

(** *** [src/user.go] *)

Definition getUserGroups (dn : string) : M World (list UserGroup * option error) :=
  let req := {|
    BaseDN := Groups_SearchBase (Groups (Client_Config cl));
    Req_Scope := ScopeWholeSubtree;
    Req_DerefAliases := NeverDerefAliases;
    TimeLimit := Timeout_Seconds (Client_Config cl);
    Filter := Sprintf (Users_FilterGroupsByDn (Users (Client_Config cl)))
                      (EscapeFilter dn);
    Req_Attributes := [Groups_IdAttribute (Groups (Client_Config cl))];
    Req_Controls := [] |} in
  r ← searchEntries req;
  match r with
  | inl err => mret ([], Some err)
  | inr entries =>
      mret (foldl (λ result e,
                     result ++ [{| UserGroup_DN := Entry_DN e;
                                   UserGroup_Id := GetAttributeValue e
                                     (Groups_IdAttribute (Groups (Client_Config cl))) |}])
                  [] entries,
            None)
  end.

(** The filter and the request [GetUser] builds (user.go, lines 126-146). *)
Definition GetUser_filter (args : GetUserArgs) : string :=
  if decide (GetUserArgs_Filter args ≠ "") then GetUserArgs_Filter args
  else
    let filter := Sprintf (Users_FilterById (Users (Client_Config cl)))
                          (GetUserArgs_Id args) in
    if decide (GetUserArgs_Dn args ≠ "")
    then Sprintf (Users_FilterByDn (Users (Client_Config cl)))
                 (EscapeFilter (GetUserArgs_Dn args))
    else filter.

Definition GetUser_request (args : GetUserArgs) : SearchRequest :=
  {| BaseDN := Users_SearchBase (Users (Client_Config cl));
     Req_Scope := ScopeWholeSubtree;
     Req_DerefAliases := NeverDerefAliases;
     TimeLimit := Timeout_Seconds (Client_Config cl);
     Filter := GetUser_filter args;
     Req_Attributes :=
       match GetUserArgs_Attributes args with
       | Some attrs => attrs
       | None => Users_Attributes (Users (Client_Config cl))
       end;
     Req_Controls := [] |}.

Definition GetUser (args : GetUserArgs) : M World (option User * option error) :=
  match GetUserArgs_Validate args with
  | Some err => mret (None, Some err)
  | None =>
      r ← searchEntry (GetUser_request args);
      match r with
      | inl err => mret (None, Some err)
      | inr None => mret (None, None)
      | inr (Some entry) =>
          let result := {|
            User_DN := Entry_DN entry;
            User_Id := GetAttributeValue entry
                         (Users_IdAttribute (Users (Client_Config cl)));
            User_Attributes := entryAttributes entry;
            User_Groups := [] |} in
          if negb (SkipGroupsSearch args) then
            '(groups, err) ← getUserGroups (Entry_DN entry);
            match err with
            | Some err =>
                mret (None, Some ("can't get user groups: " +:+ err))
            | None =>
                mret (Some {| User_DN := User_DN result;
                              User_Id := User_Id result;
                              User_Attributes := User_Attributes result;
                              User_Groups := groups |}, None)
            end
          else mret (Some result, None)
      end
  end.

(** *** The paging loop of [ListUsers] (user.go, lines 76-100) and of
    [ListGroups] (group.go, lines 132-156); the two are the same
    statement for statement.

    The loop has no bound of its own, so the model takes fuel and says
    [OutOfFuel] when it is spent.  [sr.Controls[0]] on a non-nil empty
    slice is a run-time panic.  A run that leaves the loop does so by
    [return nil, err] ([inl err]) or by [break] ([inr entries]). *)

Inductive Exec (A : Type) :=
| Returns (a : A)
| Panics (msg : string)
| OutOfFuel.
Global Arguments Returns {A} _.
Global Arguments Panics {A} _.
Global Arguments OutOfFuel {A}.

Definition withControls (req : SearchRequest) (controls : list Control)
  : SearchRequest :=
  {| BaseDN := BaseDN req; Req_Scope := Req_Scope req;
     Req_DerefAliases := Req_DerefAliases req; TimeLimit := TimeLimit req;
     Filter := Filter req; Req_Attributes := Req_Attributes req;
     Req_Controls := controls |}.

Fixpoint pagingLoop (fuel : nat) (req : SearchRequest)
    (control : Z * list byte) (entries : list Entry)
  : M World (Exec (error + list Entry)) :=
  match fuel with
  | O => mret OutOfFuel
  | S fuel =>
      let req := withControls req [ControlPaging control.1 control.2] in
      r ← ldap_Search req;
      match r with
      | inl err => mret (Returns (inl err))
      | inr sr =>
          let entries := entries ++ Entries sr in
          match Res_Controls sr with
          | None => mret (Returns (inr entries))
          | Some [] => mret (Panics "index out of range [0] with length 0")
          | Some (ControlPaging _ cookie :: _) =>
              if decide (length cookie = 0%nat)
              then mret (Returns (inr entries))
              else pagingLoop fuel req (control.1, cookie) entries
          | Some (ControlOther _ :: _) => mret (Returns (inr entries))
          end
      end
  end.

Definition ListUsers_request (args : GetUserArgs) (filter : string)
  : SearchRequest :=
  {| BaseDN := Users_SearchBase (Users (Client_Config cl));
     Req_Scope := ScopeWholeSubtree;
     Req_DerefAliases := NeverDerefAliases;
     TimeLimit := Timeout_Seconds (Client_Config cl);
     Filter := if decide (0 < String.length filter)%nat then filter
               else Users_FilterByPerson (Users (Client_Config cl));
     Req_Attributes :=
       match GetUserArgs_Attributes args with
       | Some attrs => attrs
       | None => Users_Attributes (Users (Client_Config cl))
       end;
     Req_Controls := [] |}.

Definition ListUsers (fuel : nat) (args : GetUserArgs) (pageSize : Z)
    (filter : string) : M World (Exec (option (list User) * option error)) :=
  let req := ListUsers_request args filter in
  let control := NewControlPaging (uint32 pageSize) in
  r ← pagingLoop fuel req control [];
  match r with
  | OutOfFuel => mret OutOfFuel
  | Panics msg => mret (Panics msg)
  | Returns (inl err) => mret (Returns (None, Some err))
  | Returns (inr []) => mret (Returns (None, None))
  | Returns (inr entries) =>
      mret (Returns
        (Some (foldl (λ results entry,
                        results ++ [{|
                          User_DN := Entry_DN entry;
                          User_Id := GetAttributeValue entry
                            (Users_IdAttribute (Users (Client_Config cl)));
                          User_Attributes := entryAttributes entry;
                          User_Groups := [] |}])
                     [] entries),
         None))
  end.

(** *** [src/group.go] *)

Definition getGroupMembers (dn : string)
  : M World (list GroupMember * option error) :=
  let req := {|
    BaseDN := Users_SearchBase (Users (Client_Config cl));
    Req_Scope := ScopeWholeSubtree;
    Req_DerefAliases := NeverDerefAliases;
    TimeLimit := Timeout_Seconds (Client_Config cl);
    Filter := Sprintf (Groups_FilterMembersByDn (Groups (Client_Config cl)))
                      (EscapeFilter dn);
    Req_Attributes := [Users_IdAttribute (Users (Client_Config cl))];
    Req_Controls := [] |} in
  r ← searchEntries req;
  match r with
  | inl err => mret ([], Some err)
  | inr entries =>
      mret (foldl (λ result e,
                     result ++ [{| GroupMember_DN := Entry_DN e;
                                   GroupMember_Id := GetAttributeValue e
                                     (Groups_IdAttribute (Groups (Client_Config cl))) |}])
                  [] entries,
            None)
  end.

(** The filter and the request [GetGroup] builds (group.go, lines 63-83). *)
Definition GetGroup_filter (args : GetGroupArgs) : string :=
  if decide (GetGroupArgs_Filter args ≠ "") then GetGroupArgs_Filter args
  else
    let filter := Sprintf (Groups_FilterById (Groups (Client_Config cl)))
                          (GetGroupArgs_Id args) in
    if decide (GetGroupArgs_Dn args ≠ "")
    then Sprintf (Groups_FilterByDn (Groups (Client_Config cl)))
                 (EscapeFilter (GetGroupArgs_Dn args))
    else filter.

Definition GetGroup_request (args : GetGroupArgs) : SearchRequest :=
  {| BaseDN := Groups_SearchBase (Groups (Client_Config cl));
     Req_Scope := ScopeWholeSubtree;
     Req_DerefAliases := NeverDerefAliases;
     TimeLimit := Timeout_Seconds (Client_Config cl);
     Filter := GetGroup_filter args;
     Req_Attributes :=
       match GetGroupArgs_Attributes args with
       | Some attrs => attrs
       | None => Groups_Attributes (Groups (Client_Config cl))
       end;
     Req_Controls := [] |}.

Definition GetGroup (args : GetGroupArgs) : M World (option Group * option error) :=
  match GetGroupArgs_Validate args with
  | Some err => mret (None, Some err)
  | None =>
      r ← searchEntry (GetGroup_request args);
      match r with
      | inl err => mret (None, Some err)
      | inr None => mret (None, None)
      | inr (Some entry) =>
          let result := {|
            Group_DN := Entry_DN entry;
            Group_Id := GetAttributeValue entry
                          (Groups_IdAttribute (Groups (Client_Config cl)));
            Group_Attributes := entryAttributes entry;
            Group_Members := [] |} in
          if negb (SkipMembersSearch args) then
            '(members, err) ← getGroupMembers (Entry_DN entry);
            match err with
            | Some err =>
                mret (None, Some ("can't get group members: " +:+ err))
            | None =>
                mret (Some {| Group_DN := Group_DN result;
                              Group_Id := Group_Id result;
                              Group_Attributes := Group_Attributes result;
                              Group_Members := members |}, None)
            end
          else mret (Some result, None)
      end
  end.

Definition ListGroups_request (args : GetGroupArgs) (filter : string)
  : SearchRequest :=
  {| BaseDN := Groups_SearchBase (Groups (Client_Config cl));
     Req_Scope := ScopeWholeSubtree;
     Req_DerefAliases := NeverDerefAliases;
     TimeLimit := Timeout_Seconds (Client_Config cl);
     Filter := if decide (0 < String.length filter)%nat then filter
               else Groups_FilterByGroup (Groups (Client_Config cl));
     Req_Attributes :=
       match GetGroupArgs_Attributes args with
       | Some attrs => attrs
       | None => Groups_Attributes (Groups (Client_Config cl))
       end;
     Req_Controls := [] |}.

Definition ListGroups (fuel : nat) (args : GetGroupArgs) (pageSize : Z)
    (filter : string) : M World (Exec (option (list Group) * option error)) :=
  let req := ListGroups_request args filter in
  let control := NewControlPaging (uint32 pageSize) in
  r ← pagingLoop fuel req control [];
  match r with
  | OutOfFuel => mret OutOfFuel
  | Panics msg => mret (Panics msg)
  | Returns (inl err) => mret (Returns (None, Some err))
  | Returns (inr []) => mret (Returns (None, None))
  | Returns (inr entries) =>
      mret (Returns
        (Some (foldl (λ results entry,
                        results ++ [{|
                          Group_DN := Entry_DN entry;
                          Group_Id := GetAttributeValue entry
                            (Users_IdAttribute (Users (Client_Config cl)));
                          Group_Attributes := entryAttributes entry;
                          Group_Members := [] |}])
                     [] entries),
         None))
  end.

(** *** The membership batches

    Each requested identifier is resolved by a goroutine of its own; the
    goroutines are joined ([wg.Wait]) before the channels are read.  What
    a goroutine sends is [Sent]; the order in which the goroutines get to
    send is the scheduler's, a rearrangement [sched membersIds] of the
    requested identifiers.  Lookups leave the directory as it is, so the
    order only decides the order of the channels' contents (and of the
    lookups in the log). *)

Inductive Sent :=
| SentErr (err : error)
| SentDN (dn : string)
| SentNothing.

Definition Schedule : Type := list string → list string.

Fixpoint runWorkers (worker : string → M World Sent) (ids : list string)
  : M World (list Sent) :=
  match ids with
  | [] => mret []
  | id :: rest =>
      s ← worker id;
      ss ← runWorkers worker rest;
      mret (s :: ss)
  end.

(** What was sent on [errCh] and on [ch], in order. *)
Definition errCh_of (sent : list Sent) : list error :=
  omap (λ s, match s with SentErr err => Some err | _ => None end) sent.

Definition ch_of (sent : list Sent) : list string :=
  omap (λ s, match s with SentDN dn => Some dn | _ => None end) sent.

(** The goroutine of [AddGroupMembers] (group.go, lines 254-272). *)
Definition addWorker (groupId userId : string) : M World Sent :=
  '(user, err) ← GetUser (GetUserArgs_byId userId);
  match err with
  | Some err =>
      mret (SentErr ("can't get account '" +:+ userId +:+ "': " +:+ err))
  | None =>
      match user with
      | None => mret SentNothing
      | Some user =>
          if IsGroupMember user groupId then mret SentNothing
          else mret (SentDN (User_DN user))
      end
  end.

Definition AddGroupMembers (sched : Schedule) (groupId : string)
    (membersIds : list string) : M World (Z * option error) :=
  '(group, err) ← GetGroup (GetGroupArgs_byId groupId);
  match err with
  | Some err => mret (0, Some ("can't get group: " +:+ err))
  | None =>
      match group with
      | None => mret (0, Some ("group '" +:+ groupId +:+ "' not found by ID"))
      | Some group =>
          sent ← runWorkers (addWorker groupId) (sched membersIds);
          match errCh_of sent with
          | err :: _ => mret (0, Some err)
          | [] =>
              let toAdd := foldl (λ toAdd dn, toAdd ++ [dn]) [] (ch_of sent) in
              if decide (length toAdd = 0%nat) then mret (0, None)
              else
                let newMembers := popAddGroupMembers group toAdd in
                err ← updateAttribute (Group_DN group) "member" newMembers;
                match err with
                | Some err => mret (0, Some err)
                | None => mret (Z.of_nat (length toAdd), None)
                end
          end
      end
  end.

(** The goroutine of [DeleteGroupMembers] (group.go, lines 330-348). *)
Definition delWorker (groupId userId : string) : M World Sent :=
  '(user, err) ← GetUser (GetUserArgs_byId userId);
  match err with
  | Some err =>
      mret (SentErr ("can't get account '" +:+ userId +:+ "': " +:+ err))
  | None =>
      match user with
      | None => mret SentNothing
      | Some user =>
          if negb (IsGroupMember user groupId) then mret SentNothing
          else mret (SentDN (User_DN user))
      end
  end.

Definition DeleteGroupMembers (sched : Schedule) (groupId : string)
    (membersIds : list string) : M World (Z * option error) :=
  '(group, err) ← GetGroup (GetGroupArgs_byId groupId);
  match err with
  | Some err => mret (0, Some ("can't get group: " +:+ err))
  | None =>
      match group with
      | None => mret (0, Some ("group '" +:+ groupId +:+ "' not found by ID"))
      | Some group =>
          sent ← runWorkers (delWorker groupId) (sched membersIds);
          match errCh_of sent with
          | err :: _ => mret (0, Some err)
          | [] =>
              let toDel := foldl (λ toDel dn, toDel ++ [dn]) [] (ch_of sent) in
              if decide (length toDel = 0%nat) then mret (0, None)
              else
                let newMembers := popDelGroupMembers group toDel in
                err ← updateAttribute (Group_DN group) "member" newMembers;
                match err with
                | Some err => mret (0, Some err)
                | None => mret (Z.of_nat (length toDel), None)
                end
          end
      end
  end.
End Operations.

(** ** [src/unnamed/part_000]: the earlier variant

    [Group], [GroupMember], [MembersDn] and [popAddGroupMembers] are declared
    there word for word as in [src/group.go] and are shared.  The variant's
    own [GetUser] (on a [GetUserRequest]) is not among the sources: the
    lookup [GetUser(&GetUserRequest{Id: userId})] is taken to be the point
    lookup by id of [src/user.go]. *)

(** [generigo.StringInSlice], of a library that is not among the sources. *)
Class Generigo := {
  StringInSlice : string → list string → bool;
}.

Module Legacy.

Record GetGroupequest := {
  Id : string;
  Dn : string;
  Attributes : option (list string);
  SkipMembersSearch : bool;
}.

(** [&GetGroupequest{Id: groupId}] *)
Definition GetGroupequest_byId (groupId : string) : option GetGroupequest :=
  Some {| Id := groupId; Dn := ""; Attributes := None;
          SkipMembersSearch := false |}.

Definition Validate (req : option GetGroupequest) : option error :=
  match req with
  | None => Some (errors_New "nil request")
  | Some req =>
      if decide (Id req = "" ∧ Dn req = "")
      then Some (errors_New "neither of ID of DN provided")
      else None
  end.

Section Operations.
Context `{Runtime} {World : Type} `{!Directory World}.
Variable cl : Client.

Definition getGroupMembers (dn : string)
  : M World (list GroupMember * option error) :=
  let req := {|
    BaseDN := Users_SearchBase (Users (Client_Config cl));
    Req_Scope := ScopeWholeSubtree;
    Req_DerefAliases := NeverDerefAliases;
    TimeLimit := Timeout_Seconds (Client_Config cl);
    Filter := Sprintf (Groups_FilterMembersByDn (Groups (Client_Config cl)))
                      (EscapeFilter dn);
    Req_Attributes := [Users_IdAttribute (Users (Client_Config cl))];
    Req_Controls := [] |} in
  r ← searchEntries req;
  match r with
  | inl err => mret ([], Some err)
  | inr entries =>
      mret (foldl (λ result e,
                     result ++ [{| GroupMember_DN := Entry_DN e;
                                   GroupMember_Id := GetAttributeValue e
                                     (Groups_IdAttribute (Groups (Client_Config cl))) |}])
                  [] entries,
            None)
  end.

(** A nil [r] does not get past [Validate]. *)
Definition GetGroup (r : option GetGroupequest)
  : M World (option Group * option error) :=
  match Validate r, r with
  | Some err, _ => mret (None, Some err)
  | None, None => mret (None, Some (errors_New "nil request"))
  | None, Some r =>
      let filter := Sprintf (Groups_FilterById (Groups (Client_Config cl)))
                            (Id r) in
      let filter :=
        if decide (Dn r ≠ "")
        then Sprintf (Groups_FilterByDn (Groups (Client_Config cl)))
                     (EscapeFilter (Dn r))
        else filter in
      let req := {|
        BaseDN := Groups_SearchBase (Groups (Client_Config cl));
        Req_Scope := ScopeWholeSubtree;
        Req_DerefAliases := NeverDerefAliases;
        TimeLimit := Timeout_Seconds (Client_Config cl);
        Filter := filter;
        Req_Attributes :=
          match Attributes r with
          | Some attrs => attrs
          | None => Groups_Attributes (Groups (Client_Config cl))
          end;
        Req_Controls := [] |} in
      e ← searchEntry req;
      match e with
      | inl err => mret (None, Some err)
      | inr None => mret (None, None)
      | inr (Some entry) =>
          let result := {|
            Group_DN := Entry_DN entry;
            Group_Id := GetAttributeValue entry
                          (Groups_IdAttribute (Groups (Client_Config cl)));
            Group_Attributes := entryAttributes entry;
            Group_Members := [] |} in
          if negb (SkipMembersSearch r) then
            '(members, err) ← getGroupMembers (Entry_DN entry);
            match err with
            | Some err =>
                mret (None, Some ("can't get group members: " +:+ err))
            | None =>
                mret (Some {| Group_DN := Group_DN result;
                              Group_Id := Group_Id result;
                              Group_Attributes := Group_Attributes result;
                              Group_Members := members |}, None)
            end
          else mret (Some result, None)
      end
  end.

(** The goroutine of the variant (part_000, lines 164-177): a failed lookup
    sends nothing. *)
Definition addWorker (groupId userId : string) : M World Sent :=
  '(user, err) ← GetUser cl (GetUserArgs_byId userId);
  match err with
  | Some _ => mret SentNothing
  | None =>
      match user with
      | None => mret SentNothing
      | Some user =>
          if IsGroupMember user groupId then mret SentNothing
          else mret (SentDN (User_DN user))
      end
  end.

Definition AddGroupMembers (sched : Schedule) (groupId : string)
    (membersIds : list string) : M World (Z * option error) :=
  '(group, err) ← GetGroup (GetGroupequest_byId groupId);
  match err with
  | Some err => mret (0, Some ("can't get group: " +:+ err))
  | None =>
      match group with
      | None => mret (0, Some ("group '" +:+ groupId +:+ "' not found by ID"))
      | Some group =>
          sent ← runWorkers (addWorker groupId) (sched membersIds);
          let toAdd := foldl (λ toAdd dn, toAdd ++ [dn]) [] (ch_of sent) in
          if decide (length toAdd = 0%nat) then mret (0, None)
          else
            let newMembers := popAddGroupMembers group toAdd in
            err ← updateAttribute (Group_DN group) "member" newMembers;
            match err with
            | Some err => mret (0, Some err)
            | None => mret (Z.of_nat (length toAdd), None)
            end
      end
  end.
(** The goroutine of the variant's [DeleteGroupMembers] (part_000, lines
    221-234). *)
Definition delWorker (groupId userId : string) : M World Sent :=
  '(user, err) ← GetUser cl (GetUserArgs_byId userId);
  match err with
  | Some _ => mret SentNothing
  | None =>
      match user with
      | None => mret SentNothing
      | Some user =>
          if negb (IsGroupMember user groupId) then mret SentNothing
          else mret (SentDN (User_DN user))
      end
  end.

Context `{Generigo}.

Definition popDelGroupMembers (g : Group) (toDel : list string) : list string :=
  foldl (λ result memberDN,
           if negb (StringInSlice memberDN toDel) then result ++ [memberDN]
           else result)
        [] (MembersDn g).

Definition DeleteGroupMembers (sched : Schedule) (groupId : string)
    (membersIds : list string) : M World (Z * option error) :=
  '(group, err) ← GetGroup (GetGroupequest_byId groupId);
  match err with
  | Some err => mret (0, Some ("can't get group: " +:+ err))
  | None =>
      match group with
      | None => mret (0, Some ("group '" +:+ groupId +:+ "' not found by ID"))
      | Some group =>
          sent ← runWorkers (delWorker groupId) (sched membersIds);
          let toDel := foldl (λ toDel dn, toDel ++ [dn]) [] (ch_of sent) in
          if decide (length toDel = 0%nat) then mret (0, None)
          else
            let newMembers := popDelGroupMembers group toDel in
            err ← updateAttribute (Group_DN group) "member" newMembers;
            match err with
            | Some err => mret (0, Some err)
            | None => mret (Z.of_nat (length toDel), None)
            end
      end
  end.
End Operations.

End Legacy.

(** ** Running an operation, and what a paged conversation is *)

(** [run m w]: [m] started in directory state [w] with an empty log. *)
Definition run {World A : Type} (m : M World A) (w : World) : A * State World :=
  m (mkState w []).

Definition result_of {World A : Type} (m : M World A) (w : World) : A :=
  (run m w).1.

(** How a response is read for continuation.  [verdict] is the reading of
    the paging loop: only the first control is looked at, and a control
    list that is non-nil and empty has no first control. *)
Inductive Verdict :=
| Last
| More (cookie : list byte)
| Broken.

Definition verdict (sr : SearchResult) : Verdict :=
  match Res_Controls sr with
  | None => Last
  | Some [] => Broken
  | Some (ControlPaging _ cookie :: _) =>
      match cookie with [] => Last | _ => More cookie end
  | Some (ControlOther _ :: _) => Last
  end.

(** The reading in the words of the specification (section 4.2): "stop
    when the response carries no paging control, or the control is present
    but its returned cookie is empty". *)
Fixpoint findPagingCookie (controls : list Control) : option (list byte) :=
  match controls with
  | [] => None
  | ControlPaging _ cookie :: _ => Some cookie
  | ControlOther _ :: rest => findPagingCookie rest
  end.

Definition verdict_as_specified (sr : SearchResult) : Verdict :=
  match findPagingCookie (default [] (Res_Controls sr)) with
  | None => Last
  | Some [] => Last
  | Some cookie => More cookie
  end.

(** [Conversation read req size w cookie pages w']: asked [req] page by
    page, starting with [cookie] in state [w], the server answers with
    [pages] (each request carrying the cookie of the previous answer) and
    the last answer is the first that [read]s as [Last]. *)
Inductive Conversation `{!Directory World} (read : SearchResult → Verdict)
    (req : SearchRequest) (size : Z)
  : World → list byte → list (list Entry) → World → Prop :=
| Conversation_last w cookie sr w' :
    dir_Search (withControls req [ControlPaging size cookie]) w = (inr sr, w') →
    read sr = Last →
    Conversation read req size w cookie [Entries sr] w'
| Conversation_more w cookie sr w1 cookie' pages w' :
    dir_Search (withControls req [ControlPaging size cookie]) w = (inr sr, w1) →
    read sr = More cookie' →
    Conversation read req size w1 cookie' pages w' →
    Conversation read req size w cookie (Entries sr :: pages) w'.

(** The user record [ListUsers] builds for an entry. *)
Definition entryToUser (cl : Client) (entry : Entry) : User :=
  {| User_DN := Entry_DN entry;
     User_Id := GetAttributeValue entry (Users_IdAttribute (Users (Client_Config cl)));
     User_Attributes := entryAttributes entry;
     User_Groups := [] |}.

(** The group record [ListGroups] builds for an entry. *)
Definition entryToListedGroup (cl : Client) (entry : Entry) : Group :=
  {| Group_DN := Entry_DN entry;
     Group_Id := GetAttributeValue entry (Users_IdAttribute (Users (Client_Config cl)));
     Group_Attributes := entryAttributes entry;
     Group_Members := [] |}.

(** [nilIfEmpty]: a slice that was only appended to, returned through the
    [entries == nil] test of [ListUsers] and [ListGroups]. *)
Definition nilIfEmpty {A : Type} (l : list A) : option (list A) :=
  match l with [] => None | _ => Some l end.

(** ** A small directory to run the operations on

    The entries are those of the fixture of [src/mock.go] that the
    membership tests use; unlike that fixture, this directory keeps the
    member attribute of [group2] and answers the relation searches from
    it.  Paged answers are looked up by the cookie of the request. *)

Module Fixture.

(** One [%s] verb, replaced by the operand. *)
Fixpoint fx_Sprintf (format operand : string) : string :=
  match format with
  | EmptyString => EmptyString
  | String "%"%char (String "s"%char rest) => operand +:+ rest
  | String c rest => String c (fx_Sprintf rest operand)
  end.

Fixpoint fx_EscapeFilter (filter : string) : string :=
  match filter with
  | EmptyString => EmptyString
  | String "("%char rest => "\28" +:+ fx_EscapeFilter rest
  | String ")"%char rest => "\29" +:+ fx_EscapeFilter rest
  | String "*"%char rest => "\2a" +:+ fx_EscapeFilter rest
  | String "\"%char rest => "\5c" +:+ fx_EscapeFilter rest
  | String c rest => String c (fx_EscapeFilter rest)
  end.

Global Instance fx_runtime : Runtime :=
  {| Sprintf := fx_Sprintf; EscapeFilter := fx_EscapeFilter |}.

Definition fx_config : Config :=
  {| Timeout_Seconds := 10;
     Users := {|
       Users_SearchBase := "DC=company,DC=com";
       Users_FilterById := "(&(objectClass=person)(sAMAccountName=%s))";
       Users_FilterByDn := "(&(objectClass=person)(distinguishedName=%s))";
       Users_FilterGroupsByDn := "(&(objectClass=group)(member=%s))";
       Users_FilterByPerson := "(objectClass=person)";
       Users_IdAttribute := "sAMAccountName";
       Users_Attributes := ["sAMAccountName"] |};
     Groups := {|
       Groups_SearchBase := "DC=company,DC=com";
       Groups_FilterById := "(&(objectClass=group)(sAMAccountName=%s))";
       Groups_FilterByDn := "(&(objectClass=group)(distinguishedName=%s))";
       Groups_FilterMembersByDn := "(&(objectCategory=person)(memberOf=%s))";
       Groups_FilterByGroup := "(objectClass=group)";
       Groups_IdAttribute := "sAMAccountName";
       Groups_Attributes := ["sAMAccountName"] |} |}.

Definition fx_client : Client := {| Client_Config := fx_config |}.

(** A configuration whose groups are identified by [cn]. *)
Definition fx_client_cn : Client :=
  {| Client_Config := {|
       Timeout_Seconds := 10;
       Users := Users fx_config;
       Groups := {|
         Groups_SearchBase := "DC=company,DC=com";
         Groups_FilterById := "(&(objectClass=group)(cn=%s))";
         Groups_FilterByDn := "(&(objectClass=group)(distinguishedName=%s))";
         Groups_FilterMembersByDn := "(&(objectCategory=person)(memberOf=%s))";
         Groups_FilterByGroup := "(objectClass=group)";
         Groups_IdAttribute := "cn";
         Groups_Attributes := ["cn"] |} |} |}.

Definition fx_dn (id : string) : string := "OU=" +:+ id +:+ ",DC=company,DC=com".

Definition fx_entry (id : string) : Entry :=
  {| Entry_DN := fx_dn id;
     Entry_Attributes := [{| Name := "sAMAccountName"; Values := [id] |}] |}.

Definition fx_users : list string := ["user1"; "user2"; "userToAdd"].

Record FxWorld := {
  fx_members : list string;
  fx_pages : list (list byte * SearchResult);
}.

Definition fx_isMember (w : FxWorld) (id : string) : bool :=
  slices_Contains (fx_members w) (fx_dn id).

Definition fx_personById (id : string) : string :=
  "(&(objectClass=person)(sAMAccountName=" +:+ id +:+ "))".

Definition fx_searchEntry (req : SearchRequest) (w : FxWorld)
  : error + option Entry :=
  if decide (Filter req = fx_personById "entryForErr") then inl "error for tests"
  else if decide (Filter req = "(&(objectClass=group)(sAMAccountName=group2))")
  then inr (Some (fx_entry "group2"))
  else if decide (Filter req = "(&(objectClass=group)(cn=admins))")
  then inr (Some {| Entry_DN := "CN=admins,DC=company,DC=com";
                    Entry_Attributes := [{| Name := "cn"; Values := ["admins"] |}] |})
  else
    inr (fx_entry <$>
           head (filter (λ id, Filter req = fx_personById id) fx_users)).

Definition fx_searchEntries (req : SearchRequest) (w : FxWorld)
  : error + list Entry :=
  if decide (Filter req
             = "(&(objectCategory=person)(memberOf=" +:+ fx_dn "group2" +:+ "))")
  then inr (fx_entry <$> filter (λ id, fx_isMember w id = true) fx_users)
  else
    inr (if existsb (λ id, bool_decide
                             (Filter req = "(&(objectClass=group)(member="
                                           +:+ fx_dn id +:+ "))")
                           && fx_isMember w id)
                    fx_users
         then [fx_entry "group2"] else []).

Definition fx_updateAttribute (dn attr : string) (vals : list string)
    (w : FxWorld) : option error * FxWorld :=
  if decide (dn = fx_dn "group2" ∧ attr = "member")
  then (None, {| fx_members := vals; fx_pages := fx_pages w |})
  else (Some "entry not found", w).

Fixpoint fx_page (cookie : list byte) (pages : list (list byte * SearchResult))
  : option SearchResult :=
  match pages with
  | [] => None
  | (c, sr) :: rest =>
      if decide (c = cookie) then Some sr else fx_page cookie rest
  end.

Definition fx_Search (req : SearchRequest) (w : FxWorld)
  : (error + SearchResult) * FxWorld :=
  match Req_Controls req with
  | ControlPaging _ cookie :: _ =>
      match fx_page cookie (fx_pages w) with
      | Some sr => (inr sr, w)
      | None => (inl "unknown cookie", w)
      end
  | _ => (inl "no paging control", w)
  end.

Global Instance fx_directory : Directory FxWorld :=
  {| dir_Search := fx_Search;
     dir_searchEntry := fx_searchEntry;
     dir_searchEntries := fx_searchEntries;
     dir_updateAttribute := fx_updateAttribute |}.

(** [group2] with [user2] as its one member; no paged answers. *)
Definition fx_world : FxWorld :=
  {| fx_members := [fx_dn "user2"]; fx_pages := [] |}.

(** Three users over two pages. *)
Definition fx_paged : FxWorld :=
  {| fx_members := [];
     fx_pages := [
       ([], {| Entries := [fx_entry "user1"];
               Res_Controls := Some [ControlPaging 0 [x01]] |});
       ([x01], {| Entries := [fx_entry "user2"; fx_entry "userToAdd"];
                  Res_Controls := Some [ControlPaging 0 []] |}) ] |}.

(** The same two pages, the first answer carrying another control ahead of
    its paging control. *)
Definition fx_paged_second : FxWorld :=
  {| fx_members := [];
     fx_pages := [
       ([], {| Entries := [fx_entry "user1"];
               Res_Controls := Some [ControlOther "1.2.840.113556.1.4.474";
                                     ControlPaging 0 [x01]] |});
       ([x01], {| Entries := [fx_entry "user2"; fx_entry "userToAdd"];
                  Res_Controls := Some [ControlPaging 0 []] |}) ] |}.

(** One page without entries. *)
Definition fx_paged_empty : FxWorld :=
  {| fx_members := [];
     fx_pages := [ ([], {| Entries := []; Res_Controls := None |}) ] |}.

(** One page whose control list is non-nil and empty. *)
Definition fx_paged_no_controls : FxWorld :=
  {| fx_members := [];
     fx_pages := [ ([], {| Entries := [fx_entry "user1"];
                           Res_Controls := Some [] |}) ] |}.

(** One page with a group that has a [cn] and no [sAMAccountName]. *)
Definition fx_admins : Entry :=
  {| Entry_DN := "CN=admins,DC=company,DC=com";
     Entry_Attributes := [{| Name := "cn"; Values := ["admins"] |}] |}.

Definition fx_paged_groups : FxWorld :=
  {| fx_members := [];
     fx_pages := [ ([], {| Entries := [fx_admins]; Res_Controls := None |}) ] |}.

End Fixture.

(** ** Notions the statements use *)

(** A computation that only reads: started in any state it leaves the
    directory as it is, adds to the log the calls it makes in that
    directory state, none of them a write, and returns what it returns
    there. *)
Definition Reads {World A : Type} (m : M World A) : Prop :=
  ∀ st, m st = ((run m (world st)).1,
                mkState (world st) (calls st ++ calls (run m (world st)).2))
        ∧ writes (calls (run m (world st)).2) = [].

(** The lookups of a membership batch, in directory state [w]. *)
Definition lookupUser `{Runtime} `{!Directory World} (cl : Client)
    (userId : string) (w : World) : option User * option error :=
  result_of (GetUser cl (GetUserArgs_byId userId)) w.

Definition lookupGroup `{Runtime} `{!Directory World} (cl : Client)
    (groupId : string) (w : World) : option Group * option error :=
  result_of (GetGroup cl (GetGroupArgs_byId groupId)) w.

(** The error a worker sends for a failed lookup. *)
Definition accountError (userId : string) (err : error) : error :=
  "can't get account '" +:+ userId +:+ "': " +:+ err.

(** The DN a worker of [AddGroupMembers] (of [DeleteGroupMembers]) sends for
    an identifier, if it sends one. *)
Definition toAddOf `{Runtime} `{!Directory World} (cl : Client)
    (groupId : string) (w : World) (userId : string) : option string :=
  match result_of (addWorker cl groupId userId) w with
  | SentDN dn => Some dn
  | _ => None
  end.

Definition toDelOf `{Runtime} `{!Directory World} (cl : Client)
    (groupId : string) (w : World) (userId : string) : option string :=
  match result_of (delWorker cl groupId userId) w with
  | SentDN dn => Some dn
  | _ => None
  end.

(** An identifier that does not qualify: for an addition it resolves to no
    record or to a user who is already a member of the group, for a removal
    to no record or to a user who is not a member. *)
Definition notToAdd `{Runtime} `{!Directory World} (cl : Client)
    (groupId : string) (w : World) (userId : string) : Prop :=
  lookupUser cl userId w = (None, None)
  ∨ ∃ user, lookupUser cl userId w = (Some user, None)
            ∧ IsGroupMember user groupId = true.

Definition notToDelete `{Runtime} `{!Directory World} (cl : Client)
    (groupId : string) (w : World) (userId : string) : Prop :=
  lookupUser cl userId w = (None, None)
  ∨ ∃ user, lookupUser cl userId w = (Some user, None)
            ∧ IsGroupMember user groupId = false.

(** ** More of the sources *)

(** [GetStringAttribute] of [User] (user.go, lines 26-35) and of [Group]
    (group.go, lines 28-37), the same statement for statement.  The
    attribute map holds values of any type ([interface{}]); [GoOther] is a
    value that is not a string.  Go ranges over a map in an order of its
    own choosing: [iteration] is the map's content in that order. *)
Inductive GoValue :=
| GoString (s : string)
| GoOther.

Fixpoint GetStringAttribute (iteration : list (string * GoValue)) (name : string)
  : string :=
  match iteration with
  | [] => ""
  | (att, val) :: rest =>
      if decide (att = name) then
        match val with
        | GoString s => s
        | GoOther => GetStringAttribute rest name
        end
      else GetStringAttribute rest name
  end.

(** The requests of the relation searches, as [getUserGroups] (user.go,
    lines 209-216) and [getGroupMembers] (group.go, lines 198-205) build
    them. *)
Definition getUserGroups_request `{Runtime} (cl : Client) (dn : string)
  : SearchRequest :=
  {| BaseDN := Groups_SearchBase (Groups (Client_Config cl));
     Req_Scope := ScopeWholeSubtree;
     Req_DerefAliases := NeverDerefAliases;
     TimeLimit := Timeout_Seconds (Client_Config cl);
     Filter := Sprintf (Users_FilterGroupsByDn (Users (Client_Config cl)))
                       (EscapeFilter dn);
     Req_Attributes := [Groups_IdAttribute (Groups (Client_Config cl))];
     Req_Controls := [] |}.

Definition getGroupMembers_request `{Runtime} (cl : Client) (dn : string)
  : SearchRequest :=
  {| BaseDN := Users_SearchBase (Users (Client_Config cl));
     Req_Scope := ScopeWholeSubtree;
     Req_DerefAliases := NeverDerefAliases;
     TimeLimit := Timeout_Seconds (Client_Config cl);
     Filter := Sprintf (Groups_FilterMembersByDn (Groups (Client_Config cl)))
                       (EscapeFilter dn);
     Req_Attributes := [Users_IdAttribute (Users (Client_Config cl))];
     Req_Controls := [] |}.

(** A paged conversation that does not come to a last page: after [n]
    requests, each carrying the cookie of the previous answer, the server
    fails, or answers with a control list that is non-nil and empty. *)
Inductive PagingEnd :=
| EndsInError (err : error)
| EndsBroken.

Inductive Aborted `{!Directory World} (req : SearchRequest) (size : Z)
  : World → list byte → PagingEnd → nat → World → Prop :=
| Aborted_error w cookie err w' :
    dir_Search (withControls req [ControlPaging size cookie]) w = (inl err, w') →
    Aborted req size w cookie (EndsInError err) 1 w'
| Aborted_broken w cookie sr w' :
    dir_Search (withControls req [ControlPaging size cookie]) w = (inr sr, w') →
    verdict sr = Broken →
    Aborted req size w cookie EndsBroken 1 w'
| Aborted_more w cookie sr w1 cookie' how n w' :
    dir_Search (withControls req [ControlPaging size cookie]) w = (inr sr, w1) →
    verdict sr = More cookie' →
    Aborted req size w1 cookie' how n w' →
    Aborted req size w cookie how (S n) w'.

(** More of the small directory: membership of a slice decided by
    comparison, and paged answers that do not come to a last page. *)
Global Instance fx_generigo : Generigo :=
  {| StringInSlice := λ s slice, bool_decide (s ∈ slice) |}.

(** The second request finds no answer. *)
Definition fx_paged_lost : Fixture.FxWorld :=
  {| Fixture.fx_members := [];
     Fixture.fx_pages := [
       ([], {| Entries := [Fixture.fx_entry "user1"];
               Res_Controls := Some [ControlPaging 0 [x01]] |}) ] |}.

(** The second answer has a control list that is non-nil and empty. *)
Definition fx_paged_broken : Fixture.FxWorld :=
  {| Fixture.fx_members := [];
     Fixture.fx_pages := [
       ([], {| Entries := [Fixture.fx_entry "user1"];
               Res_Controls := Some [ControlPaging 0 [x01]] |});
       ([x01], {| Entries := [Fixture.fx_entry "user2"];
                  Res_Controls := Some [] |}) ] |}.

(** Every answer carries the cookie [x01]. *)
Definition fx_paged_forever : Fixture.FxWorld :=
  {| Fixture.fx_members := [];
     Fixture.fx_pages := [
       ([], {| Entries := [Fixture.fx_entry "user1"];
               Res_Controls := Some [ControlPaging 0 [x01]] |});
       ([x01], {| Entries := [Fixture.fx_entry "user2"];
                  Res_Controls := Some [ControlPaging 0 [x01]] |}) ] |}.

(** A directory whose two relation searches need not agree: the members
    search answers from [loose_member], the groups search from
    [loose_memberOf], and a write replaces [loose_member] only. *)
Record FxLoose := {
  loose_member : list string;
  loose_memberOf : list string;
}.

Definition fx_loose_view (w : FxLoose) (memberOf : bool) : Fixture.FxWorld :=
  {| Fixture.fx_members := if memberOf then loose_memberOf w else loose_member w;
     Fixture.fx_pages := [] |}.

Definition fx_loose_searchEntries (req : SearchRequest) (w : FxLoose)
  : error + list Entry :=
  if decide (Filter req
             = "(&(objectCategory=person)(memberOf="
               +:+ Fixture.fx_dn "group2" +:+ "))")
  then Fixture.fx_searchEntries req (fx_loose_view w false)
  else Fixture.fx_searchEntries req (fx_loose_view w true).

Definition fx_loose_updateAttribute (dn attr : string) (vals : list string)
    (w : FxLoose) : option error * FxLoose :=
  if decide (dn = Fixture.fx_dn "group2" ∧ attr = "member")
  then (None, {| loose_member := vals; loose_memberOf := loose_memberOf w |})
  else (Some "entry not found", w).

Global Instance fx_loose_directory : Directory FxLoose :=
  {| dir_Search := λ req w, (inl "no paging control", w);
     dir_searchEntry := λ req w, Fixture.fx_searchEntry req (fx_loose_view w false);
     dir_searchEntries := fx_loose_searchEntries;
     dir_updateAttribute := fx_loose_updateAttribute |}.

(** [userToAdd] is listed by the members search of [group2], which its own
    groups search does not list (as in the fixture of [src/mock.go]);
    [user1] is not listed by the members search, and its groups search
    lists [group2]. *)
Definition fx_loose : FxLoose :=
  {| loose_member := [Fixture.fx_dn "user2"; Fixture.fx_dn "userToAdd"];
     loose_memberOf := [Fixture.fx_dn "user2"; Fixture.fx_dn "user1"] |}.

(** A directory that accepts a write and records nothing, as the [Modify]
    of [src/mock.go] (lines 234-243) does: its searches answer after a
    write as they did before. *)
Record FxQuiet := {
  quiet_view : Fixture.FxWorld;
}.

Definition fx_quiet_updateAttribute (dn attr : string) (vals : list string)
    (w : FxQuiet) : option error * FxQuiet :=
  if decide (dn = Fixture.fx_dn "group2" ∧ attr = "member")
  then (None, w)
  else (Some "entry not found", w).

Global Instance fx_quiet_directory : Directory FxQuiet :=
  {| dir_Search := λ req w, (inl "no paging control", w);
     dir_searchEntry := λ req w, Fixture.fx_searchEntry req (quiet_view w);
     dir_searchEntries := λ req w, Fixture.fx_searchEntries req (quiet_view w);
     dir_updateAttribute := fx_quiet_updateAttribute |}.

(** [group2] with [user2] as its one member. *)
Definition fx_quiet : FxQuiet := {| quiet_view := Fixture.fx_world |}.

(** Entries can be compared. *)
Global Instance EntryAttribute_eq_dec : EqDecision EntryAttribute :=
  ltac:(solve_decision).
Global Instance Entry_eq_dec : EqDecision Entry := ltac:(solve_decision).

(** ** [src/mock.go]: the in-memory directory of the tests

    The entries are kept in a Go map, which is ranged over in an order of
    the runtime's choosing: the functions that range over it take the
    map's content in that order, [iteration]. *)

Module Mock.

Definition mockFiltersAttribute : string := "filtersToFind".

Record mockClient := {
  entries : gmap string Entry;
}.

(** The table of [mockConnection]. *)
Definition mockConnection : mockClient :=
  {| entries := list_to_map [
    ("user1",
     {| Entry_DN := "OU=user1,DC=company,DC=com";
        Entry_Attributes := [
          {| Name := "sAMAccountName"; Values := ["user1"] |};
          {| Name := mockFiltersAttribute; Values := [
          "(&(objectClass=person)(sAMAccountName=user1))";
          "(&(objectClass=person)(distinguishedName=OU=user1,DC=company,DC=com))";
          "(&(objectCategory=person)(memberOf=OU=group1,DC=company,DC=com))";
          "customFilterToSearchUser"] |} ] |});
    ("user2",
     {| Entry_DN := "OU=user2,DC=company,DC=com";
        Entry_Attributes := [
          {| Name := "sAMAccountName"; Values := ["user2"] |};
          {| Name := mockFiltersAttribute; Values := [
          "(&(objectClass=person)(sAMAccountName=user2))";
          "(&(objectClass=person)(distinguishedName=OU=user2,DC=company,DC=com))";
          "(&(objectCategory=person)(memberOf=OU=group2,DC=company,DC=com))"] |} ] |});
    ("userToAdd",
     {| Entry_DN := "OU=userToAdd,DC=company,DC=com";
        Entry_Attributes := [
          {| Name := "sAMAccountName"; Values := ["userToAdd"] |};
          {| Name := mockFiltersAttribute; Values := [
          "(&(objectClass=person)(sAMAccountName=userToAdd))";
          "(&(objectClass=person)(distinguishedName=OU=userToAdd,DC=company,DC=com))";
          "(&(objectCategory=person)(memberOf=OU=group2,DC=company,DC=com))"] |} ] |});
    ("group1",
     {| Entry_DN := "OU=group1,DC=company,DC=com";
        Entry_Attributes := [
          {| Name := "sAMAccountName"; Values := ["group1"] |};
          {| Name := mockFiltersAttribute; Values := [
          "(&(objectClass=group)(sAMAccountName=group1))";
          "(&(objectClass=group)(distinguishedName=OU=group1,DC=company,DC=com))";
          "(&(objectClass=group)(member=OU=user1,DC=company,DC=com))";
          "customFilterToSearchGroup"] |} ] |});
    ("group2",
     {| Entry_DN := "OU=group2,DC=company,DC=com";
        Entry_Attributes := [
          {| Name := "sAMAccountName"; Values := ["group2"] |};
          {| Name := mockFiltersAttribute; Values := [
          "(&(objectClass=group)(sAMAccountName=group2))";
          "(&(objectClass=group)(distinguishedName=OU=group2,DC=company,DC=com))";
          "(&(objectClass=group)(member=OU=user2,DC=company,DC=com))"] |} ] |});
    ("entryForErr",
     {| Entry_DN := "OU=entryForErr,DC=company,DC=com";
        Entry_Attributes := [
          {| Name := "sAMAccountName"; Values := ["entryForErr"] |};
          {| Name := mockFiltersAttribute; Values := [
          "(&(objectClass=person)(sAMAccountName=entryForErr))";
          "(&(objectClass=person)(distinguishedName=OU=entryForErr,DC=company,DC=com))";
          "(&(objectClass=group)(sAMAccountName=entryForErr))";
          "(&(objectClass=group)(distinguishedName=OU=entryForErr,DC=company,DC=com))";
          "(&(objectCategory=person)(memberOf=OU=groupWithErrMember,DC=company,DC=com))"] |} ] |});
    ("groupWithErrMember",
     {| Entry_DN := "OU=groupWithErrMember,DC=company,DC=com";
        Entry_Attributes := [
          {| Name := "sAMAccountName"; Values := ["groupWithErrMember"] |};
          {| Name := mockFiltersAttribute; Values := [
          "(&(objectClass=group)(sAMAccountName=groupWithErrMember))";
          "(&(objectClass=group)(distinguishedName=OU=groupWithErrMember,DC=company,DC=com))";
          "(&(objectClass=group)(member=OU=entryForErr,DC=company,DC=com))"] |} ] |});
    ("userToReconnect",
     {| Entry_DN := "OU=userToReconnect,DC=company,DC=com";
        Entry_Attributes := [
          {| Name := "sAMAccountName"; Values := ["userToReconnect"] |};
          {| Name := mockFiltersAttribute; Values := [
          "(&(objectClass=person)(sAMAccountName=userToReconnect))";
          "(&(objectClass=person)(distinguishedName=OU=userToReconnect,DC=company,DC=com))"] |} ] |});
    ("notUniq1",
     {| Entry_DN := "OU=notUniq,DC=company,DC=com";
        Entry_Attributes := [
          {| Name := "sAMAccountName"; Values := ["notUniq"] |};
          {| Name := mockFiltersAttribute; Values := [
          "(&(objectClass=person)(sAMAccountName=notUniq))";
          "(&(objectClass=person)(distinguishedName=OU=notUniq,DC=company,DC=com))";
          "(&(objectClass=group)(sAMAccountName=notUniq))";
          "(&(objectClass=group)(distinguishedName=OU=notUniq,DC=company,DC=com))"] |} ] |});
    ("notUniq2",
     {| Entry_DN := "OU=notUniq,DC=company,DC=com";
        Entry_Attributes := [
          {| Name := "sAMAccountName"; Values := ["notUniq"] |};
          {| Name := mockFiltersAttribute; Values := [
          "(&(objectClass=person)(sAMAccountName=notUniq))";
          "(&(objectClass=person)(distinguishedName=OU=notUniq,DC=company,DC=com))";
          "(&(objectClass=group)(sAMAccountName=notUniq))";
          "(&(objectClass=group)(distinguishedName=OU=notUniq,DC=company,DC=com))"] |} ] |}) ] |}.

Fixpoint getEntryByDn (iteration : list (string * Entry)) (dn : string)
  : option Entry :=
  match iteration with
  | [] => None
  | (_, entry) :: rest =>
      if decide (Entry_DN entry = dn) then Some entry
      else getEntryByDn rest dn
  end.

Definition validMockBind : string * string := ("validUser", "validPass").

Definition Bind (username password : string) : option error :=
  if decide (username = validMockBind.1 ∧ password = validMockBind.2) then None
  else Some (errors_New "unauthorised").

Section Behaviour.
(** [ldap.NewError(200, errors.New("connection error"))], an error of
    go-ldap. *)
Variable connectionError : error.

Fixpoint getEntriesByFilter_range (iteration : list (string * Entry))
    (filter : string) (result : list Entry) : list Entry * option error :=
  match iteration with
  | [] => (result, None)
  | (id, entry) :: rest =>
      let filters :=
        GetAttributeValues (Entry_Attributes entry) mockFiltersAttribute in
      if slices_Contains filters filter then
        if decide (id = "entryForErr") then ([], Some (errors_New "error for tests"))
        else if decide (id = "userToReconnect") then ([], Some connectionError)
        else getEntriesByFilter_range rest filter (result ++ [entry])
      else getEntriesByFilter_range rest filter result
  end.

Definition getEntriesByFilter (iteration : list (string * Entry)) (filter : string)
  : list Entry * option error :=
  getEntriesByFilter_range iteration filter [].

(** [Search] answers with [&ldap.SearchResult{Entries: entries}]: the
    control list is nil. *)
Definition Search (iteration : list (string * Entry)) (req : SearchRequest)
  : option SearchResult * option error :=
  match getEntriesByFilter iteration (Filter req) with
  | (_, Some err) => (None, Some err)
  | (found, None) => (Some {| Entries := found; Res_Controls := None |}, None)
  end.

(** [Modify] of a request for [dn].  [cl.entries["entryForErr"]] is nil
    when the map has no such key, and its [DN] is then a nil dereference. *)
Definition Modify (cl : mockClient) (iteration : list (string * Entry))
    (dn : string) : Exec (option error) :=
  match getEntryByDn iteration dn with
  | None => Returns (Some (errors_New "entry not found"))
  | Some entry =>
      match entries cl !! "entryForErr" with
      | None => Panics "invalid memory address or nil pointer dereference"
      | Some entryForErr =>
          if decide (Entry_DN entry = Entry_DN entryForErr)
          then Returns (Some (errors_New "error for tests"))
          else Returns None
      end
  end.
End Behaviour.

(** Whether an entry answers to a filter. *)
Definition answers (filter : string) (entry : Entry) : Prop :=
  filter ∈ GetAttributeValues (Entry_Attributes entry) mockFiltersAttribute.

Global Instance answers_dec (filter : string) (entry : Entry)
  : Decision (answers filter entry) := ltac:(unfold answers; apply _).

End Mock.

(** A configuration that looks groups up with the users' template, so
    that the small directory fails the lookup of the group [entryForErr]. *)
Definition fx_client_err : Client :=
  {| Client_Config := {|
       Timeout_Seconds := 10;
       Users := Users Fixture.fx_config;
       Groups := {|
         Groups_SearchBase := "DC=company,DC=com";
         Groups_FilterById := "(&(objectClass=person)(sAMAccountName=%s))";
         Groups_FilterByDn := "(&(objectClass=group)(distinguishedName=%s))";
         Groups_FilterMembersByDn := "(&(objectCategory=person)(memberOf=%s))";
         Groups_FilterByGroup := "(objectClass=group)";
         Groups_IdAttribute := "sAMAccountName";
         Groups_Attributes := ["sAMAccountName"] |} |} |}.

(** * Properties *)

(** ** Lists built by [append] loops *)

Lemma foldl_snoc {A B : Type} (f : A → B) (l : list A) (acc : list B) :
  foldl (λ result x, result ++ [f x]) acc l = acc ++ map f l.
Proof.
  revert acc. induction l as [|x l IH]; intros acc; simpl.
  - by rewrite app_nil_r.
  - rewrite IH. by rewrite <- app_assoc.
Qed.

Lemma foldl_snoc_id {A : Type} (l acc : list A) :
  foldl (λ result x, result ++ [x]) acc l = acc ++ l.
Proof. rewrite (foldl_snoc id). by rewrite map_id. Qed.

Lemma MembersDn_map (g : Group) :
  MembersDn g = map GroupMember_DN (Group_Members g).
Proof. unfold MembersDn. by rewrite foldl_snoc. Qed.

Lemma slices_Contains_spec (s : list string) (v : string) :
  slices_Contains s v = true ↔ v ∈ s.
Proof.
  unfold slices_Contains. rewrite existsb_exists. split.
  - intros (x & Hx & Heq). apply bool_decide_eq_true in Heq. subst.
    by apply list_elem_of_In.
  - intros Hin. exists v. split; [by apply list_elem_of_In|].
    by apply bool_decide_eq_true.
Qed.

Lemma popDel_loop (toDel members acc : list string) :
  foldl (λ result memberDN,
           if negb (slices_Contains toDel memberDN) then result ++ [memberDN]
           else result) acc members
  = acc ++ filter (λ dn, dn ∉ toDel) members.
Proof.
  revert acc. induction members as [|dn members IH]; intros acc; simpl.
  - by rewrite app_nil_r.
  - rewrite IH. destruct (slices_Contains toDel dn) eqn:Hc; simpl.
    + apply slices_Contains_spec in Hc. by rewrite filter_cons_False by tauto.
    + assert (dn ∉ toDel) as Hn.
      { intros Hin. apply slices_Contains_spec in Hin. congruence. }
      rewrite filter_cons_True by done. by rewrite <- app_assoc.
Qed.

(** C4. The list written by a batch: for an addition, the group's member DNs
    in their order followed by the newly resolved DNs in theirs; for a
    removal, the group's member DNs in their order without those matched
    for removal, that is, a DN is kept exactly when it is a member DN that
    was not matched, and the kept DNs are a subsequence of the member
    DNs. *)
Theorem new_member_list (g : Group) (dns : list string) :
  popAddGroupMembers g dns = map GroupMember_DN (Group_Members g) ++ dns
  ∧ popDelGroupMembers g dns
    = filter (λ dn, dn ∉ dns) (map GroupMember_DN (Group_Members g))
  ∧ popDelGroupMembers g dns `sublist_of` map GroupMember_DN (Group_Members g)
  ∧ ∀ dn, dn ∈ popDelGroupMembers g dns
          ↔ dn ∈ map GroupMember_DN (Group_Members g) ∧ dn ∉ dns.
Proof.
  assert (popDelGroupMembers g dns
          = filter (λ dn, dn ∉ dns) (map GroupMember_DN (Group_Members g))) as Hdel.
  { unfold popDelGroupMembers. rewrite popDel_loop, MembersDn_map. done. }
  split; [|split; [done|split]].
  - unfold popAddGroupMembers. rewrite MembersDn_map.
    case_decide as Hlen; [|done].
    apply length_zero_iff_nil in Hlen. subst. by rewrite app_nil_r.
  - rewrite Hdel. apply sublist_filter.
  - intros dn. rewrite Hdel, list_elem_of_filter. tauto.
Qed.

(** ** Computations that only read *)

Section Reading.
Context `{Runtime} {World : Type} `{!Directory World}.

Lemma writes_app (l1 l2 : list Call) : writes (l1 ++ l2) = writes l1 ++ writes l2.
Proof. unfold writes. apply filter_app. Qed.

Lemma Reads_run {A} (m : M World A) (w : World) :
  Reads m →
  run m w = (result_of m w, mkState w (calls (run m w).2))
  ∧ writes (calls (run m w).2) = [].
Proof.
  intros Hm. destruct (Hm (mkState w [])) as [Heq Hw]. simpl in *.
  split; [|done]. unfold result_of. exact Heq.
Qed.

Lemma Reads_at {A} (m : M World A) (st : State World) :
  Reads m →
  m st = (result_of m (world st),
          mkState (world st) (calls st ++ calls (run m (world st)).2)).
Proof. intros Hm. by destruct (Hm st) as [Heq _]. Qed.

Lemma Reads_ret {A} (a : A) : Reads (mret a : M World A).
Proof. intros [w l]. unfold run, mret, M_ret. simpl. by rewrite app_nil_r. Qed.

Lemma bind_at {A B} (m : M World A) (f : A → M World B) (st : State World) :
  Reads m →
  (m ≫= f) st
  = f (result_of m (world st))
      (mkState (world st) (calls st ++ calls (run m (world st)).2)).
Proof. intros Hm. unfold mbind, M_bind. by rewrite (Reads_at m st Hm). Qed.

Lemma Reads_bind {A B} (m : M World A) (f : A → M World B) :
  Reads m → (∀ a, Reads (f a)) → Reads (m ≫= f).
Proof.
  intros Hm Hf st.
  assert (∀ st', (m ≫= f) st'
     = (result_of (f (result_of m (world st'))) (world st'),
        mkState (world st')
          (calls st' ++ calls (run m (world st')).2
           ++ calls (run (f (result_of m (world st'))) (world st')).2))) as Hgen.
  { intros st'. rewrite (bind_at m f st' Hm).
    rewrite (Reads_at _ _ (Hf _)). simpl. by rewrite <- app_assoc. }
  unfold run at 1 2 3. rewrite !Hgen. simpl. split; [done|].
  rewrite writes_app.
  destruct (Reads_run m (world st) Hm) as [_ ->].
  destruct (Reads_run (f (result_of m (world st))) (world st) (Hf _)) as [_ ->].
  done.
Qed.

Lemma result_of_bind {A B} (m : M World A) (f : A → M World B) (w : World) :
  Reads m → (∀ a, Reads (f a)) →
  result_of (m ≫= f) w = result_of (f (result_of m w)) w.
Proof.
  intros Hm Hf. unfold result_of at 1. unfold run.
  rewrite (bind_at m f _ Hm). by rewrite (Reads_at _ _ (Hf _)).
Qed.

Lemma Reads_searchEntry (req : SearchRequest) : Reads (searchEntry req).
Proof. by intros [w l]. Qed.

Lemma Reads_searchEntries (req : SearchRequest) : Reads (searchEntries req).
Proof. by intros [w l]. Qed.

Variable cl : Client.

Lemma Reads_getUserGroups (dn : string) : Reads (getUserGroups cl dn).
Proof.
  apply Reads_bind; [apply Reads_searchEntries|].
  intros [err|entries]; apply Reads_ret.
Qed.

Lemma Reads_getGroupMembers (dn : string) : Reads (getGroupMembers cl dn).
Proof.
  apply Reads_bind; [apply Reads_searchEntries|].
  intros [err|entries]; apply Reads_ret.
Qed.

Lemma Reads_GetUser (args : GetUserArgs) : Reads (GetUser cl args).
Proof.
  unfold GetUser. destruct (GetUserArgs_Validate args); [apply Reads_ret|].
  apply Reads_bind; [apply Reads_searchEntry|].
  intros [err|[entry|]]; try apply Reads_ret.
  destruct (negb (SkipGroupsSearch args)); [|apply Reads_ret].
  apply Reads_bind; [apply Reads_getUserGroups|].
  intros [groups [err|]]; apply Reads_ret.
Qed.

Lemma Reads_GetGroup (args : GetGroupArgs) : Reads (GetGroup cl args).
Proof.
  unfold GetGroup. destruct (GetGroupArgs_Validate args); [apply Reads_ret|].
  apply Reads_bind; [apply Reads_searchEntry|].
  intros [err|[entry|]]; try apply Reads_ret.
  destruct (negb (SkipMembersSearch args)); [|apply Reads_ret].
  apply Reads_bind; [apply Reads_getGroupMembers|].
  intros [members [err|]]; apply Reads_ret.
Qed.

Lemma Reads_addWorker (groupId userId : string) :
  Reads (addWorker cl groupId userId).
Proof.
  apply Reads_bind; [apply Reads_GetUser|].
  intros [[user|] [err|]]; try apply Reads_ret.
  destruct (IsGroupMember user groupId); apply Reads_ret.
Qed.

Lemma Reads_delWorker (groupId userId : string) :
  Reads (delWorker cl groupId userId).
Proof.
  apply Reads_bind; [apply Reads_GetUser|].
  intros [[user|] [err|]]; try apply Reads_ret.
  destruct (negb (IsGroupMember user groupId)); apply Reads_ret.
Qed.

Lemma Reads_Legacy_addWorker (groupId userId : string) :
  Reads (Legacy.addWorker cl groupId userId).
Proof.
  apply Reads_bind; [apply Reads_GetUser|].
  intros [[user|] [err|]]; try apply Reads_ret.
  destruct (IsGroupMember user groupId); apply Reads_ret.
Qed.

Lemma Reads_runWorkers (worker : string → M World Sent) (ids : list string) :
  (∀ id, Reads (worker id)) → Reads (runWorkers worker ids).
Proof.
  intros Hw. induction ids as [|id ids IH]; simpl; [apply Reads_ret|].
  apply Reads_bind; [apply Hw|]. intros s.
  apply Reads_bind; [apply IH|]. intros ss. apply Reads_ret.
Qed.

Lemma result_of_runWorkers (worker : string → M World Sent) (ids : list string)
    (w : World) :
  (∀ id, Reads (worker id)) →
  result_of (runWorkers worker ids) w = map (λ id, result_of (worker id) w) ids.
Proof.
  intros Hw. induction ids as [|id ids IH]; simpl; [done|].
  rewrite result_of_bind; [|apply Hw|].
  2:{ intros s. apply Reads_bind; [by apply Reads_runWorkers|].
      intros ss. apply Reads_ret. }
  rewrite result_of_bind; [|by apply Reads_runWorkers|intros; apply Reads_ret].
  rewrite IH. done.
Qed.

Lemma ch_of_map (f : string → Sent) (ids : list string) :
  ch_of (map f ids)
  = omap (λ id, match f id with SentDN dn => Some dn | _ => None end) ids.
Proof.
  unfold ch_of. induction ids as [|id ids IH]; [done|].
  cbn. destruct (f id); cbn; by rewrite IH.
Qed.

Lemma errCh_of_map (f : string → Sent) (ids : list string) :
  errCh_of (map f ids)
  = omap (λ id, match f id with SentErr err => Some err | _ => None end) ids.
Proof.
  unfold errCh_of. induction ids as [|id ids IH]; [done|].
  cbn. destruct (f id); cbn; by rewrite IH.
Qed.

(** What a worker sends, from what the lookup returns. *)
Lemma addWorker_result (groupId userId : string) (w : World) :
  result_of (addWorker cl groupId userId) w
  = match lookupUser cl userId w with
    | (_, Some err) => SentErr (accountError userId err)
    | (None, None) => SentNothing
    | (Some user, None) =>
        if IsGroupMember user groupId then SentNothing else SentDN (User_DN user)
    end.
Proof.
  unfold addWorker. rewrite result_of_bind; [|apply Reads_GetUser|].
  2:{ intros [[user|] [err|]]; try apply Reads_ret.
      destruct (IsGroupMember user groupId); apply Reads_ret. }
  unfold lookupUser.
  destruct (result_of (GetUser cl _) w) as [[user|] [err|]]; try done.
  by destruct (IsGroupMember user groupId).
Qed.

Lemma delWorker_result (groupId userId : string) (w : World) :
  result_of (delWorker cl groupId userId) w
  = match lookupUser cl userId w with
    | (_, Some err) => SentErr (accountError userId err)
    | (None, None) => SentNothing
    | (Some user, None) =>
        if IsGroupMember user groupId then SentDN (User_DN user) else SentNothing
    end.
Proof.
  unfold delWorker. rewrite result_of_bind; [|apply Reads_GetUser|].
  2:{ intros [[user|] [err|]]; try apply Reads_ret.
      destruct (negb (IsGroupMember user groupId)); apply Reads_ret. }
  unfold lookupUser.
  destruct (result_of (GetUser cl _) w) as [[user|] [err|]]; try done.
  by destruct (IsGroupMember user groupId).
Qed.

Lemma Legacy_addWorker_result (groupId userId : string) (w : World) :
  result_of (Legacy.addWorker cl groupId userId) w
  = match lookupUser cl userId w with
    | (_, Some err) => SentNothing
    | (None, None) => SentNothing
    | (Some user, None) =>
        if IsGroupMember user groupId then SentNothing else SentDN (User_DN user)
    end.
Proof.
  unfold Legacy.addWorker. rewrite result_of_bind; [|apply Reads_GetUser|].
  2:{ intros [[user|] [err|]]; try apply Reads_ret.
      destruct (IsGroupMember user groupId); apply Reads_ret. }
  unfold lookupUser.
  destruct (result_of (GetUser cl _) w) as [[user|] [err|]]; try done.
  by destruct (IsGroupMember user groupId).
Qed.

(** *** A batch, run *)

Lemma AddGroupMembers_run (sched : Schedule) (groupId : string)
    (ids : list string) (w : World) :
  run (AddGroupMembers cl sched groupId ids) w
  = let logG := calls (run (GetGroup cl (GetGroupArgs_byId groupId)) w).2 in
    match lookupGroup cl groupId w with
    | (_, Some err) => ((0, Some ("can't get group: " +:+ err)), mkState w logG)
    | (None, None) =>
        ((0, Some ("group '" +:+ groupId +:+ "' not found by ID")), mkState w logG)
    | (Some group, None) =>
        let logW :=
          calls (run (runWorkers (addWorker cl groupId) (sched ids)) w).2 in
        let sent := map (λ id, result_of (addWorker cl groupId id) w) (sched ids) in
        match errCh_of sent with
        | err :: _ => ((0, Some err), mkState w (logG ++ logW))
        | [] =>
            match ch_of sent with
            | [] => ((0, None), mkState w (logG ++ logW))
            | toAdd =>
                let newMembers := MembersDn group ++ toAdd in
                let upd := dir_updateAttribute (Group_DN group) "member" newMembers w in
                (match upd.1 with
                 | Some err => (0, Some err)
                 | None => (Z.of_nat (length toAdd), None)
                 end,
                 mkState upd.2
                   (logG ++ logW
                    ++ [CallUpdateAttribute (Group_DN group) "member" newMembers]))
            end
        end
    end.
Proof.
  unfold AddGroupMembers. unfold run at 1.
  rewrite bind_at by apply Reads_GetGroup. simpl.
  unfold lookupGroup.
  destruct (result_of (GetGroup cl _) w) as [[group|] [err|]]; try done.
  rewrite bind_at by (apply Reads_runWorkers, Reads_addWorker). simpl.
  rewrite result_of_runWorkers by apply Reads_addWorker.
  destruct (errCh_of _) as [|err errs]; [|done].
  rewrite foldl_snoc_id. simpl.
  destruct (ch_of _) as [|dn dns] eqn:Hch; [done|].
  case_decide as Hlen; [done|].
  unfold mbind, M_bind, updateAttribute. simpl.
  unfold popAddGroupMembers. case_decide; [done|]. simpl.
  destruct (dir_updateAttribute _ _ _ w) as [[err|] w']; simpl;
    by rewrite <- app_assoc.
Qed.

Lemma DeleteGroupMembers_run (sched : Schedule) (groupId : string)
    (ids : list string) (w : World) :
  run (DeleteGroupMembers cl sched groupId ids) w
  = let logG := calls (run (GetGroup cl (GetGroupArgs_byId groupId)) w).2 in
    match lookupGroup cl groupId w with
    | (_, Some err) => ((0, Some ("can't get group: " +:+ err)), mkState w logG)
    | (None, None) =>
        ((0, Some ("group '" +:+ groupId +:+ "' not found by ID")), mkState w logG)
    | (Some group, None) =>
        let logW :=
          calls (run (runWorkers (delWorker cl groupId) (sched ids)) w).2 in
        let sent := map (λ id, result_of (delWorker cl groupId id) w) (sched ids) in
        match errCh_of sent with
        | err :: _ => ((0, Some err), mkState w (logG ++ logW))
        | [] =>
            match ch_of sent with
            | [] => ((0, None), mkState w (logG ++ logW))
            | toDel =>
                let newMembers := filter (λ dn, dn ∉ toDel) (MembersDn group) in
                let upd := dir_updateAttribute (Group_DN group) "member" newMembers w in
                (match upd.1 with
                 | Some err => (0, Some err)
                 | None => (Z.of_nat (length toDel), None)
                 end,
                 mkState upd.2
                   (logG ++ logW
                    ++ [CallUpdateAttribute (Group_DN group) "member" newMembers]))
            end
        end
    end.
Proof.
  unfold DeleteGroupMembers. unfold run at 1.
  rewrite bind_at by apply Reads_GetGroup. simpl.
  unfold lookupGroup.
  destruct (result_of (GetGroup cl _) w) as [[group|] [err|]]; try done.
  rewrite bind_at by (apply Reads_runWorkers, Reads_delWorker). simpl.
  rewrite result_of_runWorkers by apply Reads_delWorker.
  destruct (errCh_of _) as [|err errs]; [|done].
  rewrite foldl_snoc_id. simpl.
  destruct (ch_of _) as [|dn dns] eqn:Hch; [done|].
  case_decide as Hlen; [done|].
  unfold mbind, M_bind, updateAttribute. simpl.
  unfold popDelGroupMembers. rewrite popDel_loop. simpl.
  destruct (dir_updateAttribute _ _ _ w) as [[err|] w']; simpl;
    by rewrite <- app_assoc.
Qed.

(** *** The earlier variant *)

Lemma Legacy_GetGroup_byId (groupId : string) :
  groupId ≠ "" →
  Legacy.GetGroup cl (Legacy.GetGroupequest_byId groupId)
  = GetGroup cl (GetGroupArgs_byId groupId).
Proof.
  intros Hne. unfold Legacy.GetGroup, GetGroup, Legacy.Validate,
    GetGroupArgs_Validate, Legacy.GetGroupequest_byId, GetGroupArgs_byId.
  simpl. rewrite !decide_False by tauto.
  unfold GetGroup_request, GetGroup_filter. simpl. reflexivity.
Qed.

Lemma Legacy_GetGroup_empty (st : State World) :
  Legacy.GetGroup cl (Legacy.GetGroupequest_byId "") st
  = ((None, Some "neither of ID of DN provided"), st).
Proof. reflexivity. Qed.

Lemma GetGroup_empty (st : State World) :
  GetGroup cl (GetGroupArgs_byId "") st
  = ((None, Some "neither of ID, DN or Filter provided"), st).
Proof. reflexivity. Qed.

Lemma Legacy_AddGroupMembers_run (sched : Schedule) (groupId : string)
    (ids : list string) (w : World) :
  groupId ≠ "" →
  run (Legacy.AddGroupMembers cl sched groupId ids) w
  = let logG := calls (run (GetGroup cl (GetGroupArgs_byId groupId)) w).2 in
    match lookupGroup cl groupId w with
    | (_, Some err) => ((0, Some ("can't get group: " +:+ err)), mkState w logG)
    | (None, None) =>
        ((0, Some ("group '" +:+ groupId +:+ "' not found by ID")), mkState w logG)
    | (Some group, None) =>
        let logW :=
          calls (run (runWorkers (Legacy.addWorker cl groupId) (sched ids)) w).2 in
        let sent :=
          map (λ id, result_of (Legacy.addWorker cl groupId id) w) (sched ids) in
        match ch_of sent with
        | [] => ((0, None), mkState w (logG ++ logW))
        | toAdd =>
            let newMembers := MembersDn group ++ toAdd in
            let upd := dir_updateAttribute (Group_DN group) "member" newMembers w in
            (match upd.1 with
             | Some err => (0, Some err)
             | None => (Z.of_nat (length toAdd), None)
             end,
             mkState upd.2
               (logG ++ logW
                ++ [CallUpdateAttribute (Group_DN group) "member" newMembers]))
        end
    end.
Proof.
  intros Hne. unfold Legacy.AddGroupMembers. unfold run at 1.
  rewrite (Legacy_GetGroup_byId groupId Hne).
  rewrite bind_at by apply Reads_GetGroup. simpl.
  unfold lookupGroup.
  destruct (result_of (GetGroup cl _) w) as [[group|] [err|]]; try done.
  rewrite bind_at by (apply Reads_runWorkers, Reads_Legacy_addWorker). simpl.
  rewrite result_of_runWorkers by apply Reads_Legacy_addWorker.
  rewrite foldl_snoc_id. simpl.
  destruct (ch_of _) as [|dn dns] eqn:Hch; [done|].
  case_decide as Hlen; [done|].
  unfold mbind, M_bind, updateAttribute. simpl.
  unfold popAddGroupMembers. case_decide; [done|]. simpl.
  destruct (dir_updateAttribute _ _ _ w) as [[err|] w']; simpl;
    by rewrite <- app_assoc.
Qed.

(** With no failed lookup the two workers do the same, calls included. *)
Lemma Legacy_addWorker_agrees (groupId userId : string) (w : World) :
  (lookupUser cl userId w).2 = None →
  run (Legacy.addWorker cl groupId userId) w = run (addWorker cl groupId userId) w.
Proof.
  intros Hok. unfold run, Legacy.addWorker, addWorker.
  rewrite !bind_at by apply Reads_GetUser. simpl.
  unfold lookupUser in Hok.
  destruct (result_of (GetUser cl _) w) as [[user|] [err|]]; simpl in *; done.
Qed.

Lemma Legacy_runWorkers_agrees (groupId : string) (ids : list string) (w : World) :
  (∀ id, id ∈ ids → (lookupUser cl id w).2 = None) →
  run (runWorkers (Legacy.addWorker cl groupId) ids) w
  = run (runWorkers (addWorker cl groupId) ids) w.
Proof.
  induction ids as [|id ids IH]; intros Hok; [done|].
  unfold run in *. simpl.
  rewrite bind_at by apply Reads_Legacy_addWorker.
  rewrite (bind_at (addWorker cl groupId id)) by apply Reads_addWorker.
  simpl. unfold result_of.
  rewrite (Legacy_addWorker_agrees groupId id w) by (apply Hok; left).
  set (s := (run (addWorker cl groupId id) w).1).
  set (l := calls (run (addWorker cl groupId id) w).2).
  rewrite bind_at by (apply Reads_runWorkers, Reads_Legacy_addWorker).
  rewrite (bind_at (runWorkers (addWorker cl groupId) ids))
    by (apply Reads_runWorkers, Reads_addWorker).
  simpl. unfold result_of, run. rewrite IH; [done|].
  intros id' Hin. apply Hok. by right.
Qed.

Lemma no_errors_errCh (groupId : string) (ids : list string) (w : World) :
  (∀ id, id ∈ ids → (lookupUser cl id w).2 = None) →
  errCh_of (map (λ id, result_of (addWorker cl groupId id) w) ids) = [].
Proof.
  intros Hok. induction ids as [|id ids IH]; [done|].
  cbn. rewrite addWorker_result.
  pose proof (Hok id (list_elem_of_here _ _)) as Hid.
  destruct (lookupUser cl id w) as [[user|] [err|]]; simpl in Hid; try done;
    [destruct (IsGroupMember user groupId)|]; cbn;
    apply IH; intros id' Hin; apply Hok; by right.
Qed.

End Reading.

(** ** The membership batches *)

Section Membership.
Context `{Runtime} {World : Type} `{!Directory World}.
Variable cl : Client.

Lemma lookups_write_nothing (groupId : string) (w : World) :
  writes (calls (run (GetGroup cl (GetGroupArgs_byId groupId)) w).2) = [].
Proof. apply Reads_run, Reads_GetGroup. Qed.

Lemma workers_write_nothing (worker : string → M World Sent)
    (ids : list string) (w : World) :
  (∀ id, Reads (worker id)) →
  writes (calls (run (runWorkers worker ids) w).2) = [].
Proof. intros Hw. by apply Reads_run, Reads_runWorkers. Qed.

Lemma errCh_addWorker (groupId : string) (ids : list string) (w : World) :
  errCh_of (map (λ id, result_of (addWorker cl groupId id) w) ids)
  = omap (λ id, accountError id <$> (lookupUser cl id w).2) ids.
Proof.
  rewrite errCh_of_map. apply list_omap_ext, Forall_Forall2_diag, Forall_forall.
  intros id _. rewrite addWorker_result.
  destruct (lookupUser cl id w) as [[user|] [err|]]; try done.
  by destruct (IsGroupMember user groupId).
Qed.

Lemma errCh_delWorker (groupId : string) (ids : list string) (w : World) :
  errCh_of (map (λ id, result_of (delWorker cl groupId id) w) ids)
  = omap (λ id, accountError id <$> (lookupUser cl id w).2) ids.
Proof.
  rewrite errCh_of_map. apply list_omap_ext, Forall_Forall2_diag, Forall_forall.
  intros id _. rewrite delWorker_result.
  destruct (lookupUser cl id w) as [[user|] [err|]]; try done.
  by destruct (IsGroupMember user groupId).
Qed.

Lemma toAdd_addWorker (groupId : string) (ids : list string) (w : World) :
  ch_of (map (λ id, result_of (addWorker cl groupId id) w) ids)
  = omap (toAddOf cl groupId w) ids.
Proof. by rewrite ch_of_map. Qed.

Lemma toDel_delWorker (groupId : string) (ids : list string) (w : World) :
  ch_of (map (λ id, result_of (delWorker cl groupId id) w) ids)
  = omap (toDelOf cl groupId w) ids.
Proof. by rewrite ch_of_map. Qed.

Lemma omap_head_origin {A B} (f : A → option B) (l : list A) (y : B) (ys : list B) :
  omap f l = y :: ys → ∃ x, x ∈ l ∧ f x = Some y.
Proof.
  intros Heq. apply (list_elem_of_omap f l y). rewrite Heq. left.
Qed.

Lemma omap_nil_inv {A B} (f : A → option B) (l : list A) (x : A) :
  omap f l = [] → x ∈ l → f x = None.
Proof.
  intros Heq Hin. destruct (f x) as [y|] eqn:Hfx; [|done].
  assert (y ∈ omap f l) as Hy by (apply list_elem_of_omap; eauto).
  rewrite Heq in Hy. by apply not_elem_of_nil in Hy.
Qed.

Lemma omap_all_None {A B} (f : A → option B) (l : list A) :
  (∀ x, x ∈ l → f x = None) → omap f l = [].
Proof.
  intros Hall. destruct (omap f l) as [|y ys] eqn:Heq; [done|].
  destruct (omap_head_origin f l y ys Heq) as (x & Hin & Hfx).
  rewrite (Hall x Hin) in Hfx. done.
Qed.

(** C1. Fail-fast.  Let the group be found and let the lookup of some
    requested identifier fail.  Then, whatever the order in which the
    workers finish, [AddGroupMembers] and [DeleteGroupMembers] return count 0
    with the error a worker reported for a requested identifier whose lookup
    failed (the lookup's error under the prefix naming the account); they
    make no write and leave the directory as it was: what the other lookups
    found is dropped. *)
Theorem batch_fails_fast (sched : Schedule) (groupId : string)
    (ids : list string) (w : World) (group : Group) :
  sched ids ≡ₚ ids →
  lookupGroup cl groupId w = (Some group, None) →
  (∃ id, id ∈ ids ∧ is_Some (lookupUser cl id w).2) →
  ∃ id err,
    id ∈ ids ∧ (lookupUser cl id w).2 = Some err
    ∧ (∃ log, run (AddGroupMembers cl sched groupId ids) w
              = ((0, Some (accountError id err)), mkState w log)
              ∧ writes log = [])
    ∧ (∃ log, run (DeleteGroupMembers cl sched groupId ids) w
              = ((0, Some (accountError id err)), mkState w log)
              ∧ writes log = []).
Proof.
  intros Hperm Hgroup (bad & Hbad & [e He]).
  set (errOf := λ id : string, accountError id <$> (lookupUser cl id w).2).
  destruct (omap errOf (sched ids)) as [|first rest] eqn:Herrs.
  { assert (errOf bad = None) as Hnone.
    { apply (omap_nil_inv errOf (sched ids)); [done|]. by rewrite Hperm. }
    unfold errOf in Hnone. rewrite He in Hnone. done. }
  destruct (omap_head_origin errOf _ _ _ Herrs) as (id & Hin & Hid).
  rewrite Hperm in Hin. unfold errOf in Hid.
  destruct ((lookupUser cl id w).2) as [err|] eqn:Herr; [|done].
  simpl in Hid. injection Hid as <-.
  exists id, err. split; [done|]. split; [done|]. split.
  - rewrite AddGroupMembers_run, Hgroup. cbv zeta.
    rewrite errCh_addWorker. fold errOf. rewrite Herrs.
    eexists. split; [done|].
    rewrite writes_app, lookups_write_nothing.
    by rewrite workers_write_nothing by apply Reads_addWorker.
  - rewrite DeleteGroupMembers_run, Hgroup. cbv zeta.
    rewrite errCh_delWorker. fold errOf. rewrite Herrs.
    eexists. split; [done|].
    rewrite writes_app, lookups_write_nothing.
    by rewrite workers_write_nothing by apply Reads_delWorker.
Qed.

Lemma notToAdd_sends_nothing (groupId : string) (w : World) (id : string) :
  notToAdd cl groupId w id ↔
  (lookupUser cl id w).2 = None ∧ toAddOf cl groupId w id = None.
Proof.
  unfold notToAdd, toAddOf. rewrite addWorker_result.
  destruct (lookupUser cl id w) as [[user|] [err|]]; simpl.
  - split; [intros [?|(u & ? & _)]; done|intros [? _]; done].
  - destruct (IsGroupMember user groupId) eqn:Hm; split.
    + done.
    + intros _. right. by exists user.
    + intros [?|(u & Hu & Hmu)]; [done|]. injection Hu as <-. congruence.
    + intros [_ ?]. done.
  - split; [intros [?|(u & ? & _)]; done|intros [? _]; done].
  - split; [done|intros _; by left].
Qed.

Lemma notToDelete_sends_nothing (groupId : string) (w : World) (id : string) :
  notToDelete cl groupId w id ↔
  (lookupUser cl id w).2 = None ∧ toDelOf cl groupId w id = None.
Proof.
  unfold notToDelete, toDelOf. rewrite delWorker_result.
  destruct (lookupUser cl id w) as [[user|] [err|]]; simpl.
  - split; [intros [?|(u & ? & _)]; done|intros [? _]; done].
  - destruct (IsGroupMember user groupId) eqn:Hm; split.
    + intros [?|(u & Hu & Hmu)]; [done|]. injection Hu as <-. congruence.
    + intros [_ ?]. done.
    + done.
    + intros _. right. by exists user.
  - split; [intros [?|(u & ? & _)]; done|intros [? _]; done].
  - split; [done|intros _; by left].
Qed.

Lemma AddGroupMembers_nothing_to_add (sched : Schedule) (groupId : string)
    (ids : list string) (w : World) (group : Group) :
  sched ids ≡ₚ ids →
  lookupGroup cl groupId w = (Some group, None) →
  (∀ id, id ∈ ids → notToAdd cl groupId w id) →
  ∃ log, run (AddGroupMembers cl sched groupId ids) w = ((0, None), mkState w log)
         ∧ writes log = [].
Proof.
  intros Hperm Hgroup Hskip.
  rewrite AddGroupMembers_run, Hgroup. cbv zeta.
  rewrite errCh_addWorker, toAdd_addWorker.
  rewrite omap_all_None.
  2:{ intros id Hin. rewrite Hperm in Hin.
      apply Hskip, notToAdd_sends_nothing in Hin as [-> _]. done. }
  rewrite omap_all_None.
  2:{ intros id Hin. rewrite Hperm in Hin.
      by apply Hskip, notToAdd_sends_nothing in Hin as [_ ->]. }
  eexists. split; [done|].
  rewrite writes_app, lookups_write_nothing.
  by rewrite workers_write_nothing by apply Reads_addWorker.
Qed.

(** C3. Nothing to do.  Let the group be found.  If every requested
    identifier resolves to no record or to a user who is already a member,
    [AddGroupMembers] returns [(0, nil)], makes no write and leaves the
    directory as it was; likewise [DeleteGroupMembers] if every requested
    identifier resolves to no record or to a user who is not a member.
    Hence the second of two additions of the same identifiers, in a
    directory that kept the first one's write: if the first one succeeded
    and, in the directory it left, the group is found, the users it added
    are reported as members of the group and the other identifiers resolve
    as before, the second returns [(0, nil)] and makes no write.  The
    condition on the directory is needed: the batch decides by what the
    lookups report, and nothing in it makes a directory report a write. *)
Theorem batch_without_qualifying_identifier (sched : Schedule)
    (groupId : string) (ids : list string) (w : World) (group : Group) :
  sched ids ≡ₚ ids →
  lookupGroup cl groupId w = (Some group, None) →
  ((∀ id, id ∈ ids → notToAdd cl groupId w id) →
   ∃ log, run (AddGroupMembers cl sched groupId ids) w = ((0, None), mkState w log)
          ∧ writes log = [])
  ∧ ((∀ id, id ∈ ids → notToDelete cl groupId w id) →
     ∃ log, run (DeleteGroupMembers cl sched groupId ids) w
            = ((0, None), mkState w log)
            ∧ writes log = [])
  ∧ (∀ (first : Schedule) (w0 : World) (n : Z) (log0 : list Call),
       first ids ≡ₚ ids →
       run (AddGroupMembers cl first groupId ids) w0 = ((n, None), mkState w log0) →
       (∀ id dn, id ∈ ids → toAddOf cl groupId w0 id = Some dn →
          ∃ user, lookupUser cl id w = (Some user, None)
                  ∧ IsGroupMember user groupId = true) →
       (∀ id, id ∈ ids → toAddOf cl groupId w0 id = None →
          lookupUser cl id w = lookupUser cl id w0) →
       ∃ log, run (AddGroupMembers cl sched groupId ids) w
              = ((0, None), mkState w log)
              ∧ writes log = []).
Proof.
  intros Hperm Hgroup. split; [|split].
  - by apply (AddGroupMembers_nothing_to_add sched groupId ids w group).
  - intros Hskip. rewrite DeleteGroupMembers_run, Hgroup. cbv zeta.
    rewrite errCh_delWorker, toDel_delWorker.
    rewrite omap_all_None.
    2:{ intros id Hin. rewrite Hperm in Hin.
        apply Hskip, notToDelete_sends_nothing in Hin as [-> _]. done. }
    rewrite omap_all_None.
    2:{ intros id Hin. rewrite Hperm in Hin.
        by apply Hskip, notToDelete_sends_nothing in Hin as [_ ->]. }
    eexists. split; [done|].
    rewrite writes_app, lookups_write_nothing.
    by rewrite workers_write_nothing by apply Reads_delWorker.
  - intros first w0 n log0 Hfirst Hrun Hadded Hrest.
    apply (AddGroupMembers_nothing_to_add sched groupId ids w group); [done..|].
    intros id Hin.
    destruct (toAddOf cl groupId w0 id) as [dn|] eqn:Hsent.
    { right. by apply (Hadded id dn). }
    apply notToAdd_sends_nothing.
    assert ((lookupUser cl id w0).2 = None) as Hok.
    { rewrite AddGroupMembers_run in Hrun. cbv zeta in Hrun.
      destruct (lookupGroup cl groupId w0) as [[g0|] [e0|]]; try done.
      rewrite errCh_addWorker in Hrun.
      destruct (omap _ (first ids)) as [|e es] eqn:Herrs; [|done].
      assert (id ∈ first ids) as Hin' by (by rewrite Hfirst).
      pose proof (omap_nil_inv _ _ id Herrs Hin') as Hnone. simpl in Hnone.
      destruct ((lookupUser cl id w0).2); simpl in Hnone; congruence. }
    assert (notToAdd cl groupId w0 id) as Hskip0
      by (by apply notToAdd_sends_nothing).
    unfold notToAdd in Hskip0. rewrite <- (Hrest id Hin Hsent) in Hskip0.
    by apply notToAdd_sends_nothing.
Qed.

Lemma AddGroupMembers_writes (sched : Schedule) (groupId : string)
    (ids : list string) (w : World) :
  let st := (run (AddGroupMembers cl sched groupId ids) w).2 in
  (writes (calls st) = [] ∧ world st = w)
  ∨ ∃ group,
      lookupGroup cl groupId w = (Some group, None)
      ∧ omap (toAddOf cl groupId w) (sched ids) ≠ []
      ∧ let newMembers :=
          MembersDn group ++ omap (toAddOf cl groupId w) (sched ids) in
        writes (calls st) = [CallUpdateAttribute (Group_DN group) "member" newMembers]
        ∧ run (AddGroupMembers cl sched groupId ids) w
          = (match (dir_updateAttribute (Group_DN group) "member" newMembers w).1 with
             | Some err => (0, Some err)
             | None =>
                 (Z.of_nat (length (omap (toAddOf cl groupId w) (sched ids))), None)
             end,
             mkState (dir_updateAttribute (Group_DN group) "member" newMembers w).2
                     (calls st)).
Proof.
  cbv zeta. rewrite AddGroupMembers_run. cbv zeta.
  pose proof (lookups_write_nothing groupId w) as HG.
  pose proof (workers_write_nothing (addWorker cl groupId) (sched ids) w
                (Reads_addWorker cl groupId)) as HW.
  destruct (lookupGroup cl groupId w) as [[group|] [e|]]; simpl;
    try (left; by rewrite ?HG).
  rewrite toAdd_addWorker.
  destruct (errCh_of _) as [|e es]; simpl.
  2:{ left. by rewrite writes_app, HG, HW. }
  destruct (omap (toAddOf cl groupId w) (sched ids)) as [|dn dns] eqn:Hch; simpl.
  { left. by rewrite writes_app, HG, HW. }
  right. exists group. split; [done|]. split; [done|].
  rewrite !writes_app, HG, HW. simpl. split; done.
Qed.

Lemma DeleteGroupMembers_writes (sched : Schedule) (groupId : string)
    (ids : list string) (w : World) :
  let st := (run (DeleteGroupMembers cl sched groupId ids) w).2 in
  (writes (calls st) = [] ∧ world st = w)
  ∨ ∃ group,
      lookupGroup cl groupId w = (Some group, None)
      ∧ omap (toDelOf cl groupId w) (sched ids) ≠ []
      ∧ let newMembers :=
          filter (λ dn, dn ∉ omap (toDelOf cl groupId w) (sched ids))
                 (MembersDn group) in
        writes (calls st) = [CallUpdateAttribute (Group_DN group) "member" newMembers]
        ∧ run (DeleteGroupMembers cl sched groupId ids) w
          = (match (dir_updateAttribute (Group_DN group) "member" newMembers w).1 with
             | Some err => (0, Some err)
             | None =>
                 (Z.of_nat (length (omap (toDelOf cl groupId w) (sched ids))), None)
             end,
             mkState (dir_updateAttribute (Group_DN group) "member" newMembers w).2
                     (calls st)).
Proof.
  cbv zeta. rewrite DeleteGroupMembers_run. cbv zeta.
  pose proof (lookups_write_nothing groupId w) as HG.
  pose proof (workers_write_nothing (delWorker cl groupId) (sched ids) w
                (Reads_delWorker cl groupId)) as HW.
  destruct (lookupGroup cl groupId w) as [[group|] [e|]]; simpl;
    try (left; by rewrite ?HG).
  rewrite toDel_delWorker.
  destruct (errCh_of _) as [|e es]; simpl.
  2:{ left. by rewrite writes_app, HG, HW. }
  destruct (omap (toDelOf cl groupId w) (sched ids)) as [|dn dns] eqn:Hch; simpl.
  { left. by rewrite writes_app, HG, HW. }
  right. exists group. split; [done|]. split; [done|].
  rewrite !writes_app, HG, HW. simpl. split; done.
Qed.

(** C7. One write, and the count.  Whatever the order in which the workers
    finish: if [AddGroupMembers] makes a write at all, the group was found
    and the writes of the call are one attribute-replace, on the group's DN,
    of [member] by the group's member DNs followed by the DNs found to add;
    if that write succeeds the count returned is the number of requested
    identifiers found to add, which is the length of the written list less
    the number of members the group had, and if it fails the count is 0
    with the write's error.  Likewise [DeleteGroupMembers], with the
    group's member DNs less those found to remove as the written list and
    the number of requested identifiers found to remove as the count. *)
Theorem batch_write_and_count (sched : Schedule) (groupId : string)
    (ids : list string) (w : World) :
  sched ids ≡ₚ ids →
  (∀ r st,
     run (AddGroupMembers cl sched groupId ids) w = (r, st) →
     writes (calls st) ≠ [] →
     ∃ group,
       lookupGroup cl groupId w = (Some group, None)
       ∧ let toAdd := omap (toAddOf cl groupId w) (sched ids) in
         let newMembers := MembersDn group ++ toAdd in
         writes (calls st)
         = [CallUpdateAttribute (Group_DN group) "member" newMembers]
         ∧ popAddGroupMembers group toAdd = newMembers
         ∧ world st = (dir_updateAttribute (Group_DN group) "member" newMembers w).2
         ∧ match (dir_updateAttribute (Group_DN group) "member" newMembers w).1 with
           | Some err => r = (0, Some err)
           | None =>
               r = (Z.of_nat (length (omap (toAddOf cl groupId w) ids)), None)
               ∧ (length (omap (toAddOf cl groupId w) ids)
                  = length newMembers - length (Group_Members group))%nat
           end)
  ∧ (∀ r st,
       run (DeleteGroupMembers cl sched groupId ids) w = (r, st) →
       writes (calls st) ≠ [] →
       ∃ group,
         lookupGroup cl groupId w = (Some group, None)
         ∧ let toDel := omap (toDelOf cl groupId w) (sched ids) in
           let newMembers := filter (λ dn, dn ∉ toDel) (MembersDn group) in
           writes (calls st)
           = [CallUpdateAttribute (Group_DN group) "member" newMembers]
           ∧ popDelGroupMembers group toDel = newMembers
           ∧ world st = (dir_updateAttribute (Group_DN group) "member" newMembers w).2
           ∧ match (dir_updateAttribute (Group_DN group) "member" newMembers w).1 with
             | Some err => r = (0, Some err)
             | None =>
                 r = (Z.of_nat (length (omap (toDelOf cl groupId w) ids)), None)
             end).
Proof.
  intros Hperm. split.
  - intros r st Hrun Hwrites.
    destruct (AddGroupMembers_writes sched groupId ids w)
      as [[Hnone _]|(group & Hgroup & Hne & Hw & Hres)];
      rewrite Hrun in *; simpl in *; [done|].
    exists group. split; [done|]. split; [done|]. split.
    { unfold popAddGroupMembers. case_decide as Hlen; [|done].
      apply length_zero_iff_nil in Hlen. done. }
    injection Hres as -> ->. split; [done|].
    destruct (dir_updateAttribute _ _ _ w).1; [done|].
    assert (length (omap (toAddOf cl groupId w) (sched ids))
            = length (omap (toAddOf cl groupId w) ids)) as <-
      by (by apply Permutation_length, omap_Permutation).
    split; [done|].
    rewrite length_app, MembersDn_map, length_map. lia.
  - intros r st Hrun Hwrites.
    destruct (DeleteGroupMembers_writes sched groupId ids w)
      as [[Hnone _]|(group & Hgroup & Hne & Hw & Hres)];
      rewrite Hrun in *; simpl in *; [done|].
    exists group. split; [done|]. split; [done|]. split.
    { unfold popDelGroupMembers. by rewrite popDel_loop. }
    injection Hres as -> ->. split; [done|].
    destruct (dir_updateAttribute _ _ _ w).1; [done|].
    assert (length (omap (toDelOf cl groupId w) (sched ids))
            = length (omap (toDelOf cl groupId w) ids)) as <-
      by (by apply Permutation_length, omap_Permutation).
    done.
Qed.

(** Two orders in which the workers may finish give the same DNs to add,
    up to their order: the written lists differ at most in the order of
    the DNs that follow the group's members. *)
Lemma toAdd_up_to_order (first second : Schedule) (groupId : string)
    (ids : list string) (w : World) :
  first ids ≡ₚ ids → second ids ≡ₚ ids →
  omap (toAddOf cl groupId w) (first ids)
  ≡ₚ omap (toAddOf cl groupId w) (second ids).
Proof.
  intros H1 H2. apply omap_Permutation. by rewrite H1, H2.
Qed.

Lemma variants_agree_found (sched : Schedule) (groupId : string)
    (ids : list string) (w : World) :
  groupId ≠ "" →
  (∀ id, id ∈ sched ids → (lookupUser cl id w).2 = None) →
  run (Legacy.AddGroupMembers cl sched groupId ids) w
  = run (AddGroupMembers cl sched groupId ids) w.
Proof.
  intros Hne Hok.
  rewrite Legacy_AddGroupMembers_run by done. rewrite AddGroupMembers_run.
  cbv zeta. destruct (lookupGroup cl groupId w) as [[group|] [e|]]; try done.
  rewrite (no_errors_errCh cl groupId (sched ids) w Hok).
  rewrite (Legacy_runWorkers_agrees cl groupId (sched ids) w Hok).
  assert (map (λ id, result_of (Legacy.addWorker cl groupId id) w) (sched ids)
          = map (λ id, result_of (addWorker cl groupId id) w) (sched ids)) as ->.
  { apply map_ext_in. intros id Hin. apply list_elem_of_In in Hin.
    unfold result_of. by rewrite (Legacy_addWorker_agrees cl groupId id w (Hok id Hin)). }
  done.
Qed.

(** C2. The two variants of [AddGroupMembers].  For every group identifier
    and every batch none of whose lookups fails, the variant of part_000
    and the one of group.go, their workers finishing in the same order,
    return the same count and leave the same directory; either neither
    makes a write or each makes the one same attribute-replace, of the same
    list on the same DN.  For a non-empty group identifier they agree on
    everything: result, directory and log.  (For the empty group identifier
    both are refused by validation, with differently worded messages.) *)
Theorem AddGroupMembers_variants_agree (sched : Schedule) (groupId : string)
    (ids : list string) (w : World) :
  sched ids ≡ₚ ids →
  (∀ id, id ∈ ids → (lookupUser cl id w).2 = None) →
  let old := run (Legacy.AddGroupMembers cl sched groupId ids) w in
  let new := run (AddGroupMembers cl sched groupId ids) w in
  old.1.1 = new.1.1
  ∧ world old.2 = world new.2
  ∧ ((writes (calls old.2) = [] ∧ writes (calls new.2) = [])
     ∨ ∃ dn newMembers,
         writes (calls old.2) = [CallUpdateAttribute dn "member" newMembers]
         ∧ writes (calls new.2) = [CallUpdateAttribute dn "member" newMembers])
  ∧ (groupId ≠ "" → old = new).
Proof.
  intros Hperm Hok. cbv zeta.
  destruct (decide (groupId = "")) as [->|Hne].
  { unfold run, Legacy.AddGroupMembers, AddGroupMembers, mbind, M_bind.
    rewrite Legacy_GetGroup_empty, GetGroup_empty. simpl.
    split; [done|]. split; [done|]. split; [by left|done]. }
  assert (∀ id, id ∈ sched ids → (lookupUser cl id w).2 = None) as Hok'.
  { intros id Hin. apply Hok. by rewrite <- Hperm. }
  rewrite (variants_agree_found sched groupId ids w Hne Hok').
  split; [done|]. split; [done|]. split; [|done].
  destruct (AddGroupMembers_writes sched groupId ids w)
    as [[Hnone _]|(group & _ & _ & Hw & _)].
  - by left.
  - right. eauto.
Qed.

End Membership.

(** ** The point lookups *)

Section Lookups.
Context `{Runtime} {World : Type} `{!Directory World}.
Variable cl : Client.

(** C8. A request for a user, or for a group, whose [Id], [Dn] and [Filter]
    are all empty is refused with the validation error, in whatever state
    the call is made, and the state it leaves is the one it found: the
    directory is the same and nothing was added to the log of directory
    calls, so no search was made. *)
Theorem lookup_without_criterion_is_refused
    (uargs : GetUserArgs) (gargs : GetGroupArgs) (st : State World) :
  GetUserArgs_Id uargs = "" → GetUserArgs_Dn uargs = "" →
  GetUserArgs_Filter uargs = "" →
  GetGroupArgs_Id gargs = "" → GetGroupArgs_Dn gargs = "" →
  GetGroupArgs_Filter gargs = "" →
  GetUser cl uargs st = ((None, Some "neither of ID, DN or Filter provided"), st)
  ∧ GetGroup cl gargs st = ((None, Some "neither of ID, DN or Filter provided"), st)
  ∧ GetUserArgs_Validate uargs = Some "neither of ID, DN or Filter provided"
  ∧ GetGroupArgs_Validate gargs = Some "neither of ID, DN or Filter provided".
Proof.
  intros Hu1 Hu2 Hu3 Hg1 Hg2 Hg3.
  assert (GetUserArgs_Validate uargs = Some "neither of ID, DN or Filter provided")
    as Hu by (unfold GetUserArgs_Validate; by rewrite decide_True).
  assert (GetGroupArgs_Validate gargs = Some "neither of ID, DN or Filter provided")
    as Hg by (unfold GetGroupArgs_Validate; by rewrite decide_True).
  unfold GetUser, GetGroup. rewrite Hu, Hg. done.
Qed.

Lemma getUserGroups_error (dn : string) (w : World) (err : error) :
  (result_of (getUserGroups cl dn) w).2 = Some err →
  ∃ req, dir_searchEntries req w = inl err.
Proof.
  unfold getUserGroups, result_of, run, mbind, M_bind, searchEntries. simpl.
  destruct (dir_searchEntries _ w) as [e|entries] eqn:Hs; simpl; [|done].
  intros [= <-]. eauto.
Qed.

Lemma getGroupMembers_error (dn : string) (w : World) (err : error) :
  (result_of (getGroupMembers cl dn) w).2 = Some err →
  ∃ req, dir_searchEntries req w = inl err.
Proof.
  unfold getGroupMembers, result_of, run, mbind, M_bind, searchEntries. simpl.
  destruct (dir_searchEntries _ w) as [e|entries] eqn:Hs; simpl; [|done].
  intros [= <-]. eauto.
Qed.

Lemma GetUser_run (args : GetUserArgs) (w : World) :
  GetUserArgs_Validate args = None →
  run (GetUser cl args) w
  = match dir_searchEntry (GetUser_request cl args) w with
    | inl err => ((None, Some err), mkState w [CallSearchEntry (GetUser_request cl args)])
    | inr None => ((None, None), mkState w [CallSearchEntry (GetUser_request cl args)])
    | inr (Some entry) =>
        if SkipGroupsSearch args
        then ((Some (entryToUser cl entry), None),
              mkState w [CallSearchEntry (GetUser_request cl args)])
        else
          let r := run (getUserGroups cl (Entry_DN entry)) w in
          (match r.1.2 with
           | Some err => (None, Some ("can't get user groups: " +:+ err))
           | None => (Some {| User_DN := Entry_DN entry;
                              User_Id := User_Id (entryToUser cl entry);
                              User_Attributes := entryAttributes entry;
                              User_Groups := r.1.1 |}, None)
           end,
           mkState w (CallSearchEntry (GetUser_request cl args) :: calls r.2))
    end.
Proof.
  intros Hv. unfold GetUser. rewrite Hv. unfold run at 1.
  rewrite bind_at by apply Reads_searchEntry. simpl.
  unfold result_of, run, searchEntry. simpl.
  destruct (dir_searchEntry _ w) as [err|[entry|]]; try done.
  destruct (SkipGroupsSearch args); simpl; [done|].
  rewrite bind_at by apply Reads_getUserGroups. simpl.
  destruct (result_of (getUserGroups cl (Entry_DN entry)) w) as [groups [err|]] eqn:Hr;
    unfold result_of in Hr; unfold run in *; rewrite Hr; done.
Qed.

Lemma GetGroup_run (args : GetGroupArgs) (w : World) :
  GetGroupArgs_Validate args = None →
  run (GetGroup cl args) w
  = match dir_searchEntry (GetGroup_request cl args) w with
    | inl err => ((None, Some err), mkState w [CallSearchEntry (GetGroup_request cl args)])
    | inr None => ((None, None), mkState w [CallSearchEntry (GetGroup_request cl args)])
    | inr (Some entry) =>
        let found := {|
          Group_DN := Entry_DN entry;
          Group_Id := GetAttributeValue entry
                        (Groups_IdAttribute (Groups (Client_Config cl)));
          Group_Attributes := entryAttributes entry;
          Group_Members := [] |} in
        if SkipMembersSearch args
        then ((Some found, None),
              mkState w [CallSearchEntry (GetGroup_request cl args)])
        else
          let r := run (getGroupMembers cl (Entry_DN entry)) w in
          (match r.1.2 with
           | Some err => (None, Some ("can't get group members: " +:+ err))
           | None => (Some {| Group_DN := Group_DN found;
                              Group_Id := Group_Id found;
                              Group_Attributes := Group_Attributes found;
                              Group_Members := r.1.1 |}, None)
           end,
           mkState w (CallSearchEntry (GetGroup_request cl args) :: calls r.2))
    end.
Proof.
  intros Hv. unfold GetGroup. rewrite Hv. unfold run at 1.
  rewrite bind_at by apply Reads_searchEntry. simpl.
  unfold result_of, run, searchEntry. simpl.
  destruct (dir_searchEntry _ w) as [err|[entry|]]; try done.
  destruct (SkipMembersSearch args); simpl; [done|].
  rewrite bind_at by apply Reads_getGroupMembers. simpl.
  destruct (result_of (getGroupMembers cl (Entry_DN entry)) w) as [groups [err|]] eqn:Hr;
    unfold result_of in Hr; unfold run in *; rewrite Hr; done.
Qed.

(** C9. Absence is not an error.  For a request that passes validation:
    when the search for the entry matches nothing, [GetUser] (and
    [GetGroup]) returns a nil record with a nil error, having made that one
    search; and whenever an error is returned, a search of the directory
    failed with it: the search for the entry, whose error is returned as it
    is, or, the entry found, the search for its groups (its members), whose
    error is returned under a prefix. *)
Theorem lookup_of_absent_entry (uargs : GetUserArgs) (gargs : GetGroupArgs)
    (w : World) :
  GetUserArgs_Validate uargs = None →
  GetGroupArgs_Validate gargs = None →
  (dir_searchEntry (GetUser_request cl uargs) w = inr None →
   run (GetUser cl uargs) w
   = ((None, None), mkState w [CallSearchEntry (GetUser_request cl uargs)]))
  ∧ (dir_searchEntry (GetGroup_request cl gargs) w = inr None →
     run (GetGroup cl gargs) w
     = ((None, None), mkState w [CallSearchEntry (GetGroup_request cl gargs)]))
  ∧ (∀ err, (result_of (GetUser cl uargs) w).2 = Some err →
       dir_searchEntry (GetUser_request cl uargs) w = inl err
       ∨ ∃ entry req err',
           dir_searchEntry (GetUser_request cl uargs) w = inr (Some entry)
           ∧ dir_searchEntries req w = inl err'
           ∧ err = "can't get user groups: " +:+ err')
  ∧ (∀ err, (result_of (GetGroup cl gargs) w).2 = Some err →
       dir_searchEntry (GetGroup_request cl gargs) w = inl err
       ∨ ∃ entry req err',
           dir_searchEntry (GetGroup_request cl gargs) w = inr (Some entry)
           ∧ dir_searchEntries req w = inl err'
           ∧ err = "can't get group members: " +:+ err').
Proof.
  intros Hu Hg. unfold result_of.
  rewrite (GetUser_run uargs w Hu), (GetGroup_run gargs w Hg).
  split; [by intros ->|]. split; [by intros ->|]. split.
  - intros err.
    destruct (dir_searchEntry (GetUser_request cl uargs) w) as [e|[entry|]];
      simpl; [intros [= ->]; by left| |done].
    destruct (SkipGroupsSearch uargs); simpl; [done|].
    destruct ((run (getUserGroups cl (Entry_DN entry)) w).1.2) as [e|] eqn:He;
      simpl; [|done].
    intros [= <-]. right.
    destruct (getUserGroups_error (Entry_DN entry) w e He) as [req Hreq].
    by exists entry, req, e.
  - intros err.
    destruct (dir_searchEntry (GetGroup_request cl gargs) w) as [e|[entry|]];
      simpl; [intros [= ->]; by left| |done].
    destruct (SkipMembersSearch gargs); simpl; [done|].
    destruct ((run (getGroupMembers cl (Entry_DN entry)) w).1.2) as [e|] eqn:He;
      simpl; [|done].
    intros [= <-]. right.
    destruct (getGroupMembers_error (Entry_DN entry) w e He) as [req Hreq].
    by exists entry, req, e.
Qed.

Lemma GetUser_first_call (args : GetUserArgs) (w : World) :
  GetUserArgs_Validate args = None →
  head (calls (run (GetUser cl args) w).2)
  = Some (CallSearchEntry (GetUser_request cl args)).
Proof.
  intros Hv. rewrite (GetUser_run args w Hv).
  destruct (dir_searchEntry _ w) as [e|[entry|]]; try done.
  by destruct (SkipGroupsSearch args).
Qed.

Lemma GetGroup_first_call (args : GetGroupArgs) (w : World) :
  GetGroupArgs_Validate args = None →
  head (calls (run (GetGroup cl args) w).2)
  = Some (CallSearchEntry (GetGroup_request cl args)).
Proof.
  intros Hv. rewrite (GetGroup_run args w Hv).
  destruct (dir_searchEntry _ w) as [e|[entry|]]; try done.
  by destruct (SkipMembersSearch args).
Qed.

(** C10. The filter searched for.  For a request that passes validation the
    first directory call of [GetUser] (of [GetGroup]) is the search for the
    entry, and the filter of that search is: the [Filter] argument as it is
    when it is not empty; otherwise, when [Dn] is not empty, the by-DN
    template of the users (groups) applied to the escaped [Dn]; otherwise
    the by-id template applied to [Id] as it is. *)
Theorem lookup_filter_precedence (uargs : GetUserArgs) (gargs : GetGroupArgs)
    (w : World) :
  GetUserArgs_Validate uargs = None →
  GetGroupArgs_Validate gargs = None →
  (∃ req,
     head (calls (run (GetUser cl uargs) w).2) = Some (CallSearchEntry req)
     ∧ (GetUserArgs_Filter uargs ≠ "" → Filter req = GetUserArgs_Filter uargs)
     ∧ (GetUserArgs_Filter uargs = "" → GetUserArgs_Dn uargs ≠ "" →
        Filter req = Sprintf (Users_FilterByDn (Users (Client_Config cl)))
                             (EscapeFilter (GetUserArgs_Dn uargs)))
     ∧ (GetUserArgs_Filter uargs = "" → GetUserArgs_Dn uargs = "" →
        Filter req = Sprintf (Users_FilterById (Users (Client_Config cl)))
                             (GetUserArgs_Id uargs)))
  ∧ (∃ req,
       head (calls (run (GetGroup cl gargs) w).2) = Some (CallSearchEntry req)
       ∧ (GetGroupArgs_Filter gargs ≠ "" → Filter req = GetGroupArgs_Filter gargs)
       ∧ (GetGroupArgs_Filter gargs = "" → GetGroupArgs_Dn gargs ≠ "" →
          Filter req = Sprintf (Groups_FilterByDn (Groups (Client_Config cl)))
                               (EscapeFilter (GetGroupArgs_Dn gargs)))
       ∧ (GetGroupArgs_Filter gargs = "" → GetGroupArgs_Dn gargs = "" →
          Filter req = Sprintf (Groups_FilterById (Groups (Client_Config cl)))
                               (GetGroupArgs_Id gargs))).
Proof.
  intros Hu Hg. split.
  - exists (GetUser_request cl uargs). split; [by apply GetUser_first_call|].
    unfold GetUser_request, GetUser_filter. simpl.
    repeat split; intros; repeat case_decide; done.
  - exists (GetGroup_request cl gargs). split; [by apply GetGroup_first_call|].
    unfold GetGroup_request, GetGroup_filter. simpl.
    repeat split; intros; repeat case_decide; done.
Qed.

End Lookups.

(** ** The paged listings *)

Section Paging.
Context `{Runtime} {World : Type} `{!Directory World}.
Variable cl : Client.

Lemma verdict_Last (sr : SearchResult) :
  verdict sr = Last →
  Res_Controls sr = None
  ∨ (∃ size rest, Res_Controls sr = Some (ControlPaging size [] :: rest))
  ∨ (∃ type rest, Res_Controls sr = Some (ControlOther type :: rest)).
Proof.
  unfold verdict. destruct (Res_Controls sr) as [[|[size cookie|type] rest]|];
    try done; eauto.
  destruct cookie; [eauto|done].
Qed.

Lemma verdict_More (sr : SearchResult) (cookie : list byte) :
  verdict sr = More cookie →
  cookie ≠ [] ∧ ∃ size rest, Res_Controls sr = Some (ControlPaging size cookie :: rest).
Proof.
  unfold verdict. destruct (Res_Controls sr) as [[|[size c|type] rest]|];
    try done.
  destruct c as [|b c]; [done|]. intros [= <-]. eauto.
Qed.

Lemma pagingLoop_conversation (req : SearchRequest) (size : Z) (w : World)
    (cookie : list byte) (pages : list (list Entry)) (w' : World) :
  Conversation verdict req size w cookie pages w' →
  ∀ (fuel : nat) (req' : SearchRequest) (acc : list Entry) (log : list Call),
    (∀ cs, withControls req' cs = withControls req cs) →
    (length pages ≤ fuel)%nat →
    ∃ made,
      pagingLoop fuel req' (size, cookie) acc (mkState w log)
      = (Returns (inr (acc ++ concat pages)), mkState w' (log ++ made))
      ∧ length made = length pages
      ∧ head made = Some (CallSearch (withControls req [ControlPaging size cookie]))
      ∧ Forall (λ c, ∃ sent, c = CallSearch (withControls req [ControlPaging size sent]))
               made.
Proof.
  induction 1 as [w cookie sr w' Hsearch Hlast
                 |w cookie sr w1 cookie' pages w' Hsearch Hmore Hconv IH];
    intros fuel req' acc log Hreq Hfuel.
  - destruct fuel as [|fuel]; [simpl in Hfuel; lia|].
    exists [CallSearch (withControls req [ControlPaging size cookie])].
    split; [|split; [done|split; [done|]]].
    2:{ constructor; [eauto|constructor]. }
    simpl. unfold mbind, M_bind, ldap_Search. simpl.
    rewrite Hreq, Hsearch. simpl. rewrite app_nil_r.
    destruct (verdict_Last sr Hlast) as [->|[(sz & rest & ->)|(ty & rest & ->)]];
      simpl; done.
  - destruct fuel as [|fuel]; [simpl in Hfuel; lia|].
    destruct (verdict_More sr cookie' Hmore) as (Hne & sz & rest & Hctl).
    destruct (IH fuel (withControls req [ControlPaging size cookie])
                (acc ++ Entries sr)
                (log ++ [CallSearch (withControls req [ControlPaging size cookie])]))
      as (made & Hrun & Hlen & Hhead & Hall).
    { intros cs. reflexivity. }
    { simpl in Hfuel. lia. }
    exists (CallSearch (withControls req [ControlPaging size cookie]) :: made).
    split; [|split; [simpl; by rewrite Hlen|split; [done|]]].
    2:{ constructor; [eauto|done]. }
    simpl. unfold mbind, M_bind, ldap_Search. simpl.
    rewrite Hreq, Hsearch. simpl. rewrite Hctl.
    rewrite decide_False by (destruct cookie'; simpl; [done|lia]).
    simpl in Hrun. rewrite Hrun. by rewrite <- !app_assoc.
Qed.

Lemma nilIfEmpty_map {A B} (f : A → B) (l : list A) :
  nilIfEmpty (map f l) = match l with [] => None | _ => Some (map f l) end.
Proof. by destruct l. Qed.

(** C5, as the code has it.  Let the server, asked the listing request page
    by page, answer with [pages] and move to state [w'], where each request
    carries the cookie of the previous answer (the first an empty one), every
    answer but the last has a paging control with a non-empty cookie as its
    first control, and the last answer is the first whose control list is
    nil, or starts with a control that is not a paging control, or starts
    with a paging control with an empty cookie.  Then, given fuel for that
    many pages, [ListUsers] (and [ListGroups]) returns without error the
    records of the entries of all the pages, concatenated in order, none
    dropped and none repeated, or nil when there is no entry at all; it
    leaves the server in [w'], having made one [Search] per page, each with
    the listing request and one paging control of the page size asked for,
    the first with an empty cookie. *)
Theorem paged_listing (uargs : GetUserArgs) (gargs : GetGroupArgs)
    (pageSize : Z) (filter : string) (w : World)
    (upages gpages : list (list Entry)) (wu wg : World) :
  Conversation verdict (ListUsers_request cl uargs filter) (uint32 pageSize)
               w [] upages wu →
  Conversation verdict (ListGroups_request cl gargs filter) (uint32 pageSize)
               w [] gpages wg →
  (∀ fuel, (length upages ≤ fuel)%nat →
     ∃ made,
       run (ListUsers cl fuel uargs pageSize filter) w
       = (Returns (nilIfEmpty (map (entryToUser cl) (concat upages)), None),
          mkState wu made)
       ∧ length (map (entryToUser cl) (concat upages))
         = sum_list (map length upages)
       ∧ length made = length upages
       ∧ head made
         = Some (CallSearch (withControls (ListUsers_request cl uargs filter)
                               [ControlPaging (uint32 pageSize) []]))
       ∧ Forall (λ c, ∃ sent,
                   c = CallSearch (withControls (ListUsers_request cl uargs filter)
                                     [ControlPaging (uint32 pageSize) sent]))
                made)
  ∧ (∀ fuel, (length gpages ≤ fuel)%nat →
       ∃ made,
         run (ListGroups cl fuel gargs pageSize filter) w
         = (Returns (nilIfEmpty (map (entryToListedGroup cl) (concat gpages)), None),
            mkState wg made)
         ∧ length (map (entryToListedGroup cl) (concat gpages))
           = sum_list (map length gpages)
         ∧ length made = length gpages
         ∧ head made
           = Some (CallSearch (withControls (ListGroups_request cl gargs filter)
                                 [ControlPaging (uint32 pageSize) []]))
         ∧ Forall (λ c, ∃ sent,
                     c = CallSearch (withControls (ListGroups_request cl gargs filter)
                                       [ControlPaging (uint32 pageSize) sent]))
                  made).
Proof.
  intros Hu Hg. split.
  - intros fuel Hfuel.
    destruct (pagingLoop_conversation _ _ _ _ _ _ Hu fuel
                (ListUsers_request cl uargs filter) [] [] (λ _, eq_refl) Hfuel)
      as (made & Hrun & Hlen & Hhead & Hall).
    exists made. split; [|split; [|done]].
    2:{ rewrite length_map. clear. induction upages as [|p ps IH]; [done|].
        simpl. rewrite length_app. by rewrite IH. }
    unfold ListUsers, run, mbind, M_bind, NewControlPaging.
    rewrite Hrun. simpl. rewrite nilIfEmpty_map.
    destruct (concat upages) as [|e es] eqn:Hc; [done|].
    unfold mret, M_ret. rewrite (foldl_snoc (entryToUser cl)). done.
  - intros fuel Hfuel.
    destruct (pagingLoop_conversation _ _ _ _ _ _ Hg fuel
                (ListGroups_request cl gargs filter) [] [] (λ _, eq_refl) Hfuel)
      as (made & Hrun & Hlen & Hhead & Hall).
    exists made. split; [|split; [|done]].
    2:{ rewrite length_map. clear. induction gpages as [|p ps IH]; [done|].
        simpl. rewrite length_app. by rewrite IH. }
    unfold ListGroups, run, mbind, M_bind, NewControlPaging.
    rewrite Hrun. simpl. rewrite nilIfEmpty_map.
    destruct (concat gpages) as [|e es] eqn:Hc; [done|].
    unfold mret, M_ret. rewrite (foldl_snoc (entryToListedGroup cl)). done.
Qed.

End Paging.

(** * The properties on the small directory *)

Import Fixture.

Ltac each_member H :=
  repeat (apply elem_of_cons in H as [->|H]);
  [..|by apply elem_of_nil in H].

(** C1 on a batch of three, the second of which fails to resolve, the
    workers finishing in reverse order. *)
Lemma batch_fails_fast_witness :
  ∃ id err,
    id ∈ ["user2"; "entryForErr"; "userToAdd"]
    ∧ (lookupUser fx_client id fx_world).2 = Some err
    ∧ (∃ log, run (AddGroupMembers fx_client reverse "group2"
                     ["user2"; "entryForErr"; "userToAdd"]) fx_world
              = ((0, Some (accountError id err)), mkState fx_world log)
              ∧ writes log = [])
    ∧ (∃ log, run (DeleteGroupMembers fx_client reverse "group2"
                     ["user2"; "entryForErr"; "userToAdd"]) fx_world
              = ((0, Some (accountError id err)), mkState fx_world log)
              ∧ writes log = []).
Proof.
  eapply (batch_fails_fast fx_client reverse "group2"
            ["user2"; "entryForErr"; "userToAdd"] fx_world).
  - apply reverse_Permutation.
  - reflexivity.
  - exists "entryForErr". split; [set_solver|]. vm_compute. eauto.
Defined.

(** C2 on a batch with a user to add, a member and an unknown identifier. *)
Lemma AddGroupMembers_variants_agree_witness :
  let old := run (Legacy.AddGroupMembers fx_client reverse "group2"
                    ["userToAdd"; "user2"; "ghost"]) fx_world in
  let new := run (AddGroupMembers fx_client reverse "group2"
                    ["userToAdd"; "user2"; "ghost"]) fx_world in
  old.1.1 = new.1.1
  ∧ world old.2 = world new.2
  ∧ ((writes (calls old.2) = [] ∧ writes (calls new.2) = [])
     ∨ ∃ dn newMembers,
         writes (calls old.2) = [CallUpdateAttribute dn "member" newMembers]
         ∧ writes (calls new.2) = [CallUpdateAttribute dn "member" newMembers])
  ∧ ("group2" ≠ "" → old = new).
Proof.
  apply (AddGroupMembers_variants_agree fx_client reverse "group2"
           ["userToAdd"; "user2"; "ghost"] fx_world).
  - apply reverse_Permutation.
  - intros id Hin. each_member Hin; vm_compute; reflexivity.
Defined.

(** The directory after [userToAdd] has been added to [group2]. *)
Lemma fx_first_addition :
  (run (AddGroupMembers fx_client reverse "group2" ["userToAdd"; "user2"; "ghost"])
       fx_world).1 = (1, None)
  ∧ world (run (AddGroupMembers fx_client reverse "group2"
                  ["userToAdd"; "user2"; "ghost"]) fx_world).2
    = {| fx_members := [fx_dn "user2"; fx_dn "userToAdd"]; fx_pages := [] |}.
Proof. vm_compute. done. Qed.

(** C3: an addition and a removal with nothing to do, and the same addition
    made twice. *)
Lemma batch_without_qualifying_identifier_witness :
  (∃ log, run (AddGroupMembers fx_client reverse "group2" ["user2"; "ghost"])
              fx_world
          = ((0, None), mkState fx_world log)
          ∧ writes log = [])
  ∧ (∃ log, run (DeleteGroupMembers fx_client reverse "group2"
                   ["userToAdd"; "ghost"]) fx_world
            = ((0, None), mkState fx_world log)
            ∧ writes log = [])
  ∧ (let first := run (AddGroupMembers fx_client reverse "group2"
                         ["userToAdd"; "user2"; "ghost"]) fx_world in
     first.1 = (1, None)
     ∧ ∃ log, run (AddGroupMembers fx_client id "group2"
                     ["userToAdd"; "user2"; "ghost"]) (world first.2)
              = ((0, None), mkState (world first.2) log)
              ∧ writes log = []).
Proof.
  split; [|split].
  - edestruct (batch_without_qualifying_identifier fx_client reverse "group2"
                 ["user2"; "ghost"] fx_world) as (Hadd & _ & _);
      [apply reverse_Permutation|reflexivity|].
    apply Hadd. intros id Hin. each_member Hin.
    + right. eexists. split; [reflexivity|]. vm_compute. reflexivity.
    + left. vm_compute. reflexivity.
  - edestruct (batch_without_qualifying_identifier fx_client reverse "group2"
                 ["userToAdd"; "ghost"] fx_world) as (_ & Hdel & _);
      [apply reverse_Permutation|reflexivity|].
    apply Hdel. intros id Hin. each_member Hin.
    + right. eexists. split; [reflexivity|]. vm_compute. reflexivity.
    + left. vm_compute. reflexivity.
  - cbv zeta. split; [vm_compute; reflexivity|].
    edestruct (batch_without_qualifying_identifier fx_client id "group2"
                 ["userToAdd"; "user2"; "ghost"]
                 {| fx_members := [fx_dn "user2"; fx_dn "userToAdd"];
                    fx_pages := [] |}) as (_ & _ & Hagain);
      [reflexivity|reflexivity|].
    eapply (Hagain reverse fx_world 1).
    + apply reverse_Permutation.
    + vm_compute. reflexivity.
    + intros id dn Hin Hsent. each_member Hin.
      * eexists. split; [reflexivity|]. vm_compute. reflexivity.
      * vm_compute in Hsent. discriminate.
      * vm_compute in Hsent. discriminate.
    + intros id Hin Hsent. each_member Hin.
      * vm_compute in Hsent. discriminate.
      * vm_compute. reflexivity.
      * vm_compute. reflexivity.
Defined.

(** C3 as it is worded does not hold.  In a directory that accepts the
    write and records nothing, two additions of [userToAdd] to [group2] both
    succeed with count 1, in whatever order the workers finish: the second
    call does not return [(0, nil)], and it makes the same write again. *)
Lemma second_addition_as_worded_counterexample :
  let first := run (AddGroupMembers fx_client id "group2" ["userToAdd"; "ghost"])
                   fx_quiet in
  let second := run (AddGroupMembers fx_client id "group2" ["userToAdd"; "ghost"])
                    (world first.2) in
  let again := run (AddGroupMembers fx_client reverse "group2"
                      ["userToAdd"; "ghost"]) (world first.2) in
  first.1 = (1, None)
  ∧ writes (calls first.2)
    = [CallUpdateAttribute (fx_dn "group2") "member"
         [fx_dn "user2"; fx_dn "userToAdd"]]
  ∧ second.1 = (1, None)
  ∧ second.1 ≠ (0, None)
  ∧ writes (calls second.2)
    = [CallUpdateAttribute (fx_dn "group2") "member"
         [fx_dn "user2"; fx_dn "userToAdd"]]
  ∧ again.1 ≠ (0, None)
  ∧ writes (calls again.2) ≠ []
  ∧ ¬ (∃ log, second = ((0, None), mkState (world first.2) log)
              ∧ writes log = []).
Proof.
  cbv zeta. repeat split; try (vm_compute; reflexivity);
    try (vm_compute; discriminate).
  intros (log & Hrun & _). vm_compute in Hrun. discriminate.
Qed.

(** C7: one user added, one user removed. *)
Lemma batch_write_and_count_witness :
  let added := run (AddGroupMembers fx_client id "group2" ["userToAdd"; "ghost"])
                   fx_world in
  let removed := run (DeleteGroupMembers fx_client id "group2" ["ghost"; "user2"])
                     fx_world in
  added.1 = (1, None)
  ∧ writes (calls added.2)
    = [CallUpdateAttribute (fx_dn "group2") "member"
         [fx_dn "user2"; fx_dn "userToAdd"]]
  ∧ removed.1 = (1, None)
  ∧ writes (calls removed.2)
    = [CallUpdateAttribute (fx_dn "group2") "member" []].
Proof.
  cbv zeta.
  destruct (batch_write_and_count fx_client id "group2" ["userToAdd"; "ghost"]
              fx_world (Permutation_refl _)) as [Hadd _].
  destruct (batch_write_and_count fx_client id "group2" ["ghost"; "user2"]
              fx_world (Permutation_refl _)) as [_ Hdel].
  destruct (Hadd (run (AddGroupMembers fx_client id "group2"
                         ["userToAdd"; "ghost"]) fx_world).1
                 (run (AddGroupMembers fx_client id "group2"
                         ["userToAdd"; "ghost"]) fx_world).2)
    as (ga & Hga & Hwa & _ & _ & Hra);
    [reflexivity|vm_compute; discriminate|].
  destruct (Hdel (run (DeleteGroupMembers fx_client id "group2"
                         ["ghost"; "user2"]) fx_world).1
                 (run (DeleteGroupMembers fx_client id "group2"
                         ["ghost"; "user2"]) fx_world).2)
    as (gd & Hgd & Hwd & _ & _ & Hrd);
    [reflexivity|vm_compute; discriminate|].
  vm_compute in Hga. injection Hga as <-.
  vm_compute in Hgd. injection Hgd as <-.
  destruct ((dir_updateAttribute _ _ _ _).1) eqn:Ea in Hra;
    [vm_compute in Ea; discriminate|].
  destruct ((dir_updateAttribute _ _ _ _).1) eqn:Ed in Hrd;
    [vm_compute in Ed; discriminate|].
  destruct Hra as [Hra _].
  split; [|split; [|split]].
  - rewrite Hra. vm_compute. reflexivity.
  - rewrite Hwa. vm_compute. reflexivity.
  - rewrite Hrd. vm_compute. reflexivity.
  - rewrite Hwd. vm_compute. reflexivity.
Defined.

(** C8 on requests that only ask for attributes. *)
Lemma lookup_without_criterion_is_refused_witness :
  let uargs := {| GetUserArgs_Id := ""; GetUserArgs_Dn := "";
                  GetUserArgs_Filter := "";
                  GetUserArgs_Attributes := Some ["mail"];
                  SkipGroupsSearch := true |} in
  let st := mkState fx_world [] in
  GetUser fx_client uargs st
  = ((None, Some "neither of ID, DN or Filter provided"), st)
  ∧ GetGroup fx_client (GetGroupArgs_byId "") st
    = ((None, Some "neither of ID, DN or Filter provided"), st)
  ∧ GetUserArgs_Validate uargs = Some "neither of ID, DN or Filter provided"
  ∧ GetGroupArgs_Validate (GetGroupArgs_byId "")
    = Some "neither of ID, DN or Filter provided".
Proof.
  apply (lookup_without_criterion_is_refused fx_client); reflexivity.
Defined.

(** C9 on two identifiers the directory does not know, and on the
    fixture's [entryForErr], whose search fails. *)
Lemma lookup_of_absent_entry_witness :
  run (GetUser fx_client (GetUserArgs_byId "ghost")) fx_world
  = ((None, None),
     mkState fx_world
       [CallSearchEntry (GetUser_request fx_client (GetUserArgs_byId "ghost"))])
  ∧ run (GetGroup fx_client (GetGroupArgs_byId "nogroup")) fx_world
    = ((None, None),
       mkState fx_world
         [CallSearchEntry (GetGroup_request fx_client (GetGroupArgs_byId "nogroup"))])
  ∧ (dir_searchEntry (GetUser_request fx_client (GetUserArgs_byId "entryForErr"))
                     fx_world = inl "error for tests"
     ∨ ∃ entry req err',
         dir_searchEntry (GetUser_request fx_client (GetUserArgs_byId "entryForErr"))
                         fx_world = inr (Some entry)
         ∧ dir_searchEntries req fx_world = inl err'
         ∧ "error for tests" = "can't get user groups: " +:+ err').
Proof.
  destruct (lookup_of_absent_entry fx_client (GetUserArgs_byId "ghost")
              (GetGroupArgs_byId "nogroup") fx_world eq_refl eq_refl)
    as (Hu & Hg & _ & _).
  destruct (lookup_of_absent_entry fx_client (GetUserArgs_byId "entryForErr")
              (GetGroupArgs_byId "nogroup") fx_world eq_refl eq_refl)
    as (_ & _ & Herr & _).
  split; [|split]; [apply Hu|apply Hg|apply Herr]; vm_compute; reflexivity.
Defined.

(** C10 on a request by DN with characters to escape, and on a request by
    filter that also names a DN. *)
Lemma lookup_filter_precedence_witness :
  (∃ req,
     head (calls (run (GetUser fx_client
                         {| GetUserArgs_Id := "user1";
                            GetUserArgs_Dn := "CN=a(b)*,DC=company,DC=com";
                            GetUserArgs_Filter := "";
                            GetUserArgs_Attributes := None;
                            SkipGroupsSearch := true |}) fx_world).2)
     = Some (CallSearchEntry req)
     ∧ Filter req
       = "(&(objectClass=person)(distinguishedName=CN=a\28b\29\2a,DC=company,DC=com))")
  ∧ (∃ req,
       head (calls (run (GetGroup fx_client
                           {| GetGroupArgs_Id := "group2";
                              GetGroupArgs_Dn := "OU=group2,DC=company,DC=com";
                              GetGroupArgs_Filter := "(cn=a(b)*)";
                              GetGroupArgs_Attributes := None;
                              SkipMembersSearch := true |}) fx_world).2)
       = Some (CallSearchEntry req)
       ∧ Filter req = "(cn=a(b)*)").
Proof.
  edestruct (lookup_filter_precedence fx_client
               {| GetUserArgs_Id := "user1";
                  GetUserArgs_Dn := "CN=a(b)*,DC=company,DC=com";
                  GetUserArgs_Filter := "";
                  GetUserArgs_Attributes := None;
                  SkipGroupsSearch := true |}
               {| GetGroupArgs_Id := "group2";
                  GetGroupArgs_Dn := "OU=group2,DC=company,DC=com";
                  GetGroupArgs_Filter := "(cn=a(b)*)";
                  GetGroupArgs_Attributes := None;
                  SkipMembersSearch := true |}
               fx_world eq_refl eq_refl)
    as [(ureq & Hucall & _ & Hudn & _) (greq & Hgcall & Hgfilter & _)].
  split.
  - exists ureq. split; [exact Hucall|]. rewrite Hudn by done. reflexivity.
  - exists greq. split; [exact Hgcall|]. by rewrite Hgfilter.
Defined.

(** C5 on three users over two pages, asked for with fuel for four. *)
Lemma paged_listing_witness :
  (∃ made,
     run (ListUsers fx_client 4 (GetUserArgs_byId "") 2 "") fx_paged
     = (Returns (Some [entryToUser fx_client (fx_entry "user1");
                       entryToUser fx_client (fx_entry "user2");
                       entryToUser fx_client (fx_entry "userToAdd")], None),
        mkState fx_paged made)
     ∧ length made = 2%nat)
  ∧ (∃ made,
       run (ListGroups fx_client 4 (GetGroupArgs_byId "") 2 "") fx_paged
       = (Returns (Some [entryToListedGroup fx_client (fx_entry "user1");
                         entryToListedGroup fx_client (fx_entry "user2");
                         entryToListedGroup fx_client (fx_entry "userToAdd")], None),
          mkState fx_paged made)
       ∧ length made = 2%nat).
Proof.
  edestruct (paged_listing fx_client (GetUserArgs_byId "") (GetGroupArgs_byId "")
               2 "" fx_paged) as [Hu Hg].
  - eapply Conversation_more; [reflexivity|reflexivity|].
    eapply Conversation_last; reflexivity.
  - eapply Conversation_more; [reflexivity|reflexivity|].
    eapply Conversation_last; reflexivity.
  - destruct (Hu 4%nat) as (made & Hrun & _ & Hlen & _); [simpl; lia|].
    destruct (Hg 4%nat) as (made' & Hrun' & _ & Hlen' & _); [simpl; lia|].
    split; [exists made|exists made']; split; done.
Defined.

(** C5 as it is worded does not hold.  Of two pages, the first answer
    carries its paging control, with a non-empty cookie, behind another
    control: read as specified ("carries no paging control, or ... its
    returned cookie is empty") the conversation has both pages, yet
    [ListUsers] stops after the first answer, whatever the fuel, and the two
    users of the second page are dropped.  And of a directory without
    entries the result is nil, not a list without elements. *)
Lemma paged_listing_as_worded_counterexample :
  Conversation verdict_as_specified
    (ListUsers_request fx_client (GetUserArgs_byId "") "") (uint32 2)
    fx_paged_second []
    [[fx_entry "user1"]; [fx_entry "user2"; fx_entry "userToAdd"]]
    fx_paged_second
  ∧ (∀ fuel,
       (run (ListUsers fx_client fuel (GetUserArgs_byId "") 2 "") fx_paged_second).1
       ≠ Returns (Some (map (entryToUser fx_client)
                          (concat [[fx_entry "user1"];
                                   [fx_entry "user2"; fx_entry "userToAdd"]])),
                  None))
  ∧ (∀ fuel,
       (run (ListUsers fx_client (S fuel) (GetUserArgs_byId "") 2 "")
            fx_paged_second).1
       = Returns (Some [entryToUser fx_client (fx_entry "user1")], None)
       ∧ length (calls (run (ListUsers fx_client (S fuel) (GetUserArgs_byId "") 2 "")
                            fx_paged_second).2) = 1%nat)
  ∧ Conversation verdict_as_specified
      (ListUsers_request fx_client (GetUserArgs_byId "") "") (uint32 2)
      fx_paged_empty [] [[]] fx_paged_empty
  ∧ (∀ fuel,
       (run (ListUsers fx_client (S fuel) (GetUserArgs_byId "") 2 "")
            fx_paged_empty).1
       = Returns (None, None)).
Proof.
  split; [|split; [|split; [|split]]].
  - eapply Conversation_more
      with (sr := {| Entries := [fx_entry "user1"];
                     Res_Controls := Some [ControlOther "1.2.840.113556.1.4.474";
                                           ControlPaging 0 [x01]] |});
      [reflexivity|reflexivity|].
    eapply Conversation_last
      with (sr := {| Entries := [fx_entry "user2"; fx_entry "userToAdd"];
                     Res_Controls := Some [ControlPaging 0 []] |});
      reflexivity.
  - intros [|fuel]; [vm_compute; discriminate|].
    unfold run, ListUsers, mbind, M_bind. simpl. vm_compute. discriminate.
  - intros fuel. unfold run, ListUsers, mbind, M_bind. simpl. split; reflexivity.
  - eapply Conversation_last
      with (sr := {| Entries := []; Res_Controls := None |}); reflexivity.
  - intros fuel. reflexivity.
Qed.

(** A response whose control list is non-nil and empty: the loop indexes
    its first control. *)
Lemma ListUsers_empty_control_list (fuel : nat) :
  (run (ListUsers fx_client (S fuel) (GetUserArgs_byId "") 2 "")
       fx_paged_no_controls).1
  = Panics "index out of range [0] with length 0".
Proof. reflexivity. Qed.

(** C6, on the code.  Groups are configured to be identified by [cn], users
    by [sAMAccountName]; the directory lists one group, whose [cn] is
    [admins] and which has no [sAMAccountName].  [ListGroups] gives the
    group the id [""]: it reads the id attribute configured for users.
    [GetGroup] on the same entry gives it the id [admins]. *)
Theorem ListGroups_reads_the_users_id_attribute :
  Groups_IdAttribute (Groups (Client_Config fx_client_cn)) = "cn"
  ∧ Users_IdAttribute (Users (Client_Config fx_client_cn)) = "sAMAccountName"
  ∧ GetAttributeValue fx_admins "cn" = "admins"
  ∧ (∃ groups,
       (run (ListGroups fx_client_cn 1 (GetGroupArgs_byId "") 2 "")
            fx_paged_groups).1 = Returns (Some groups, None)
       ∧ map Group_DN groups = ["CN=admins,DC=company,DC=com"]
       ∧ map Group_Id groups = [""])
  ∧ (∃ group,
       (run (GetGroup fx_client_cn (GetGroupArgs_byId "admins")) fx_paged_groups).1
       = (Some group, None)
       ∧ Group_DN group = "CN=admins,DC=company,DC=com"
       ∧ Group_Id group = "admins").
Proof.
  split; [done|]. split; [done|]. split; [done|]. split.
  - eexists. split; [reflexivity|]. split; reflexivity.
  - eexists. split; [reflexivity|]. split; reflexivity.
Qed.

(** * Further properties of the sources *)

(** ** The relation lists of a record *)

Lemma GroupsId_map (u : User) : GroupsId u = map UserGroup_Id (User_Groups u).
Proof. unfold GroupsId. by rewrite foldl_snoc. Qed.

Lemma GroupsDn_map (u : User) : GroupsDn u = map UserGroup_DN (User_Groups u).
Proof. unfold GroupsDn. by rewrite foldl_snoc. Qed.

Lemma MembersId_map (g : Group) : MembersId g = map GroupMember_Id (Group_Members g).
Proof. unfold MembersId. by rewrite foldl_snoc. Qed.

Lemma IsGroupMember_iff (u : User) (groupId : string) :
  IsGroupMember u groupId = true ↔ groupId ∈ map UserGroup_Id (User_Groups u).
Proof.
  unfold IsGroupMember. rewrite existsb_exists. split.
  - intros (g & Hg & Heq). apply bool_decide_eq_true in Heq. subst.
    apply list_elem_of_In, in_map, Hg.
  - intros Hin. apply list_elem_of_In, in_map_iff in Hin as (g & Heq & Hg).
    exists g. split; [done|]. by apply bool_decide_eq_true.
Qed.

(** X1. [IsGroupMember] answers whether the identifier is among the group
    identifiers [GroupsId] lists; in particular a user without groups is a
    member of no group. *)
Theorem IsGroupMember_GroupsId (u : User) (groupId : string) :
  (IsGroupMember u groupId = true ↔ groupId ∈ GroupsId u)
  ∧ (User_Groups u = [] → IsGroupMember u groupId = false).
Proof.
  split; [|intros Hnil; unfold IsGroupMember; by rewrite Hnil].
  rewrite GroupsId_map. apply IsGroupMember_iff.
Qed.

(** ** The attribute map of a record *)

Lemma entryAttributes_loop (value : string → string) (attrs : list EntryAttribute)
    (m : gmap string string) (name : string) :
  foldl (λ m a, <[Name a := value (Name a)]> m) m attrs !! name
  = if decide (name ∈ map Name attrs) then Some (value name) else m !! name.
Proof.
  revert m. induction attrs as [|a attrs IH]; intros m.
  - case_decide as Hin; [by apply elem_of_nil in Hin|done].
  - change (foldl (λ m a, <[Name a := value (Name a)]> m)
              (<[Name a := value (Name a)]> m) attrs !! name
            = if decide (name ∈ Name a :: map Name attrs)
              then Some (value name) else m !! name).
    rewrite IH. destruct (decide (name ∈ map Name attrs)) as [Hin|Hnin].
    + rewrite decide_True; [done|]. by right.
    + destruct (decide (Name a = name)) as [<-|Hne].
      * rewrite decide_True by left. by rewrite lookup_insert_eq.
      * rewrite decide_False.
        -- by rewrite lookup_insert_ne.
        -- intros Hin. apply elem_of_cons in Hin as [?|?]; [congruence|done].
Qed.

Lemma entryAttributes_at (entry : Entry) (name : string) :
  entryAttributes entry !! name
  = if decide (name ∈ map Name (Entry_Attributes entry))
    then Some (GetAttributeValue entry name)
    else None.
Proof.
  unfold entryAttributes. rewrite entryAttributes_loop.
  by rewrite lookup_empty.
Qed.

(** X2. The attribute map built for a record has as keys exactly the names
    of the entry's attributes, and maps each name to the first value of the
    first attribute of that name (the empty string when that attribute has
    no value): values after the first, and repeated attributes after the
    first, are not kept. *)
Theorem entryAttributes_lookup (entry : Entry) (name : string) :
  (entryAttributes entry !! name
   = if decide (name ∈ map Name (Entry_Attributes entry))
     then Some (GetAttributeValue entry name)
     else None)
  ∧ (∀ a, a ∈ Entry_Attributes entry →
       ∃ first,
         first ∈ Entry_Attributes entry ∧ Name first = Name a
         ∧ entryAttributes entry !! Name a = Some (default "" (head (Values first)))).
Proof.
  split; [apply entryAttributes_at|].
  intros a Ha. rewrite entryAttributes_at.
  rewrite decide_True by (apply list_elem_of_In, in_map, list_elem_of_In, Ha).
  unfold GetAttributeValue.
  assert (∃ first, first ∈ Entry_Attributes entry ∧ Name first = Name a
                   ∧ GetAttributeValues (Entry_Attributes entry) (Name a)
                     = Values first) as (first & Hin & Hname & ->).
  { induction (Entry_Attributes entry) as [|b attrs IH]; simpl.
    - by apply elem_of_nil in Ha.
    - destruct (decide (Name b = Name a)) as [Heq|Hne].
      + exists b. split; [left|done].
      + apply elem_of_cons in Ha as [->|Ha]; [done|].
        destruct (IH Ha) as (first & Hin & Hname & Hvals).
        exists first. split; [by right|done]. }
  exists first. split; [done|]. split; [done|]. by destruct (Values first).
Qed.

Lemma GetAttributeValues_absent (attrs : list EntryAttribute) (name : string) :
  name ∉ map Name attrs → GetAttributeValues attrs name = [].
Proof.
  induction attrs as [|a attrs IH]; intros Hnin; simpl; [done|].
  rewrite decide_False.
  - apply IH. intros Hin. apply Hnin. by right.
  - intros Heq. apply Hnin. rewrite <- Heq. left.
Qed.

Lemma GetStringAttribute_range (iteration : list (string * GoValue)) (name : string) :
  NoDup iteration.*1 →
  (∀ val, (name, val) ∈ iteration →
     GetStringAttribute iteration name
     = match val with GoString s => s | GoOther => "" end)
  ∧ ((∀ val, (name, val) ∉ iteration) → GetStringAttribute iteration name = "").
Proof.
  induction iteration as [|[att v] rest IH]; intros Hnd.
  { split; [intros val Hin; by apply elem_of_nil in Hin|done]. }
  apply NoDup_cons in Hnd as [Hfresh Hnd]. specialize (IH Hnd) as [IHin IHout].
  assert (att = name → ∀ val, (name, val) ∉ rest) as Hrest.
  { intros <- val Hin. apply Hfresh.
    apply (list_elem_of_fmap_2 fst) in Hin. exact Hin. }
  simpl. split.
  - intros val Hin. apply elem_of_cons in Hin as [[= <- <-]|Hin].
    + rewrite decide_True by done. destruct val; [done|].
      apply IHout. by apply Hrest.
    + destruct (decide (att = name)) as [Heq|Hne]; [|by apply IHin].
      by destruct (Hrest Heq val).
  - intros Hout. destruct (decide (att = name)) as [<-|Hne].
    + destruct (Hout v). left.
    + apply IHout. intros val Hin. apply (Hout val). by right.
Qed.

Lemma GetStringAttribute_at (attributes : gmap string GoValue)
    (iteration : list (string * GoValue)) (name : string) :
  iteration ≡ₚ map_to_list attributes →
  GetStringAttribute iteration name
  = match attributes !! name with
    | Some (GoString s) => s
    | _ => ""
    end.
Proof.
  intros Hperm.
  assert (NoDup iteration.*1) as Hnd.
  { rewrite Hperm. apply NoDup_fst_map_to_list. }
  destruct (GetStringAttribute_range iteration name Hnd) as [Hin Hout].
  destruct (attributes !! name) as [val|] eqn:Hlook.
  - rewrite (Hin val); [by destruct val|].
    rewrite Hperm. by apply elem_of_map_to_list.
  - apply Hout. intros val Hval. rewrite Hperm in Hval.
    apply elem_of_map_to_list in Hval. congruence.
Qed.

(** X3. [GetStringAttribute] does not depend on the order in which the
    attribute map is ranged over: whatever that order, it returns the value
    held under the name when that value is a string, and the empty string
    when the name is not a key or its value is not a string. *)
Theorem GetStringAttribute_lookup (attributes : gmap string GoValue)
    (iteration : list (string * GoValue)) (name : string) :
  iteration ≡ₚ map_to_list attributes →
  GetStringAttribute iteration name
  = match attributes !! name with
    | Some (GoString s) => s
    | _ => ""
    end.
Proof. apply GetStringAttribute_at. Qed.

(** X4. Round trip.  For a record built from an entry, [GetStringAttribute]
    of a name is the first value of the entry's first attribute of that
    name, and the empty string when the entry has no such attribute or the
    attribute has no value, in whatever order the map is ranged over. *)
Theorem GetStringAttribute_of_entry (entry : Entry)
    (iteration : list (string * GoValue)) (name : string) :
  iteration ≡ₚ map_to_list (GoString <$> entryAttributes entry) →
  GetStringAttribute iteration name = GetAttributeValue entry name.
Proof.
  intros Hperm. rewrite (GetStringAttribute_at _ _ _ Hperm).
  rewrite lookup_fmap, entryAttributes_at.
  case_decide as Hin; [done|]. simpl.
  unfold GetAttributeValue. by rewrite GetAttributeValues_absent.
Qed.

(** ** More on the point lookups *)

Section MoreLookups.
Context `{Runtime} {World : Type} `{!Directory World}.
Variable cl : Client.

Lemma getUserGroups_run (dn : string) (w : World) :
  run (getUserGroups cl dn) w
  = (match dir_searchEntries (getUserGroups_request cl dn) w with
     | inl err => ([], Some err)
     | inr entries =>
         (map (λ e, {| UserGroup_DN := Entry_DN e;
                       UserGroup_Id := GetAttributeValue e
                         (Groups_IdAttribute (Groups (Client_Config cl))) |})
              entries, None)
     end,
     mkState w [CallSearchEntries (getUserGroups_request cl dn)]).
Proof.
  unfold getUserGroups, run, mbind, M_bind, searchEntries. simpl.
  fold (getUserGroups_request cl dn).
  destruct (dir_searchEntries _ w) as [err|entries]; [done|].
  unfold mret, M_ret. by rewrite foldl_snoc.
Qed.

Lemma getGroupMembers_run (dn : string) (w : World) :
  run (getGroupMembers cl dn) w
  = (match dir_searchEntries (getGroupMembers_request cl dn) w with
     | inl err => ([], Some err)
     | inr entries =>
         (map (λ e, {| GroupMember_DN := Entry_DN e;
                       GroupMember_Id := GetAttributeValue e
                         (Groups_IdAttribute (Groups (Client_Config cl))) |})
              entries, None)
     end,
     mkState w [CallSearchEntries (getGroupMembers_request cl dn)]).
Proof.
  unfold getGroupMembers, run, mbind, M_bind, searchEntries. simpl.
  fold (getGroupMembers_request cl dn).
  destruct (dir_searchEntries _ w) as [err|entries]; [done|].
  unfold mret, M_ret. by rewrite foldl_snoc.
Qed.

(** X5. What a found user is.  When the request passes validation, does not
    skip the groups, the search finds [entry] and the search for the groups
    of the entry's DN returns [groups], [GetUser] returns a user with the
    entry's DN, the first value of the users' id attribute as id, one group
    per returned group entry, in order; and the user is a member of a group
    identifier, for [IsGroupMember], exactly when one of the returned group
    entries has it as first value of the groups' id attribute. *)
Theorem GetUser_found (args : GetUserArgs) (w : World) (entry : Entry)
    (groups : list Entry) :
  GetUserArgs_Validate args = None →
  SkipGroupsSearch args = false →
  dir_searchEntry (GetUser_request cl args) w = inr (Some entry) →
  dir_searchEntries (getUserGroups_request cl (Entry_DN entry)) w = inr groups →
  ∃ user,
    run (GetUser cl args) w
    = ((Some user, None),
       mkState w [CallSearchEntry (GetUser_request cl args);
                  CallSearchEntries (getUserGroups_request cl (Entry_DN entry))])
    ∧ User_DN user = Entry_DN entry
    ∧ User_Id user
      = GetAttributeValue entry (Users_IdAttribute (Users (Client_Config cl)))
    ∧ User_Attributes user = entryAttributes entry
    ∧ GroupsDn user = map Entry_DN groups
    ∧ GroupsId user
      = map (λ e, GetAttributeValue e (Groups_IdAttribute (Groups (Client_Config cl))))
            groups
    ∧ ∀ groupId,
        IsGroupMember user groupId = true
        ↔ ∃ e, e ∈ groups
               ∧ GetAttributeValue e (Groups_IdAttribute (Groups (Client_Config cl)))
                 = groupId.
Proof.
  intros Hv Hskip Hentry Hgroups.
  rewrite (GetUser_run cl args w Hv), Hentry, Hskip. cbv zeta.
  rewrite getUserGroups_run, Hgroups. simpl.
  eexists. split; [reflexivity|]. simpl.
  split; [done|]. split; [done|]. split; [done|].
  assert (∀ u : User, User_Groups u
            = map (λ e, {| UserGroup_DN := Entry_DN e;
                           UserGroup_Id := GetAttributeValue e
                             (Groups_IdAttribute (Groups (Client_Config cl))) |})
                  groups →
          GroupsId u
          = map (λ e, GetAttributeValue e
                        (Groups_IdAttribute (Groups (Client_Config cl)))) groups)
    as Hids.
  { intros u Hu. rewrite GroupsId_map, Hu, map_map. done. }
  split; [|split].
  - rewrite GroupsDn_map. simpl. by rewrite map_map.
  - by apply Hids.
  - intros groupId. rewrite IsGroupMember_iff. simpl. rewrite map_map.
    rewrite list_elem_of_In, in_map_iff.
    split; intros (e & He1 & He2); exists e; split;
      try done; by apply list_elem_of_In.
Qed.

(** X6. What a found group is.  When the request passes validation, does
    not skip the members, the search finds [entry] and the search for the
    members of the entry's DN returns [members], [GetGroup] returns a group
    with the entry's DN, the first value of the groups' id attribute as id,
    and one member per returned entry, in order, [MembersDn] listing their
    DNs and [MembersId] the first values of their groups' id attribute. *)
Theorem GetGroup_found (args : GetGroupArgs) (w : World) (entry : Entry)
    (members : list Entry) :
  GetGroupArgs_Validate args = None →
  SkipMembersSearch args = false →
  dir_searchEntry (GetGroup_request cl args) w = inr (Some entry) →
  dir_searchEntries (getGroupMembers_request cl (Entry_DN entry)) w = inr members →
  ∃ group,
    run (GetGroup cl args) w
    = ((Some group, None),
       mkState w [CallSearchEntry (GetGroup_request cl args);
                  CallSearchEntries (getGroupMembers_request cl (Entry_DN entry))])
    ∧ Group_DN group = Entry_DN entry
    ∧ Group_Id group
      = GetAttributeValue entry (Groups_IdAttribute (Groups (Client_Config cl)))
    ∧ Group_Attributes group = entryAttributes entry
    ∧ MembersDn group = map Entry_DN members
    ∧ MembersId group
      = map (λ e, GetAttributeValue e (Groups_IdAttribute (Groups (Client_Config cl))))
            members.
Proof.
  intros Hv Hskip Hentry Hmembers.
  rewrite (GetGroup_run cl args w Hv), Hentry, Hskip. cbv zeta.
  rewrite getGroupMembers_run, Hmembers. simpl.
  eexists. split; [reflexivity|]. simpl.
  split; [done|]. split; [done|]. split; [done|]. split.
  - rewrite MembersDn_map. simpl. by rewrite map_map.
  - rewrite MembersId_map. simpl. by rewrite map_map.
Qed.

Lemma GetAttributeValue_absent (e : Entry) (name : string) :
  name ∉ map Name (Entry_Attributes e) → GetAttributeValue e name = "".
Proof.
  intros Hnin. unfold GetAttributeValue. by rewrite GetAttributeValues_absent.
Qed.

(** X7. The identifiers of the members.  [getGroupMembers] asks the
    directory for the users' id attribute and reads the groups' id
    attribute off the answers.  So when the two are configured differently
    and the directory answers with the requested attributes only, every
    member comes back with its DN and an empty identifier. *)
Theorem getGroupMembers_blank_ids (dn : string) (w : World) (entries : list Entry) :
  Groups_IdAttribute (Groups (Client_Config cl))
  ≠ Users_IdAttribute (Users (Client_Config cl)) →
  dir_searchEntries (getGroupMembers_request cl dn) w = inr entries →
  (∀ e a, e ∈ entries → a ∈ Entry_Attributes e →
     Name a ∈ Req_Attributes (getGroupMembers_request cl dn)) →
  ∃ members,
    result_of (getGroupMembers cl dn) w = (members, None)
    ∧ map GroupMember_DN members = map Entry_DN entries
    ∧ ∀ m, m ∈ members → GroupMember_Id m = "".
Proof.
  intros Hne Hsearch Honly. unfold result_of.
  rewrite getGroupMembers_run, Hsearch. simpl.
  eexists. split; [reflexivity|]. split; [by rewrite map_map|].
  intros m Hm. apply list_elem_of_In, in_map_iff in Hm as (e & <- & He).
  simpl. apply GetAttributeValue_absent. intros Hin.
  apply list_elem_of_In, in_map_iff in Hin as (a & Hname & Ha).
  apply list_elem_of_In in He, Ha.
  pose proof (Honly e a He Ha) as Hreq. simpl in Hreq.
  apply elem_of_cons in Hreq as [Heq|Hnil]; [congruence|].
  by apply elem_of_nil in Hnil.
Qed.

Lemma GetUser_refused_run (args : GetUserArgs) (w : World) (err : error) :
  GetUserArgs_Validate args = Some err →
  run (GetUser cl args) w = ((None, Some err), mkState w []).
Proof. intros Hv. unfold GetUser. by rewrite Hv. Qed.

Lemma GetGroup_refused_run (args : GetGroupArgs) (w : World) (err : error) :
  GetGroupArgs_Validate args = Some err →
  run (GetGroup cl args) w = ((None, Some err), mkState w []).
Proof. intros Hv. unfold GetGroup. by rewrite Hv. Qed.

Lemma GetUser_calls (args : GetUserArgs) (w : World) :
  (length (calls (run (GetUser cl args) w).2) ≤ 2)%nat
  ∧ (SkipGroupsSearch args = true →
     (length (calls (run (GetUser cl args) w).2) ≤ 1)%nat).
Proof.
  destruct (GetUserArgs_Validate args) as [err|] eqn:Hv.
  { rewrite (GetUser_refused_run args w err Hv). simpl. lia. }
  rewrite (GetUser_run cl args w Hv).
  destruct (dir_searchEntry _ w) as [err|[entry|]]; simpl; try lia.
  destruct (SkipGroupsSearch args); simpl; [lia|].
  rewrite getUserGroups_run. simpl. split; [lia|done].
Qed.

Lemma GetGroup_calls (args : GetGroupArgs) (w : World) :
  (length (calls (run (GetGroup cl args) w).2) ≤ 2)%nat
  ∧ (SkipMembersSearch args = true →
     (length (calls (run (GetGroup cl args) w).2) ≤ 1)%nat).
Proof.
  destruct (GetGroupArgs_Validate args) as [err|] eqn:Hv.
  { rewrite (GetGroup_refused_run args w err Hv). simpl. lia. }
  rewrite (GetGroup_run cl args w Hv).
  destruct (dir_searchEntry _ w) as [err|[entry|]]; simpl; try lia.
  destruct (SkipMembersSearch args); simpl; [lia|].
  rewrite getGroupMembers_run. simpl. split; [lia|done].
Qed.

(** X8. The point lookups only read.  In whatever state it is called,
    [GetUser] (and [GetGroup]) leaves the directory as it found it, adds to
    the log at most two directory calls, none of them a write, and at most
    one when the relation search is skipped. *)
Theorem lookups_only_read (uargs : GetUserArgs) (gargs : GetGroupArgs)
    (st : State World) :
  (∃ made,
     (GetUser cl uargs st).2 = mkState (world st) (calls st ++ made)
     ∧ writes made = []
     ∧ (length made ≤ 2)%nat
     ∧ (SkipGroupsSearch uargs = true → (length made ≤ 1)%nat))
  ∧ (∃ made,
       (GetGroup cl gargs st).2 = mkState (world st) (calls st ++ made)
       ∧ writes made = []
       ∧ (length made ≤ 2)%nat
       ∧ (SkipMembersSearch gargs = true → (length made ≤ 1)%nat)).
Proof.
  split.
  - exists (calls (run (GetUser cl uargs) (world st)).2).
    rewrite (Reads_at _ st (Reads_GetUser cl uargs)). simpl.
    split; [done|]. split; [apply Reads_run, Reads_GetUser|].
    apply GetUser_calls.
  - exists (calls (run (GetGroup cl gargs) (world st)).2).
    rewrite (Reads_at _ st (Reads_GetGroup cl gargs)). simpl.
    split; [done|]. split; [apply Reads_run, Reads_GetGroup|].
    apply GetGroup_calls.
Qed.

End MoreLookups.

(** ** More on the membership batches *)

Section MoreMembership.
Context `{Runtime} {World : Type} `{!Directory World}.
Variable cl : Client.

(** X9. The two variants of [GetGroup].  A request of the earlier variant
    with an [Id] or a [Dn] is served exactly as the request of the later one
    with the same fields and no [Filter]: same result, same directory calls.
    A request with neither is refused by both without a directory call, in
    different words, and the earlier variant refuses a nil request. *)
Theorem GetGroup_variants_agree (id dn : string) (attributes : option (list string))
    (skip : bool) (st : State World) :
  let old := Legacy.GetGroup cl
               (Some {| Legacy.Id := id; Legacy.Dn := dn;
                        Legacy.Attributes := attributes;
                        Legacy.SkipMembersSearch := skip |}) in
  let new := GetGroup cl {| GetGroupArgs_Id := id; GetGroupArgs_Dn := dn;
                            GetGroupArgs_Filter := "";
                            GetGroupArgs_Attributes := attributes;
                            SkipMembersSearch := skip |} in
  (id ≠ "" ∨ dn ≠ "" → old st = new st)
  ∧ (id = "" → dn = "" →
     old st = ((None, Some "neither of ID of DN provided"), st)
     ∧ new st = ((None, Some "neither of ID, DN or Filter provided"), st))
  ∧ Legacy.GetGroup cl None st = ((None, Some "nil request"), st).
Proof.
  cbv zeta. split; [|split; [|done]].
  - intros Hsome.
    unfold Legacy.GetGroup, GetGroup, Legacy.Validate, GetGroupArgs_Validate.
    simpl.
    rewrite (decide_False (P := id = "" ∧ dn = "")) by tauto.
    rewrite (decide_False (P := id = "" ∧ dn = "" ∧ "" = "")) by tauto.
    unfold GetGroup_request, GetGroup_filter. simpl. reflexivity.
  - intros -> ->. done.
Qed.

(** X10. No group, no batch.  If the lookup of the group fails,
    [AddGroupMembers] and [DeleteGroupMembers] return count 0 with that
    error under the prefix [can't get group: ]; if it finds no group they
    return count 0 with the error naming the group identifier.  Either way
    no requested identifier is looked up and nothing is written: the only
    directory calls are those of the group lookup.  For the empty group
    identifier there is no directory call at all. *)
Theorem batch_without_group (sched : Schedule) (groupId : string)
    (ids : list string) (w : World) :
  let made := calls (run (GetGroup cl (GetGroupArgs_byId groupId)) w).2 in
  (∀ found err, lookupGroup cl groupId w = (found, Some err) →
     run (AddGroupMembers cl sched groupId ids) w
     = ((0, Some ("can't get group: " +:+ err)), mkState w made)
     ∧ run (DeleteGroupMembers cl sched groupId ids) w
       = ((0, Some ("can't get group: " +:+ err)), mkState w made))
  ∧ (lookupGroup cl groupId w = (None, None) →
     run (AddGroupMembers cl sched groupId ids) w
     = ((0, Some ("group '" +:+ groupId +:+ "' not found by ID")), mkState w made)
     ∧ run (DeleteGroupMembers cl sched groupId ids) w
       = ((0, Some ("group '" +:+ groupId +:+ "' not found by ID")), mkState w made))
  ∧ writes made = [] ∧ (length made ≤ 2)%nat
  ∧ (groupId = "" →
     run (AddGroupMembers cl sched groupId ids) w
     = ((0, Some "can't get group: neither of ID, DN or Filter provided"),
        mkState w [])).
Proof.
  cbv zeta. split; [|split; [|split; [|split]]].
  - intros found err Hg.
    rewrite AddGroupMembers_run, DeleteGroupMembers_run, Hg.
    by destruct found.
  - intros Hg. rewrite AddGroupMembers_run, DeleteGroupMembers_run, Hg. done.
  - apply Reads_run, Reads_GetGroup.
  - apply GetGroup_calls.
  - intros ->. reflexivity.
Qed.

Lemma Legacy_toAdd (groupId : string) (ids : list string) (w : World) :
  ch_of (map (λ id, result_of (Legacy.addWorker cl groupId id) w) ids)
  = omap (toAddOf cl groupId w) ids.
Proof.
  rewrite ch_of_map. apply list_omap_ext, Forall_Forall2_diag, Forall_forall.
  intros id _. unfold toAddOf.
  rewrite Legacy_addWorker_result, addWorker_result.
  destruct (lookupUser cl id w) as [[user|] [err|]]; try done.
Qed.

(** X11. The earlier variant skips a failed lookup.  For a non-empty group
    identifier and a group that is found, the [AddGroupMembers] of part_000
    never returns the error of a member lookup: an identifier whose lookup
    fails is found nothing to add, like one that resolves to no record; with
    nothing to add the call returns [(0, nil)] and writes nothing, and
    otherwise it makes the one write of the member DNs followed by the DNs
    found, and returns their number, or 0 with the error of the write. *)
Theorem Legacy_AddGroupMembers_skips_failures (sched : Schedule)
    (groupId : string) (ids : list string) (w : World) (group : Group) :
  groupId ≠ "" →
  lookupGroup cl groupId w = (Some group, None) →
  let toAdd := omap (toAddOf cl groupId w) (sched ids) in
  let newMembers := MembersDn group ++ toAdd in
  let upd := dir_updateAttribute (Group_DN group) "member" newMembers w in
  (∀ id, is_Some (lookupUser cl id w).2 → toAddOf cl groupId w id = None)
  ∧ ∃ log,
      run (Legacy.AddGroupMembers cl sched groupId ids) w
      = (if decide (toAdd = []) then ((0, None), mkState w log)
         else (match upd.1 with
               | Some err => (0, Some err)
               | None => (Z.of_nat (length toAdd), None)
               end, mkState upd.2 log))
      ∧ writes log
        = if decide (toAdd = []) then []
          else [CallUpdateAttribute (Group_DN group) "member" newMembers].
Proof.
  intros Hne Hgroup. cbv zeta. split.
  { intros id [err Herr]. unfold toAddOf. rewrite addWorker_result.
    destruct (lookupUser cl id w) as [[user|] [e|]]; simpl in *; done. }
  rewrite Legacy_AddGroupMembers_run by done. rewrite Hgroup. cbv zeta.
  rewrite Legacy_toAdd.
  pose proof (Reads_run _ w (Reads_GetGroup cl (GetGroupArgs_byId groupId)))
    as [_ HG].
  pose proof (Reads_run _ w (Reads_runWorkers (Legacy.addWorker cl groupId)
                               (sched ids) (Reads_Legacy_addWorker cl groupId)))
    as [_ HW].
  destruct (omap (toAddOf cl groupId w) (sched ids)) as [|dn dns] eqn:Hadd.
  - rewrite decide_True by done. eexists. split; [done|].
    by rewrite writes_app, HG, HW.
  - rewrite decide_False by done. eexists. split; [done|].
    by rewrite !writes_app, HG, HW.
Qed.

Lemma Reads_Legacy_delWorker (groupId userId : string) :
  Reads (Legacy.delWorker cl groupId userId).
Proof.
  apply Reads_bind; [apply Reads_GetUser|].
  intros [[user|] [err|]]; try apply Reads_ret.
  destruct (negb (IsGroupMember user groupId)); apply Reads_ret.
Qed.

Lemma Legacy_delWorker_agrees (groupId userId : string) (w : World) :
  (lookupUser cl userId w).2 = None →
  run (Legacy.delWorker cl groupId userId) w = run (delWorker cl groupId userId) w.
Proof.
  intros Hok. unfold run, Legacy.delWorker, delWorker.
  rewrite !bind_at by apply Reads_GetUser. simpl.
  unfold lookupUser in Hok.
  destruct (result_of (GetUser cl _) w) as [[user|] [err|]]; simpl in *; done.
Qed.

Lemma Legacy_delWorkers_agree (groupId : string) (ids : list string) (w : World) :
  (∀ id, id ∈ ids → (lookupUser cl id w).2 = None) →
  run (runWorkers (Legacy.delWorker cl groupId) ids) w
  = run (runWorkers (delWorker cl groupId) ids) w.
Proof.
  induction ids as [|id ids IH]; intros Hok; [done|].
  unfold run in *. simpl.
  rewrite bind_at by apply Reads_Legacy_delWorker.
  rewrite (bind_at (delWorker cl groupId id)) by apply Reads_delWorker.
  simpl. unfold result_of.
  rewrite (Legacy_delWorker_agrees groupId id w) by (apply Hok; left).
  rewrite bind_at by (apply Reads_runWorkers, Reads_Legacy_delWorker).
  rewrite (bind_at (runWorkers (delWorker cl groupId) ids))
    by (apply Reads_runWorkers, Reads_delWorker).
  simpl. unfold result_of, run. rewrite IH; [done|].
  intros id' Hin. apply Hok. by right.
Qed.

Lemma no_errors_errCh_del (groupId : string) (ids : list string) (w : World) :
  (∀ id, id ∈ ids → (lookupUser cl id w).2 = None) →
  errCh_of (map (λ id, result_of (delWorker cl groupId id) w) ids) = [].
Proof.
  intros Hok. rewrite errCh_delWorker. apply omap_all_None.
  intros id Hin. by rewrite (Hok id Hin).
Qed.

Section WithGenerigo.
Context `{Generigo}.
Hypothesis StringInSlice_decides :
  ∀ s slice, StringInSlice s slice = true ↔ s ∈ slice.

Lemma Legacy_popDelGroupMembers_filter (g : Group) (toDel : list string) :
  Legacy.popDelGroupMembers g toDel = popDelGroupMembers g toDel.
Proof.
  unfold Legacy.popDelGroupMembers, popDelGroupMembers.
  assert (∀ dn, StringInSlice dn toDel = slices_Contains toDel dn) as Hsame.
  { intros dn. destruct (slices_Contains toDel dn) eqn:Hc.
    - by apply StringInSlice_decides, slices_Contains_spec.
    - destruct (StringInSlice dn toDel) eqn:Hs; [|done].
      apply StringInSlice_decides, slices_Contains_spec in Hs. congruence. }
  assert (∀ members acc,
            foldl (λ result memberDN,
                     if negb (StringInSlice memberDN toDel)
                     then result ++ [memberDN] else result) acc members
            = foldl (λ result memberDN,
                       if negb (slices_Contains toDel memberDN)
                       then result ++ [memberDN] else result) acc members)
    as Hloop.
  { induction members as [|dn dns IH]; intros acc; [done|].
    simpl. rewrite Hsame. apply IH. }
  apply Hloop.
Qed.

(** X12. The two variants of [DeleteGroupMembers].  With a
    [StringInSlice] that decides membership of a slice, for a non-empty
    group identifier and a batch none of whose lookups fails, the variant of
    part_000 and the one of group.go, their workers finishing in the same
    order, do the same: same result, same directory, same log of directory
    calls. *)
Theorem DeleteGroupMembers_variants_agree (sched : Schedule) (groupId : string)
    (ids : list string) (w : World) :
  sched ids ≡ₚ ids →
  groupId ≠ "" →
  (∀ id, id ∈ ids → (lookupUser cl id w).2 = None) →
  run (Legacy.DeleteGroupMembers cl sched groupId ids) w
  = run (DeleteGroupMembers cl sched groupId ids) w.
Proof.
  intros Hperm Hne Hok.
  assert (∀ id, id ∈ sched ids → (lookupUser cl id w).2 = None) as Hok'.
  { intros id Hin. apply Hok. by rewrite <- Hperm. }
  unfold run, Legacy.DeleteGroupMembers, DeleteGroupMembers.
  rewrite (Legacy_GetGroup_byId cl groupId Hne).
  rewrite !bind_at by apply Reads_GetGroup. simpl.
  destruct (result_of (GetGroup cl _) w) as [[group|] [err|]]; try done.
  rewrite bind_at by (apply Reads_runWorkers, Reads_Legacy_delWorker).
  rewrite (bind_at (runWorkers (delWorker cl groupId) (sched ids)))
    by (apply Reads_runWorkers, Reads_delWorker).
  simpl. unfold result_of.
  rewrite (Legacy_delWorkers_agree groupId (sched ids) w Hok').
  fold (result_of (runWorkers (delWorker cl groupId) (sched ids)) w).
  rewrite result_of_runWorkers by apply Reads_delWorker.
  rewrite (no_errors_errCh_del groupId (sched ids) w Hok').
  case_decide; [done|].
  by rewrite Legacy_popDelGroupMembers_filter.
Qed.

End WithGenerigo.

(** X13. The order in which the workers finish does not show in a removal.
    For a batch none of whose lookups fails, any two orders give
    [DeleteGroupMembers] the same result, the same write (if any) and the
    same directory afterwards: the written list keeps the order of the
    group's members whatever the order of the DNs found to remove. *)
Theorem DeleteGroupMembers_order_irrelevant (first second : Schedule)
    (groupId : string) (ids : list string) (w : World) :
  first ids ≡ₚ ids → second ids ≡ₚ ids →
  (∀ id, id ∈ ids → (lookupUser cl id w).2 = None) →
  let a := run (DeleteGroupMembers cl first groupId ids) w in
  let b := run (DeleteGroupMembers cl second groupId ids) w in
  a.1 = b.1 ∧ world a.2 = world b.2 ∧ writes (calls a.2) = writes (calls b.2).
Proof.
  intros H1 H2 Hok. cbv zeta.
  assert (omap (toDelOf cl groupId w) (first ids)
          ≡ₚ omap (toDelOf cl groupId w) (second ids)) as Hperm.
  { apply omap_Permutation. by rewrite H1, H2. }
  rewrite !DeleteGroupMembers_run. cbv zeta.
  destruct (lookupGroup cl groupId w) as [[group|] [e|]]; try done.
  rewrite (no_errors_errCh_del groupId (first ids) w)
    by (intros id Hin; apply Hok; by rewrite <- H1).
  rewrite (no_errors_errCh_del groupId (second ids) w)
    by (intros id Hin; apply Hok; by rewrite <- H2).
  rewrite !toDel_delWorker.
  pose proof (lookups_write_nothing cl groupId w) as HG.
  pose proof (workers_write_nothing (delWorker cl groupId) (first ids) w
                (Reads_delWorker cl groupId)) as HW1.
  pose proof (workers_write_nothing (delWorker cl groupId) (second ids) w
                (Reads_delWorker cl groupId)) as HW2.
  destruct (omap _ (first ids)) as [|da dsa] eqn:Ea;
    destruct (omap _ (second ids)) as [|db dsb] eqn:Eb.
  - simpl. by rewrite !writes_app, HG, HW1, HW2.
  - by apply Permutation_nil_cons in Hperm.
  - symmetry in Hperm. by apply Permutation_nil_cons in Hperm.
  - assert (filter (λ dn, dn ∉ da :: dsa) (MembersDn group)
            = filter (λ dn, dn ∉ db :: dsb) (MembersDn group)) as ->.
    { apply list_filter_iff. intros dn. by rewrite Hperm. }
    rewrite (Permutation_length Hperm). simpl.
    by rewrite !writes_app, HG, HW1, HW2.
Qed.

Lemma toAddOf_no_error (groupId : string) (w : World) (id dn : string) :
  toAddOf cl groupId w id = Some dn → (lookupUser cl id w).2 = None.
Proof.
  unfold toAddOf. rewrite addWorker_result.
  by destruct (lookupUser cl id w) as [[user|] [err|]].
Qed.

Lemma omap_replicate {A B} (f : A → option B) (n : nat) (x : A) (y : B) :
  f x = Some y → omap f (replicate n x) = replicate n y.
Proof.
  intros Hfx. induction n as [|n IH]; [done|].
  cbn. rewrite Hfx. cbn. by rewrite IH.
Qed.

(** X14. Repeats are not merged.  When the same identifier is requested
    several times and it is found to add, its DN is written as many times
    after the group's member DNs, and, the write succeeding, the count
    returned is the number of times it was requested. *)
Theorem AddGroupMembers_counts_repeats (sched : Schedule) (groupId id : string)
    (n : nat) (w : World) (group : Group) (dn : string) :
  sched (replicate (S n) id) ≡ₚ replicate (S n) id →
  lookupGroup cl groupId w = (Some group, None) →
  toAddOf cl groupId w id = Some dn →
  let newMembers := MembersDn group ++ replicate (S n) dn in
  let upd := dir_updateAttribute (Group_DN group) "member" newMembers w in
  upd.1 = None →
  ∃ log,
    run (AddGroupMembers cl sched groupId (replicate (S n) id)) w
    = ((Z.of_nat (S n), None), mkState upd.2 log)
    ∧ writes log = [CallUpdateAttribute (Group_DN group) "member" newMembers].
Proof.
  intros Hperm Hgroup Hadd. cbv zeta. intros Hupd.
  symmetry in Hperm. apply replicate_Permutation in Hperm.
  rewrite AddGroupMembers_run, Hgroup. cbv zeta. rewrite <- Hperm.
  rewrite errCh_addWorker, toAdd_addWorker.
  rewrite omap_all_None.
  2:{ intros id' Hin. apply elem_of_replicate in Hin as [-> _].
      by rewrite (toAddOf_no_error groupId w id dn Hadd). }
  rewrite (omap_replicate _ _ _ dn Hadd).
  change (replicate (S n) dn) with (dn :: replicate n dn) in *.
  cbv beta iota. rewrite Hupd.
  eexists. split.
  - simpl length. rewrite length_replicate. reflexivity.
  - rewrite !writes_app, lookups_write_nothing.
    by rewrite workers_write_nothing by apply Reads_addWorker.
Qed.

Lemma filter_keeps_all {A} (P : A → Prop) `{!∀ x, Decision (P x)} (l : list A) :
  (∀ x, x ∈ l → P x) → filter P l = l.
Proof.
  induction l as [|x l IH]; intros Hall; [done|].
  rewrite filter_cons_True by (apply Hall; left).
  f_equal. apply IH. intros y Hy. apply Hall. by right.
Qed.

(** X15. The count of a removal counts identifiers, not DNs taken out.
    [DeleteGroupMembers] goes by the groups each user is found in, not by
    the group's member list: when the DNs found to remove are not among the
    group's member DNs, the list written is the member list as it was read,
    and, the write succeeding, the count returned is still the number of
    identifiers found to remove. *)
Theorem DeleteGroupMembers_counts_identifiers (sched : Schedule)
    (groupId : string) (ids : list string) (w : World) (group : Group) :
  sched ids ≡ₚ ids →
  lookupGroup cl groupId w = (Some group, None) →
  (∀ id, id ∈ ids → (lookupUser cl id w).2 = None) →
  omap (toDelOf cl groupId w) ids ≠ [] →
  (∀ dn, dn ∈ omap (toDelOf cl groupId w) ids → dn ∉ MembersDn group) →
  let upd := dir_updateAttribute (Group_DN group) "member" (MembersDn group) w in
  upd.1 = None →
  ∃ log,
    run (DeleteGroupMembers cl sched groupId ids) w
    = ((Z.of_nat (length (omap (toDelOf cl groupId w) ids)), None),
       mkState upd.2 log)
    ∧ writes log
      = [CallUpdateAttribute (Group_DN group) "member" (MembersDn group)].
Proof.
  intros Hperm Hgroup Hok Hsome Hout. cbv zeta. intros Hupd.
  assert (omap (toDelOf cl groupId w) (sched ids)
          ≡ₚ omap (toDelOf cl groupId w) ids) as HP
    by (by apply omap_Permutation).
  rewrite DeleteGroupMembers_run, Hgroup. cbv zeta.
  rewrite (no_errors_errCh_del groupId (sched ids) w)
    by (intros id Hin; apply Hok; by rewrite <- Hperm).
  rewrite toDel_delWorker.
  destruct (omap (toDelOf cl groupId w) (sched ids)) as [|d ds] eqn:Hdel.
  { symmetry in HP. apply Permutation_nil_r in HP. done. }
  rewrite <- Hdel.
  rewrite (filter_keeps_all (λ dn, dn ∉ omap (toDelOf cl groupId w) (sched ids))).
  2:{ intros dn Hdn Hin. rewrite Hdel, HP in Hin. by apply (Hout dn). }
  rewrite Hdel. cbv beta iota zeta. rewrite Hupd.
  rewrite <- (Permutation_length HP).
  eexists. split; [reflexivity|].
  rewrite !writes_app, lookups_write_nothing.
  by rewrite workers_write_nothing by apply Reads_delWorker.
Qed.

(** X16. An addition does not look at the member list either.  When an
    identifier is found to add (its user's groups do not list the group)
    and its DN is nevertheless among the group's member DNs, the list
    written holds that DN twice: once among the members as read and once
    among the DNs added. *)
Theorem AddGroupMembers_writes_a_member_again (sched : Schedule)
    (groupId : string) (ids : list string) (w : World) (group : Group)
    (id dn : string) :
  sched ids ≡ₚ ids →
  lookupGroup cl groupId w = (Some group, None) →
  (∀ id, id ∈ ids → (lookupUser cl id w).2 = None) →
  id ∈ ids →
  toAddOf cl groupId w id = Some dn →
  dn ∈ MembersDn group →
  ∃ before between after,
    writes (calls (run (AddGroupMembers cl sched groupId ids) w).2)
    = [CallUpdateAttribute (Group_DN group) "member"
         (before ++ dn :: between ++ dn :: after)]
    ∧ MembersDn group ++ omap (toAddOf cl groupId w) (sched ids)
      = before ++ dn :: between ++ dn :: after.
Proof.
  intros Hperm Hgroup Hok Hid Hadd Hmember.
  assert (dn ∈ omap (toAddOf cl groupId w) (sched ids)) as Hnew.
  { apply list_elem_of_omap. exists id. split; [by rewrite Hperm|done]. }
  apply list_elem_of_split in Hmember as (before & b2 & Hm).
  apply list_elem_of_split in Hnew as (a1 & after & Hn).
  exists before, (b2 ++ a1), after.
  assert (MembersDn group ++ omap (toAddOf cl groupId w) (sched ids)
          = before ++ dn :: (b2 ++ a1) ++ dn :: after) as Hlist.
  { rewrite Hm, Hn. by rewrite <- !app_assoc. }
  split; [|done].
  destruct (AddGroupMembers_writes cl sched groupId ids w)
    as [[Hnone _]|(g & Hg & Hne & Hw & _)].
  - exfalso. revert Hnone. rewrite AddGroupMembers_run, Hgroup. cbv zeta.
    rewrite (no_errors_errCh cl groupId (sched ids) w)
      by (intros i Hin; apply Hok; by rewrite <- Hperm).
    rewrite toAdd_addWorker, Hn.
    destruct a1; simpl; rewrite !writes_app; simpl;
      intros Hnil; by apply app_eq_nil in Hnil as [_ [_ ?]%app_eq_nil].
  - rewrite Hgroup in Hg. injection Hg as <-. by rewrite Hw, Hlist.
Qed.

End MoreMembership.

(** ** More on the paged listings *)

Section MorePaging.
Context `{Runtime} {World : Type} `{!Directory World}.
Variable cl : Client.

Lemma pagingLoop_aborted (req : SearchRequest) (size : Z) (w : World)
    (cookie : list byte) (how : PagingEnd) (n : nat) (w' : World) :
  Aborted req size w cookie how n w' →
  ∀ (fuel : nat) (req' : SearchRequest) (acc : list Entry) (log : list Call),
    (∀ cs, withControls req' cs = withControls req cs) →
    (n ≤ fuel)%nat →
    ∃ made,
      pagingLoop fuel req' (size, cookie) acc (mkState w log)
      = (match how with
         | EndsInError err => Returns (inl err)
         | EndsBroken => Panics "index out of range [0] with length 0"
         end, mkState w' (log ++ made))
      ∧ length made = n.
Proof.
  induction 1 as [w cookie err w' Hsearch
                 |w cookie sr w' Hsearch Hbroken
                 |w cookie sr w1 cookie' how n w' Hsearch Hmore Hrest IH];
    intros fuel req' acc log Hreq Hfuel;
    (destruct fuel as [|fuel]; [lia|]).
  - exists [CallSearch (withControls req [ControlPaging size cookie])].
    split; [|done].
    simpl. unfold mbind, M_bind, ldap_Search. simpl.
    by rewrite Hreq, Hsearch.
  - exists [CallSearch (withControls req [ControlPaging size cookie])].
    split; [|done].
    simpl. unfold mbind, M_bind, ldap_Search. simpl.
    rewrite Hreq, Hsearch. simpl.
    unfold verdict in Hbroken.
    destruct (Res_Controls sr) as [[|[sz c|ty] rest]|]; try done.
    by destruct c.
  - destruct (verdict_More sr cookie' Hmore) as (Hne & sz & rest & Hctl).
    destruct (IH fuel (withControls req [ControlPaging size cookie])
                (acc ++ Entries sr)
                (log ++ [CallSearch (withControls req [ControlPaging size cookie])]))
      as (made & Hrun & Hlen).
    { intros cs. reflexivity. }
    { lia. }
    exists (CallSearch (withControls req [ControlPaging size cookie]) :: made).
    split; [|simpl; by rewrite Hlen].
    simpl. unfold mbind, M_bind, ldap_Search. simpl.
    rewrite Hreq, Hsearch. simpl. rewrite Hctl.
    rewrite decide_False by (destruct cookie'; simpl; [done|lia]).
    simpl in Hrun. rewrite Hrun. by rewrite <- !app_assoc.
Qed.

(** X17. A failed page loses the pages before it.  If, after any number of
    pages each of which carried a paging control with a non-empty cookie as
    its first control, a [Search] fails, then [ListUsers] (and [ListGroups])
    returns nil with that error: the entries of the earlier pages are not
    returned.  It has made one [Search] per page and the failed one. *)
Theorem paged_listing_fails (uargs : GetUserArgs) (gargs : GetGroupArgs)
    (pageSize : Z) (filter : string) (w : World)
    (uerr gerr : error) (un gn : nat) (wu wg : World) :
  Aborted (ListUsers_request cl uargs filter) (uint32 pageSize)
          w [] (EndsInError uerr) un wu →
  Aborted (ListGroups_request cl gargs filter) (uint32 pageSize)
          w [] (EndsInError gerr) gn wg →
  (∀ fuel, (un ≤ fuel)%nat →
     ∃ made, run (ListUsers cl fuel uargs pageSize filter) w
             = (Returns (None, Some uerr), mkState wu made)
             ∧ length made = un)
  ∧ (∀ fuel, (gn ≤ fuel)%nat →
       ∃ made, run (ListGroups cl fuel gargs pageSize filter) w
               = (Returns (None, Some gerr), mkState wg made)
               ∧ length made = gn).
Proof.
  intros Hu Hg. split; intros fuel Hfuel.
  - destruct (pagingLoop_aborted _ _ _ _ _ _ _ Hu fuel
                (ListUsers_request cl uargs filter) [] [] (λ _, eq_refl) Hfuel)
      as (made & Hrun & Hlen).
    exists made. split; [|done].
    unfold ListUsers, run, mbind, M_bind, NewControlPaging. by rewrite Hrun.
  - destruct (pagingLoop_aborted _ _ _ _ _ _ _ Hg fuel
                (ListGroups_request cl gargs filter) [] [] (λ _, eq_refl) Hfuel)
      as (made & Hrun & Hlen).
    exists made. split; [|done].
    unfold ListGroups, run, mbind, M_bind, NewControlPaging. by rewrite Hrun.
Qed.

(** X18. An answer with an empty control list.  If, after any number of
    pages each of which carried a paging control with a non-empty cookie as
    its first control, an answer comes with a control list that is non-nil
    and empty, then [ListUsers] (and [ListGroups]) does not return: indexing
    the first control panics. *)
Theorem paged_listing_panics (uargs : GetUserArgs) (gargs : GetGroupArgs)
    (pageSize : Z) (filter : string) (w : World)
    (un gn : nat) (wu wg : World) :
  Aborted (ListUsers_request cl uargs filter) (uint32 pageSize)
          w [] EndsBroken un wu →
  Aborted (ListGroups_request cl gargs filter) (uint32 pageSize)
          w [] EndsBroken gn wg →
  (∀ fuel, (un ≤ fuel)%nat →
     (run (ListUsers cl fuel uargs pageSize filter) w).1
     = Panics "index out of range [0] with length 0")
  ∧ (∀ fuel, (gn ≤ fuel)%nat →
       (run (ListGroups cl fuel gargs pageSize filter) w).1
       = Panics "index out of range [0] with length 0").
Proof.
  intros Hu Hg. split; intros fuel Hfuel.
  - destruct (pagingLoop_aborted _ _ _ _ _ _ _ Hu fuel
                (ListUsers_request cl uargs filter) [] [] (λ _, eq_refl) Hfuel)
      as (made & Hrun & Hlen).
    unfold ListUsers, run, mbind, M_bind, NewControlPaging. by rewrite Hrun.
  - destruct (pagingLoop_aborted _ _ _ _ _ _ _ Hg fuel
                (ListGroups_request cl gargs filter) [] [] (λ _, eq_refl) Hfuel)
      as (made & Hrun & Hlen).
    unfold ListGroups, run, mbind, M_bind, NewControlPaging. by rewrite Hrun.
Qed.

Lemma pagingLoop_without_end (inv : World → list byte → Prop) (size : Z) :
  (∀ req w cookie, inv w cookie →
     ∃ sr w' cookie',
       dir_Search (withControls req [ControlPaging size cookie]) w = (inr sr, w')
       ∧ verdict sr = More cookie' ∧ inv w' cookie') →
  ∀ (fuel : nat) (req : SearchRequest) (w : World) (cookie : list byte)
    (acc : list Entry) (log : list Call),
    inv w cookie →
    ∃ st, pagingLoop fuel req (size, cookie) acc (mkState w log) = (OutOfFuel, st)
          ∧ length (calls st) = (length log + fuel)%nat.
Proof.
  intros Hstep. induction fuel as [|fuel IH]; intros req w cookie acc log Hinv.
  { eexists. split; [reflexivity|]. simpl. lia. }
  destruct (Hstep req w cookie Hinv) as (sr & w' & cookie' & Hsearch & Hmore & Hinv').
  destruct (verdict_More sr cookie' Hmore) as (Hne & sz & rest & Hctl).
  destruct (IH (withControls req [ControlPaging size cookie]) w' cookie'
              (acc ++ Entries sr)
              (log ++ [CallSearch (withControls req [ControlPaging size cookie])])
              Hinv') as (st & Hrun & Hlen).
  exists st. split.
  - simpl. unfold mbind, M_bind, ldap_Search. simpl.
    rewrite Hsearch. simpl. rewrite Hctl.
    rewrite decide_False by (destruct cookie'; simpl; [done|lia]).
    exact Hrun.
  - rewrite Hlen, length_app. simpl. lia.
Qed.

(** X19. No bound on the pages.  Against a server that answers every page
    with a paging control with a non-empty cookie as first control, the loop
    of [ListUsers] (and [ListGroups]) never leaves: whatever the fuel, the
    run spends all of it, one [Search] per unit, and has not returned. *)
Theorem paged_listing_without_end (inv : World → list byte → Prop)
    (uargs : GetUserArgs) (gargs : GetGroupArgs) (pageSize : Z)
    (filter : string) (w : World) (fuel : nat) :
  (∀ req w cookie, inv w cookie →
     ∃ sr w' cookie',
       dir_Search (withControls req [ControlPaging (uint32 pageSize) cookie]) w
       = (inr sr, w')
       ∧ verdict sr = More cookie' ∧ inv w' cookie') →
  inv w [] →
  ((run (ListUsers cl fuel uargs pageSize filter) w).1 = OutOfFuel
   ∧ length (calls (run (ListUsers cl fuel uargs pageSize filter) w).2) = fuel)
  ∧ ((run (ListGroups cl fuel gargs pageSize filter) w).1 = OutOfFuel
     ∧ length (calls (run (ListGroups cl fuel gargs pageSize filter) w).2) = fuel).
Proof.
  intros Hstep Hinv. split.
  - destruct (pagingLoop_without_end inv _ Hstep fuel
                (ListUsers_request cl uargs filter) w [] [] [] Hinv)
      as (st & Hrun & Hlen).
    unfold ListUsers, run, mbind, M_bind, NewControlPaging. rewrite Hrun.
    simpl. by rewrite Hlen.
  - destruct (pagingLoop_without_end inv _ Hstep fuel
                (ListGroups_request cl gargs filter) w [] [] [] Hinv)
      as (st & Hrun & Hlen).
    unfold ListGroups, run, mbind, M_bind, NewControlPaging. rewrite Hrun.
    simpl. by rewrite Hlen.
Qed.

Lemma uint32_congruent (n k : Z) : uint32 (n + k * 2 ^ 32) = uint32 n.
Proof. unfold uint32. apply Z_mod_plus_full. Qed.

(** X20. The page size is sent as an unsigned 32-bit number.  Page sizes
    that differ by a multiple of 2^32 make [ListUsers] (and [ListGroups])
    the same computation; the size sent lies in [0, 2^32), so a size of -1
    is sent as 4294967295 and a size of 2^32 as 0. *)
Theorem page_size_wraps (fuel : nat) (uargs : GetUserArgs) (gargs : GetGroupArgs)
    (pageSize k : Z) (filter : string) :
  ListUsers cl fuel uargs (pageSize + k * 2 ^ 32) filter
  = ListUsers cl fuel uargs pageSize filter
  ∧ ListGroups cl fuel gargs (pageSize + k * 2 ^ 32) filter
    = ListGroups cl fuel gargs pageSize filter
  ∧ 0 ≤ (NewControlPaging (uint32 pageSize)).1 < 2 ^ 32
  ∧ NewControlPaging (uint32 (-1)) = (4294967295, [])
  ∧ NewControlPaging (uint32 (2 ^ 32)) = (0, []).
Proof.
  split; [|split; [|split; [|done]]].
  - unfold ListUsers. by rewrite uint32_congruent.
  - unfold ListGroups. by rewrite uint32_congruent.
  - simpl. unfold uint32. apply Z.mod_pos_bound. lia.
Qed.

End MorePaging.

(** ** The in-memory directory of the tests *)

Section MockProperties.
Import Mock.

Lemma getEntryByDn_None (iteration : list (string * Entry)) (dn : string) :
  getEntryByDn iteration dn = None
  ↔ ∀ id e, (id, e) ∈ iteration → Entry_DN e ≠ dn.
Proof.
  induction iteration as [|[id0 e0] rest IH]; simpl.
  - split; [|done]. intros _ id e Hin. by apply elem_of_nil in Hin.
  - destruct (decide (Entry_DN e0 = dn)) as [Heq|Hne].
    + split; [done|]. intros Hall. destruct (Hall id0 e0); [left|done].
    + rewrite IH. split.
      * intros Hall id e Hin. apply elem_of_cons in Hin as [[= -> ->]|Hin]; eauto.
      * intros Hall id e Hin. apply (Hall id). by right.
Qed.

Lemma getEntryByDn_Some (iteration : list (string * Entry)) (dn : string) (e : Entry) :
  getEntryByDn iteration dn = Some e →
  Entry_DN e = dn ∧ ∃ id, (id, e) ∈ iteration.
Proof.
  induction iteration as [|[id0 e0] rest IH]; simpl; [done|].
  destruct (decide (Entry_DN e0 = dn)) as [Heq|Hne].
  - intros [= <-]. split; [done|]. exists id0. left.
  - intros Hrest. destruct (IH Hrest) as (Hdn & id & Hin).
    split; [done|]. exists id. by right.
Qed.

(** X21. [getEntryByDn] whatever the order of the map.  It returns nil
    exactly when no entry of the map has the DN; an entry it returns is an
    entry of the map with that DN; and when the entries of the map with
    that DN are all alike, it returns that entry in whatever order the map
    is ranged over. *)
Theorem getEntryByDn_of_map (cl : mockClient) (iteration : list (string * Entry))
    (dn : string) :
  iteration ≡ₚ map_to_list (entries cl) →
  (getEntryByDn iteration dn = None
   ↔ ∀ id e, entries cl !! id = Some e → Entry_DN e ≠ dn)
  ∧ (∀ e, getEntryByDn iteration dn = Some e →
       Entry_DN e = dn ∧ ∃ id, entries cl !! id = Some e)
  ∧ (∀ id e, entries cl !! id = Some e → Entry_DN e = dn →
       (∀ id' e', entries cl !! id' = Some e' → Entry_DN e' = dn → e' = e) →
       getEntryByDn iteration dn = Some e).
Proof.
  intros Hperm.
  assert (∀ id e, (id, e) ∈ iteration ↔ entries cl !! id = Some e) as Hin.
  { intros id e. rewrite Hperm. apply elem_of_map_to_list. }
  split; [|split].
  - rewrite getEntryByDn_None. split; intros Hall id e He.
    + apply (Hall id). by apply Hin.
    + apply (Hall id). by apply Hin.
  - intros e He. destruct (getEntryByDn_Some _ _ _ He) as (Hdn & id & Hid).
    split; [done|]. exists id. by apply Hin.
  - intros id e He Hdn Hall.
    destruct (getEntryByDn iteration dn) as [e'|] eqn:Hget.
    + destruct (getEntryByDn_Some _ _ _ Hget) as (Hdn' & id' & Hid').
      f_equal. apply (Hall id'); [by apply Hin|done].
    + exfalso. apply (proj1 (getEntryByDn_None _ _) Hget id e); [|done].
      by apply Hin.
Qed.

Section WithConnectionError.
Variable connectionError : error.

Lemma getEntriesByFilter_range_quiet (iteration : list (string * Entry))
    (flt : string) (result : list Entry) :
  (∀ id e, (id, e) ∈ iteration → answers flt e →
     id ≠ "entryForErr" ∧ id ≠ "userToReconnect") →
  getEntriesByFilter_range connectionError iteration flt result
  = (result ++ (filter (λ p, answers flt p.2) iteration).*2, None).
Proof.
  revert result. induction iteration as [|[id e] rest IH]; intros result Hquiet.
  { simpl. by rewrite app_nil_r. }
  assert (∀ id' e', (id', e') ∈ rest → answers flt e' →
            id' ≠ "entryForErr" ∧ id' ≠ "userToReconnect") as Hrest.
  { intros id' e' Hin. apply Hquiet. by right. }
  simpl. destruct (slices_Contains _ flt) eqn:Hc.
  - apply slices_Contains_spec in Hc.
    destruct (Hquiet id e (list_elem_of_here _ _) Hc) as [H1 H2].
    rewrite !decide_False by done. rewrite (IH _ Hrest).
    rewrite filter_cons_True by done. simpl. by rewrite <- app_assoc.
  - rewrite (IH _ Hrest). rewrite filter_cons_False; [done|].
    simpl. intros Ha. apply slices_Contains_spec in Ha. congruence.
Qed.

Lemma getEntriesByFilter_range_fails (iteration : list (string * Entry))
    (flt : string) (result : list Entry) (bad other : string) (err : error) :
  (∀ e, (other, e) ∈ iteration → ¬ answers flt e) →
  (∃ e, (bad, e) ∈ iteration ∧ answers flt e) →
  (bad = "entryForErr" ∧ other = "userToReconnect" ∧ err = "error for tests")
  ∨ (bad = "userToReconnect" ∧ other = "entryForErr" ∧ err = connectionError) →
  getEntriesByFilter_range connectionError iteration flt result = ([], Some err).
Proof.
  intros Hother Hbad Hwhich. revert result Hother Hbad.
  induction iteration as [|[id e] rest IH]; intros result Hother (eb & Hin & Hans).
  { by apply elem_of_nil in Hin. }
  assert (∀ e', (other, e') ∈ rest → ¬ answers flt e') as Hrest.
  { intros e' Hin'. apply Hother. by right. }
  simpl. destruct (slices_Contains _ flt) eqn:Hc.
  - apply slices_Contains_spec in Hc.
    assert (id ≠ other) as Hno.
    { intros ->. by apply (Hother e (list_elem_of_here _ _)). }
    destruct Hwhich as [(-> & -> & ->)|(-> & -> & ->)].
    + destruct (decide (id = "entryForErr")) as [|Hne]; [done|].
      rewrite decide_False by done. apply IH; [done|].
      apply elem_of_cons in Hin as [[= <- <-]|Hin]; [done|]. eauto.
    + rewrite decide_False by done.
      destruct (decide (id = "userToReconnect")) as [|Hne]; [done|].
      apply IH; [done|].
      apply elem_of_cons in Hin as [[= <- <-]|Hin]; [done|]. eauto.
  - apply IH; [done|].
    apply elem_of_cons in Hin as [[= <- <-]|Hin]; [|eauto].
    apply slices_Contains_spec in Hans. unfold answers in Hc. congruence.
Qed.

(** X22. [Search] of the mock.  When no entry that answers to the filter
    is kept under [entryForErr] or [userToReconnect], [Search] returns,
    without error and with a nil control list, all the entries that answer
    to the filter, in the order in which the map is ranged over: two orders
    give the same entries up to order, and the controls of the request,
    paging included, play no part.  When an entry kept under [entryForErr]
    answers and none under [userToReconnect] does, it returns the error
    [error for tests] and no result in every order. *)
Theorem mock_Search (cl : mockClient) (first second : list (string * Entry))
    (req : SearchRequest) :
  first ≡ₚ map_to_list (entries cl) →
  second ≡ₚ map_to_list (entries cl) →
  ((∀ id e, entries cl !! id = Some e → answers (Filter req) e →
      id ≠ "entryForErr" ∧ id ≠ "userToReconnect") →
   Search connectionError first req
   = (Some {| Entries := (filter (λ p, answers (Filter req) p.2) first).*2;
              Res_Controls := None |}, None)
   ∧ (filter (λ p, answers (Filter req) p.2) first).*2
     ≡ₚ (filter (λ p, answers (Filter req) p.2) second).*2
   ∧ ∀ controls,
       Search connectionError first (withControls req controls)
       = Search connectionError first req)
  ∧ ((∃ e, entries cl !! "entryForErr" = Some e ∧ answers (Filter req) e) →
     (∀ e, entries cl !! "userToReconnect" = Some e → ¬ answers (Filter req) e) →
     Search connectionError first req = (None, Some "error for tests")
     ∧ Search connectionError second req = (None, Some "error for tests")).
Proof.
  intros H1 H2.
  assert (∀ it, it ≡ₚ map_to_list (entries cl) →
            ∀ id e, (id, e) ∈ it ↔ entries cl !! id = Some e) as Hin.
  { intros it Hit id e. rewrite Hit. apply elem_of_map_to_list. }
  split.
  - intros Hquiet. split; [|split].
    + unfold Search, getEntriesByFilter.
      rewrite getEntriesByFilter_range_quiet; [done|].
      intros id e He. apply Hquiet. by apply (Hin first H1).
    + by rewrite H1, H2.
    + done.
  - intros (e & He & Hans) Hother.
    assert (∀ it, it ≡ₚ map_to_list (entries cl) →
              Search connectionError it req = (None, Some "error for tests"))
      as Hfails.
    { intros it Hit. unfold Search, getEntriesByFilter.
      rewrite (getEntriesByFilter_range_fails it (Filter req) []
                 "entryForErr" "userToReconnect" "error for tests"); [done| | |].
      - intros e' He'. apply Hother. by apply (Hin it Hit).
      - exists e. split; [by apply (Hin it Hit)|done].
      - by left. }
    split; by apply Hfails.
Qed.

End WithConnectionError.

(** X23. [Modify] of the mock, whatever the order of the map.  It returns
    the error [entry not found] exactly for a DN that no entry has.  For a
    DN that an entry has, it returns the error [error for tests] when that
    DN is the DN of the entry kept under [entryForErr] and nil otherwise;
    and when the map keeps no entry under [entryForErr] it does not return:
    the DN of a nil entry is read. *)
Theorem mock_Modify (cl : mockClient) (iteration : list (string * Entry))
    (dn : string) :
  iteration ≡ₚ map_to_list (entries cl) →
  (Modify cl iteration dn = Returns (Some "entry not found")
   ↔ ∀ id e, entries cl !! id = Some e → Entry_DN e ≠ dn)
  ∧ (∀ id e, entries cl !! id = Some e → Entry_DN e = dn →
       Modify cl iteration dn
       = match entries cl !! "entryForErr" with
         | None => Panics "invalid memory address or nil pointer dereference"
         | Some entryForErr =>
             if decide (dn = Entry_DN entryForErr)
             then Returns (Some "error for tests")
             else Returns None
         end).
Proof.
  intros Hperm.
  assert (∀ id e, (id, e) ∈ iteration ↔ entries cl !! id = Some e) as Hin.
  { intros id e. rewrite Hperm. apply elem_of_map_to_list. }
  unfold Modify. split.
  - destruct (getEntryByDn iteration dn) as [e|] eqn:Hget.
    + destruct (getEntryByDn_Some _ _ _ Hget) as (Hdn & id & Hid).
      split.
      * destruct (entries cl !! "entryForErr"); [case_decide|]; done.
      * intros Hall. destruct (Hall id e); [by apply Hin|done].
    + split; [|done]. intros _ id e He.
      apply (proj1 (getEntryByDn_None _ _) Hget id). by apply Hin.
  - intros id e He Hdn.
    destruct (getEntryByDn iteration dn) as [e'|] eqn:Hget.
    + destruct (getEntryByDn_Some _ _ _ Hget) as (Hdn' & _).
      destruct (entries cl !! "entryForErr") as [bad|]; [|done].
      rewrite Hdn'. done.
    + destruct (proj1 (getEntryByDn_None _ _) Hget id e); [by apply Hin|done].
Qed.

End MockProperties.

(** * The further properties on the small directory *)

Lemma IsGroupMember_GroupsId_witness :
  IsGroupMember {| User_DN := fx_dn "user2"; User_Id := "user2";
                   User_Attributes := ∅; User_Groups := [] |} "group2" = false.
Proof.
  apply (proj2 (IsGroupMember_GroupsId _ "group2")). reflexivity.
Defined.

Lemma entryAttributes_lookup_witness :
  let entry := {| Entry_DN := "CN=a";
                  Entry_Attributes := [
                    {| Name := "mail"; Values := ["a@x"; "a@y"] |};
                    {| Name := "cn"; Values := [] |};
                    {| Name := "mail"; Values := ["b@x"] |} ] |} in
  ∃ first,
    first ∈ Entry_Attributes entry ∧ Name first = "mail"
    ∧ entryAttributes entry !! "mail" = Some (default "" (head (Values first))).
Proof.
  cbv zeta.
  apply (proj2 (entryAttributes_lookup _ "mail")
               {| Name := "mail"; Values := ["b@x"] |}).
  set_solver.
Defined.

Lemma GetStringAttribute_lookup_witness :
  let attributes : gmap string GoValue :=
    {[ "cn" := GoString "admins"; "member" := GoOther ]} in
  GetStringAttribute (reverse (map_to_list attributes)) "cn" = "admins"
  ∧ GetStringAttribute (reverse (map_to_list attributes)) "member" = ""
  ∧ GetStringAttribute (reverse (map_to_list attributes)) "mail" = "".
Proof.
  cbv zeta. split; [|split].
  - rewrite (GetStringAttribute_lookup _ _ "cn" (reverse_Permutation _)).
    vm_compute. reflexivity.
  - rewrite (GetStringAttribute_lookup _ _ "member" (reverse_Permutation _)).
    vm_compute. reflexivity.
  - rewrite (GetStringAttribute_lookup _ _ "mail" (reverse_Permutation _)).
    vm_compute. reflexivity.
Defined.

Lemma GetStringAttribute_of_entry_witness :
  GetStringAttribute
    (reverse (map_to_list (GoString <$> entryAttributes fx_admins))) "cn"
  = GetAttributeValue fx_admins "cn".
Proof.
  apply (GetStringAttribute_of_entry fx_admins). apply reverse_Permutation.
Defined.

Lemma GetUser_found_witness :
  ∃ user,
    run (GetUser fx_client (GetUserArgs_byId "user2")) fx_world
    = ((Some user, None),
       mkState fx_world
         [CallSearchEntry (GetUser_request fx_client (GetUserArgs_byId "user2"));
          CallSearchEntries (getUserGroups_request fx_client (fx_dn "user2"))])
    ∧ User_DN user = fx_dn "user2"
    ∧ (IsGroupMember user "group2" = true
       ↔ ∃ e, e ∈ [fx_entry "group2"]
              ∧ GetAttributeValue e "sAMAccountName" = "group2").
Proof.
  destruct (GetUser_found fx_client (GetUserArgs_byId "user2") fx_world
              (fx_entry "user2") [fx_entry "group2"])
    as (user & Hrun & Hdn & _ & _ & _ & _ & Hmember);
    [reflexivity|reflexivity|vm_compute; reflexivity|vm_compute; reflexivity|].
  exists user. split; [exact Hrun|]. split; [exact Hdn|]. apply Hmember.
Defined.

Lemma GetGroup_found_witness :
  ∃ group,
    run (GetGroup fx_client (GetGroupArgs_byId "group2")) fx_world
    = ((Some group, None),
       mkState fx_world
         [CallSearchEntry (GetGroup_request fx_client (GetGroupArgs_byId "group2"));
          CallSearchEntries (getGroupMembers_request fx_client (fx_dn "group2"))])
    ∧ MembersDn group = [fx_dn "user2"]
    ∧ MembersId group = ["user2"].
Proof.
  destruct (GetGroup_found fx_client (GetGroupArgs_byId "group2") fx_world
              (fx_entry "group2") [fx_entry "user2"])
    as (group & Hrun & _ & _ & _ & Hdns & Hids);
    [reflexivity|reflexivity|vm_compute; reflexivity|vm_compute; reflexivity|].
  exists group. split; [exact Hrun|]. split; [exact Hdns|exact Hids].
Defined.

Lemma getGroupMembers_blank_ids_witness :
  ∃ members,
    result_of (getGroupMembers fx_client_cn (fx_dn "group2")) fx_world
    = (members, None)
    ∧ map GroupMember_DN members = map Entry_DN [fx_entry "user2"]
    ∧ ∀ m, m ∈ members → GroupMember_Id m = "".
Proof.
  apply (getGroupMembers_blank_ids fx_client_cn (fx_dn "group2") fx_world
           [fx_entry "user2"]).
  - discriminate.
  - reflexivity.
  - intros e a He Ha. each_member He. each_member Ha. vm_compute. left.
Defined.

Lemma lookups_only_read_witness :
  let uargs := {| GetUserArgs_Id := "user2"; GetUserArgs_Dn := "";
                  GetUserArgs_Filter := ""; GetUserArgs_Attributes := None;
                  SkipGroupsSearch := true |} in
  ∃ made,
    (GetUser fx_client uargs (mkState fx_world [])).2 = mkState fx_world made
    ∧ (length made ≤ 1)%nat.
Proof.
  cbv zeta.
  destruct (lookups_only_read fx_client
              {| GetUserArgs_Id := "user2"; GetUserArgs_Dn := "";
                 GetUserArgs_Filter := ""; GetUserArgs_Attributes := None;
                 SkipGroupsSearch := true |}
              (GetGroupArgs_byId "group2") (mkState fx_world []))
    as [(made & Hst & _ & _ & Hone) _].
  exists made. split; [exact Hst|]. apply Hone. reflexivity.
Defined.

Lemma GetGroup_variants_agree_witness :
  Legacy.GetGroup fx_client
    (Some {| Legacy.Id := "group2"; Legacy.Dn := "";
             Legacy.Attributes := None; Legacy.SkipMembersSearch := false |})
    (mkState fx_world [])
  = GetGroup fx_client (GetGroupArgs_byId "group2") (mkState fx_world []).
Proof.
  apply (GetGroup_variants_agree fx_client "group2" "" None false
           (mkState fx_world [])).
  left. discriminate.
Defined.

Lemma batch_without_group_witness :
  run (AddGroupMembers fx_client_err id "entryForErr" ["user2"]) fx_world
  = ((0, Some "can't get group: error for tests"),
     mkState fx_world
       (calls (run (GetGroup fx_client_err (GetGroupArgs_byId "entryForErr"))
                   fx_world).2))
  ∧ run (DeleteGroupMembers fx_client id "nogroup" ["user2"]) fx_world
    = ((0, Some "group 'nogroup' not found by ID"),
       mkState fx_world
         (calls (run (GetGroup fx_client (GetGroupArgs_byId "nogroup")) fx_world).2))
  ∧ run (AddGroupMembers fx_client id "" ["user2"]) fx_world
    = ((0, Some "can't get group: neither of ID, DN or Filter provided"),
       mkState fx_world []).
Proof.
  destruct (batch_without_group fx_client_err id "entryForErr" ["user2"] fx_world)
    as (Herr & _).
  destruct (batch_without_group fx_client id "nogroup" ["user2"] fx_world)
    as (_ & Hnone & _).
  destruct (batch_without_group fx_client id "" ["user2"] fx_world)
    as (_ & _ & _ & _ & Hempty).
  split; [|split].
  - apply (Herr None "error for tests"). vm_compute. reflexivity.
  - apply Hnone. vm_compute. reflexivity.
  - apply Hempty. reflexivity.
Defined.

Lemma Legacy_AddGroupMembers_skips_failures_witness :
  is_Some (lookupUser fx_client "entryForErr" fx_world).2
  ∧ ∃ log,
      run (Legacy.AddGroupMembers fx_client id "group2" ["entryForErr"; "userToAdd"])
          fx_world
      = ((1, None),
         mkState {| fx_members := [fx_dn "user2"; fx_dn "userToAdd"];
                    fx_pages := [] |} log)
      ∧ writes log
        = [CallUpdateAttribute (fx_dn "group2") "member"
             [fx_dn "user2"; fx_dn "userToAdd"]].
Proof.
  split; [vm_compute; eauto|].
  edestruct (Legacy_AddGroupMembers_skips_failures fx_client id "group2"
               ["entryForErr"; "userToAdd"] fx_world)
    as (_ & log & Hrun & Hwrites); [discriminate|reflexivity|].
  exists log. split.
  - rewrite Hrun. vm_compute. reflexivity.
  - rewrite Hwrites. vm_compute. reflexivity.
Defined.

Lemma DeleteGroupMembers_variants_agree_witness :
  run (Legacy.DeleteGroupMembers fx_client reverse "group2" ["user2"; "ghost"])
      fx_world
  = run (DeleteGroupMembers fx_client reverse "group2" ["user2"; "ghost"]) fx_world.
Proof.
  apply (DeleteGroupMembers_variants_agree fx_client).
  - intros s slice. apply bool_decide_eq_true.
  - apply reverse_Permutation.
  - discriminate.
  - intros i Hin. each_member Hin; vm_compute; reflexivity.
Defined.

Lemma DeleteGroupMembers_order_irrelevant_witness :
  let a := run (DeleteGroupMembers fx_client id "group2"
                  ["user2"; "ghost"; "userToAdd"]) fx_world in
  let b := run (DeleteGroupMembers fx_client reverse "group2"
                  ["user2"; "ghost"; "userToAdd"]) fx_world in
  a.1 = b.1 ∧ world a.2 = world b.2 ∧ writes (calls a.2) = writes (calls b.2).
Proof.
  apply (DeleteGroupMembers_order_irrelevant fx_client id reverse).
  - reflexivity.
  - apply reverse_Permutation.
  - intros i Hin. each_member Hin; vm_compute; reflexivity.
Defined.

Lemma AddGroupMembers_counts_repeats_witness :
  ∃ log,
    run (AddGroupMembers fx_client id "group2" (replicate 2 "userToAdd")) fx_world
    = ((2, None),
       mkState {| fx_members := [fx_dn "user2"; fx_dn "userToAdd"; fx_dn "userToAdd"];
                  fx_pages := [] |} log)
    ∧ writes log
      = [CallUpdateAttribute (fx_dn "group2") "member"
           [fx_dn "user2"; fx_dn "userToAdd"; fx_dn "userToAdd"]].
Proof.
  edestruct (AddGroupMembers_counts_repeats fx_client id "group2" "userToAdd" 1
               fx_world) as (log & Hrun & Hwrites);
    [reflexivity|reflexivity|vm_compute; reflexivity|vm_compute; reflexivity|].
  exists log. split.
  - rewrite Hrun. vm_compute. reflexivity.
  - rewrite Hwrites. vm_compute. reflexivity.
Defined.

Lemma DeleteGroupMembers_counts_identifiers_witness :
  ∃ log,
    run (DeleteGroupMembers fx_client id "group2" ["user1"]) fx_loose
    = ((1, None), mkState fx_loose log)
    ∧ writes log
      = [CallUpdateAttribute (fx_dn "group2") "member"
           [fx_dn "user2"; fx_dn "userToAdd"]].
Proof.
  edestruct (DeleteGroupMembers_counts_identifiers fx_client id "group2" ["user1"]
               fx_loose) as (log & Hrun & Hwrites).
  - reflexivity.
  - reflexivity.
  - intros i Hin. each_member Hin. vm_compute. reflexivity.
  - vm_compute. discriminate.
  - apply Forall_forall.
    refine (bool_decide_unpack _ _). vm_compute. exact I.
  - vm_compute. reflexivity.
  - exists log. split.
    + rewrite Hrun. vm_compute. reflexivity.
    + rewrite Hwrites. vm_compute. reflexivity.
Defined.

Lemma AddGroupMembers_writes_a_member_again_witness :
  ∃ before between after,
    writes (calls (run (AddGroupMembers fx_client id "group2" ["userToAdd"])
                       fx_loose).2)
    = [CallUpdateAttribute (fx_dn "group2") "member"
         (before ++ fx_dn "userToAdd" :: between ++ fx_dn "userToAdd" :: after)].
Proof.
  edestruct (AddGroupMembers_writes_a_member_again fx_client (λ l, l) "group2"
               ["userToAdd"] fx_loose)
    with (id := "userToAdd") (dn := fx_dn "userToAdd")
    as (before & between & after & Hwrites & _).
  - reflexivity.
  - reflexivity.
  - intros i Hin. each_member Hin. vm_compute. reflexivity.
  - left.
  - vm_compute. reflexivity.
  - vm_compute. set_solver.
  - exists before, between, after. exact Hwrites.
Defined.

Lemma paged_listing_fails_witness :
  (∃ made, run (ListUsers fx_client 3 (GetUserArgs_byId "") 2 "") fx_paged_lost
           = (Returns (None, Some "unknown cookie"), mkState fx_paged_lost made)
           ∧ length made = 2%nat)
  ∧ (∃ made, run (ListGroups fx_client 3 (GetGroupArgs_byId "") 2 "") fx_paged_lost
             = (Returns (None, Some "unknown cookie"), mkState fx_paged_lost made)
             ∧ length made = 2%nat).
Proof.
  edestruct (paged_listing_fails fx_client (GetUserArgs_byId "")
               (GetGroupArgs_byId "") 2 "" fx_paged_lost) as [Hu Hg].
  - eapply Aborted_more; [reflexivity|reflexivity|].
    eapply Aborted_error. reflexivity.
  - eapply Aborted_more; [reflexivity|reflexivity|].
    eapply Aborted_error. reflexivity.
  - split; [apply (Hu 3%nat)|apply (Hg 3%nat)]; lia.
Defined.

Lemma paged_listing_panics_witness :
  (run (ListUsers fx_client 2 (GetUserArgs_byId "") 2 "") fx_paged_broken).1
  = Panics "index out of range [0] with length 0"
  ∧ (run (ListGroups fx_client 2 (GetGroupArgs_byId "") 2 "") fx_paged_broken).1
    = Panics "index out of range [0] with length 0".
Proof.
  edestruct (paged_listing_panics fx_client (GetUserArgs_byId "")
               (GetGroupArgs_byId "") 2 "" fx_paged_broken) as [Hu Hg].
  - eapply Aborted_more; [reflexivity|reflexivity|].
    eapply Aborted_broken; reflexivity.
  - eapply Aborted_more; [reflexivity|reflexivity|].
    eapply Aborted_broken; reflexivity.
  - split; [apply (Hu 2%nat)|apply (Hg 2%nat)]; lia.
Defined.

Lemma paged_listing_without_end_witness :
  (run (ListUsers fx_client 50 (GetUserArgs_byId "") 2 "") fx_paged_forever).1
  = OutOfFuel
  ∧ length (calls (run (ListUsers fx_client 50 (GetUserArgs_byId "") 2 "")
                       fx_paged_forever).2) = 50%nat.
Proof.
  apply (paged_listing_without_end fx_client
           (λ w cookie, w = fx_paged_forever ∧ (cookie = [] ∨ cookie = [x01]))
           (GetUserArgs_byId "") (GetGroupArgs_byId "") 2 "" fx_paged_forever 50).
  - intros req w cookie [-> [->| ->]].
    + eexists _, _, _. split; [reflexivity|]. split; [reflexivity|]. auto.
    + eexists _, _, _. split; [reflexivity|]. split; [reflexivity|]. auto.
  - auto.
Defined.

Lemma getEntryByDn_of_map_witness :
  Mock.getEntryByDn (reverse (map_to_list (Mock.entries Mock.mockConnection)))
               "OU=notUniq,DC=company,DC=com"
  = Mock.entries Mock.mockConnection !! "notUniq1"
  ∧ Mock.getEntryByDn (reverse (map_to_list (Mock.entries Mock.mockConnection)))
                 "OU=nobody,DC=company,DC=com"
    = None.
Proof.
  destruct (getEntryByDn_of_map Mock.mockConnection
              (reverse (map_to_list (Mock.entries Mock.mockConnection)))
              "OU=notUniq,DC=company,DC=com" (reverse_Permutation _))
    as (_ & _ & Hsome).
  destruct (getEntryByDn_of_map Mock.mockConnection
              (reverse (map_to_list (Mock.entries Mock.mockConnection)))
              "OU=nobody,DC=company,DC=com" (reverse_Permutation _))
    as (Hnone & _ & _).
  destruct (Mock.entries Mock.mockConnection !! "notUniq1") as [e|] eqn:He;
    [|vm_compute in He; discriminate].
  split.
  - apply (Hsome "notUniq1" e He).
    + vm_compute in He. injection He as <-. reflexivity.
    + assert (map_Forall (λ _ e', Entry_DN e' = "OU=notUniq,DC=company,DC=com"
                                  → e' = e) (Mock.entries Mock.mockConnection))
        as Hall; [|exact Hall].
      vm_compute in He. injection He as <-.
      refine (bool_decide_unpack _ _). vm_compute. exact I.
  - apply Hnone.
    assert (map_Forall (λ _ e', Entry_DN e' ≠ "OU=nobody,DC=company,DC=com")
                       (Mock.entries Mock.mockConnection)) as Hall; [|exact Hall].
    refine (bool_decide_unpack _ _). vm_compute. exact I.
Defined.

Lemma mock_Search_witness :
  let table := Mock.entries Mock.mockConnection in
  let network := "LDAP Result Code 200: connection error" in
  (Mock.Search network (reverse (map_to_list table))
     (GetUser_request fx_client (GetUserArgs_byId "notUniq"))
   = (Some {| Entries :=
                (filter (λ p, Mock.answers
                                (Filter (GetUser_request fx_client
                                           (GetUserArgs_byId "notUniq"))) p.2)
                        (reverse (map_to_list table))).*2;
              Res_Controls := None |}, None)
   ∧ length (filter (λ p, Mock.answers
                            (Filter (GetUser_request fx_client
                                       (GetUserArgs_byId "notUniq"))) p.2)
                    (reverse (map_to_list table))).*2 = 2%nat)
  ∧ Mock.Search network (reverse (map_to_list table))
      (GetUser_request fx_client (GetUserArgs_byId "entryForErr"))
    = (None, Some "error for tests").
Proof.
  cbv zeta. split.
  - edestruct (mock_Search "LDAP Result Code 200: connection error"
                 Mock.mockConnection
                 (reverse (map_to_list (Mock.entries Mock.mockConnection)))
                 (map_to_list (Mock.entries Mock.mockConnection))
                 (GetUser_request fx_client (GetUserArgs_byId "notUniq"))
                 (reverse_Permutation _) (Permutation_refl _))
      as [Hquiet _].
    destruct Hquiet as (Hrun & _ & _).
    + assert (map_Forall
                (λ id e,
                   Mock.answers (Filter (GetUser_request fx_client
                                           (GetUserArgs_byId "notUniq"))) e →
                   id ≠ "entryForErr" ∧ id ≠ "userToReconnect")
                (Mock.entries Mock.mockConnection)) as Hall; [|exact Hall].
      refine (bool_decide_unpack _ _). vm_compute. exact I.
    + split; [exact Hrun|]. vm_compute. reflexivity.
  - edestruct (mock_Search "LDAP Result Code 200: connection error"
                 Mock.mockConnection
                 (reverse (map_to_list (Mock.entries Mock.mockConnection)))
                 (map_to_list (Mock.entries Mock.mockConnection))
                 (GetUser_request fx_client (GetUserArgs_byId "entryForErr"))
                 (reverse_Permutation _) (Permutation_refl _))
      as [_ Hfails].
    destruct Hfails as (Hrun & _).
    + eexists. split; [vm_compute; reflexivity|].
      refine (bool_decide_unpack _ _). vm_compute. exact I.
    + intros e He. vm_compute in He. injection He as <-.
      refine (bool_decide_unpack _ _). vm_compute. exact I.
    + exact Hrun.
Defined.

Lemma mock_Modify_witness :
  let table := Mock.entries Mock.mockConnection in
  Mock.Modify Mock.mockConnection (reverse (map_to_list table))
              "OU=group2,DC=company,DC=com" = Returns None
  ∧ Mock.Modify Mock.mockConnection (reverse (map_to_list table))
                "OU=entryForErr,DC=company,DC=com"
    = Returns (Some "error for tests")
  ∧ Mock.Modify Mock.mockConnection (reverse (map_to_list table))
                "OU=nobody,DC=company,DC=com"
    = Returns (Some "entry not found").
Proof.
  cbv zeta.
  destruct (mock_Modify Mock.mockConnection
              (reverse (map_to_list (Mock.entries Mock.mockConnection)))
              "OU=group2,DC=company,DC=com" (reverse_Permutation _))
    as (_ & Hgroup).
  destruct (mock_Modify Mock.mockConnection
              (reverse (map_to_list (Mock.entries Mock.mockConnection)))
              "OU=entryForErr,DC=company,DC=com" (reverse_Permutation _))
    as (_ & Hbad).
  destruct (mock_Modify Mock.mockConnection
              (reverse (map_to_list (Mock.entries Mock.mockConnection)))
              "OU=nobody,DC=company,DC=com" (reverse_Permutation _))
    as (Hnobody & _).
  split; [|split].
  - erewrite (Hgroup "group2"); [vm_compute; reflexivity|vm_compute; reflexivity|reflexivity].
  - erewrite (Hbad "entryForErr"); [vm_compute; reflexivity|vm_compute; reflexivity|reflexivity].
  - apply Hnobody.
    assert (map_Forall (λ _ e', Entry_DN e' ≠ "OU=nobody,DC=company,DC=com")
                       (Mock.entries Mock.mockConnection)) as Hall; [|exact Hall].
    refine (bool_decide_unpack _ _). vm_compute. exact I.
Defined.
